(** * Stratified sampler for SWE-bench Verified ([eval/sample.py])

    A shallow embedding of the sampler and the verification of its
    specification.  Python floats are IEEE-754 binary64 numbers and are
    modelled bit-exactly by [SpecFloat] at precision 53; Python integers are
    [Z]; dictionaries, which keep insertion order, are association lists;
    a pandas data frame is its list of columns, its index labels and its
    list of rows.  The pseudo-random row choice of pandas
    ([RandomState(seed).choice] without replacement) is a parameter of the
    development.  The console and the file system answer through the
    operating system, which is part of the process state: it says whether
    [print] and [open] succeed and which file a path names.  Paths are
    POSIX paths.

    The allocation is computed in floating point.  Its properties are
    proved for data sets of at most 2^25 (33,554,432) rows and requests of
    at most that size, where the rounding error of a share stays below half
    of [1 / total]. *)

From Stdlib Require Import ZArith List String Ascii Bool Lia Reals Lra Psatz.
From Stdlib Require Import DecimalString Permutation Sorted.
From Stdlib Require Import SpecFloat.
Import ListNotations.
Open Scope Z_scope.

(** ** Python values: exceptions and floats *)

Inductive PyError : Type :=
| ValueError
| OverflowError
| ZeroDivisionError
| KeyError
| TypeError
| OSError
| UnicodeEncodeError.

Inductive result (A : Type) : Type :=
| Ok (a : A)
| Raise (e : PyError).
Arguments Ok {A} a.
Arguments Raise {A} e.

Definition bind {A B : Type} (r : result A) (k : A -> result B) : result B :=
  match r with
  | Ok a => k a
  | Raise e => Raise e
  end.

Notation "x <- c ;; k" := (bind c (fun x => k))
  (at level 61, c at next level, right associativity).

(** [mapM f l] runs [f] over [l] from left to right and stops at the first
    exception, as a comprehension does. *)
Fixpoint mapM {A B : Type} (f : A -> result B) (l : list A) : result (list B) :=
  match l with
  | [] => Ok []
  | a :: l' => b <- f a ;; bs <- mapM f l' ;; Ok (b :: bs)
  end.

Module Float64.

Definition prec : Z := 53.
Definition emax : Z := 1024.
Definition float : Type := spec_float.

(** Conversion of an integer, rounding to nearest even. *)
Definition of_int (z : Z) : float := binary_normalize prec emax z 0 false.

Definition div : float -> float -> float := SFdiv prec emax.
Definition mul : float -> float -> float := SFmul prec emax.
Definition sub : float -> float -> float := SFsub prec emax.
Definition ltb : float -> float -> bool := SFltb.

(** [int(v)]: truncation toward zero; infinities and NaN raise. *)
Definition trunc (v : float) : result Z :=
  match v with
  | S754_zero _ => Ok 0
  | S754_finite s m e => Ok (cond_Zopp s (Z.shiftl (Zpos m) e))
  | S754_infinity _ => Raise OverflowError
  | S754_nan => Raise ValueError
  end.

End Float64.

(** ** Python built-ins *)

Section Sorting.
Context {A K : Type}.
Variable lt : K -> K -> bool.
Variable key : A -> K.

(** One step of a stable ascending sort: [x] arrived after every element
    of [l] and goes behind all elements that are not greater. *)
Fixpoint insort (x : A) (l : list A) : list A :=
  match l with
  | [] => [x]
  | y :: l' => if lt (key x) (key y) then x :: l else y :: insort x l'
  end.

(** [sorted(l, key=key)]. *)
Definition sorted (l : list A) : list A :=
  fold_left (fun acc x => insort x acc) l [].

(** [sorted(l, key=key, reverse=True)]: the list is reversed, sorted and
    reversed again, so that equal keys keep their original order. *)
Definition sorted_reverse (l : list A) : list A := rev (sorted (rev l)).
End Sorting.

(** [l[:r]] for an integer [r] of either sign. *)
Definition slice_to {A : Type} (l : list A) (r : Z) : list A :=
  if 0 <=? r then firstn (Z.to_nat r) l
  else firstn (Z.to_nat (Z.of_nat (List.length l) + r)) l.

(** [sum] of a list of integers. *)
Definition sum (l : list Z) : Z := fold_right Z.add 0 l.

(** A dictionary with string keys, in insertion order. *)
Definition dict (V : Type) : Type := list (string * V).

Definition keys {V : Type} (d : dict V) : list string := map fst d.
Definition values {V : Type} (d : dict V) : list V := map snd d.

(** [d[k] += 1] for a key that is present. *)
Definition incr (d : dict Z) (k : string) : dict Z :=
  map (fun kv => if String.eqb (fst kv) k then (fst kv, snd kv + 1) else kv) d.

(** ** Strings *)

Definition newline : ascii := "010"%char.

(** [s.count("\n")]. *)
Fixpoint count_newlines (s : string) : Z :=
  match s with
  | EmptyString => 0
  | String c s' => (if Ascii.eqb c newline then 1 else 0) + count_newlines s'
  end.

Definition is_space (c : ascii) : bool :=
  let n := nat_of_ascii c in
  orb (Nat.eqb n 32) (orb (andb (Nat.leb 9 n) (Nat.leb n 13))
                          (andb (Nat.leb 28 n) (Nat.leb n 31))).

Fixpoint lstrip (s : string) : string :=
  match s with
  | EmptyString => EmptyString
  | String c s' => if is_space c then lstrip s' else s
  end.

Fixpoint rstrip (s : string) : string :=
  match s with
  | EmptyString => EmptyString
  | String c s' =>
      match rstrip s' with
      | EmptyString => if is_space c then EmptyString else String c EmptyString
      | t => String c t
      end
  end.

(** [s.strip()] on ASCII text. *)
Definition strip (s : string) : string := rstrip (lstrip s).

Definition lower_char (c : ascii) : ascii :=
  let n := nat_of_ascii c in
  if andb (Nat.leb 65 n) (Nat.leb n 90) then ascii_of_nat (n + 32) else c.

(** [s.lower()] on ASCII text. *)
Fixpoint lower (s : string) : string :=
  match s with
  | EmptyString => EmptyString
  | String c s' => String (lower_char c) (lower s')
  end.

(** [str(n)] for an integer. *)
Definition str_of_int (n : Z) : string := NilEmpty.string_of_int (Z.to_int n).

(** ** Data frames *)

(** A row of the problem table.  The columns the program reads or adds are
    fields; every other column of the data set is kept in [extra]. *)
Record Row : Type := mkRow {
  instance_id : string;
  repo : string;
  patch : string;
  difficulty : string;
  patch_lines : Z;
  stratum : string;
  extra : list (string * string)
}.

(** A data frame: the column names, the index labels (integers here) and
    the rows, one label per row. *)
Record DataFrame : Type := mkDF {
  columns : list string;
  index : list Z;
  rows : list Row
}.

(** The labels of a [RangeIndex]: [0, 1, ..., n - 1]. *)
Definition range_index (n : nat) : list Z := map Z.of_nat (seq 0 n).

(** [df.iterrows()]: every row with its index label. *)
Definition iterrows (df : DataFrame) : list (Z * Row) :=
  combine (index df) (rows df).

(** [df.reset_index(drop=True)]. *)
Definition reset_index (df : DataFrame) : DataFrame :=
  mkDF (columns df) (range_index (List.length (rows df))) (rows df).

Definition has_column (df : DataFrame) (c : string) : bool :=
  existsb (String.eqb c) (columns df).

(** Assigning to a column appends it to [columns] when it is new. *)
Definition add_column (cs : list string) (c : string) : list string :=
  if existsb (String.eqb c) cs then cs else cs ++ [c].

Definition len (df : DataFrame) : Z := Z.of_nat (List.length (rows df)).

(** [series.unique()]: the distinct values in order of first appearance. *)
Fixpoint unique (l : list string) : list string :=
  match l with
  | [] => []
  | s :: l' => s :: filter (fun t => negb (String.eqb t s)) (unique l')
  end.

Definition count_eq (s : string) (l : list string) : Z :=
  Z.of_nat (List.length (filter (String.eqb s) l)).

(** [series.value_counts().items()]: the distinct values with their number
    of occurrences, most frequent first.  pandas documents the descending
    order only; values of equal frequency are taken here in order of first
    appearance. *)
Definition value_counts (l : list string) : dict Z :=
  sorted_reverse Z.ltb snd (map (fun s => (s, count_eq s l)) (unique l)).

(** [df[df["stratum"] == s]]: the rows of the stratum, each with the
    label it had. *)
Definition pool_of (df : DataFrame) (s : string) : DataFrame :=
  mkDF (columns df)
       (map fst (filter (fun ir => String.eqb (stratum (snd ir)) s) (iterrows df)))
       (filter (fun r => String.eqb (stratum r) s) (rows df)).

(** [pd.concat(frames)]; an empty list of frames is an error. *)
Definition pd_concat (frames : list DataFrame) : result DataFrame :=
  match frames with
  | [] => Raise ValueError
  | f :: _ => Ok (mkDF (columns f) (flat_map index frames) (flat_map rows frames))
  end.

(** The row at position [i], when there is one. *)
Definition pick {A : Type} (l : list A) (i : nat) : list A :=
  match nth_error l i with
  | Some r => [r]
  | None => []
  end.

(** [df.take(locs)]. *)
Definition take (df : DataFrame) (locs : list nat) : DataFrame :=
  mkDF (columns df) (flat_map (pick (index df)) locs) (flat_map (pick (rows df)) locs).

(** ** Paths ([pathlib] on POSIX) *)

(** [s.split("/")]. *)
Fixpoint split_slash (s : string) : list string :=
  match s with
  | EmptyString => [EmptyString]
  | String c s' =>
      if Ascii.eqb c "/" then EmptyString :: split_slash s'
      else match split_slash s' with
           | [] => [String c EmptyString]
           | p :: ps => String c p :: ps
           end
  end.

(** The root of a path: one slash, or two when the path starts with
    exactly two. *)
Definition path_root (s : string) : string :=
  match s with
  | String "/" (String "/" (String "/" _)) => "/"
  | String "/" (String "/" _) => "//"
  | String "/" _ => "/"
  | _ => ""
  end%string.

(** The parts of a path: empty segments and ["."] are dropped, [".."] is
    kept. *)
Definition path_parts (s : string) : list string :=
  filter (fun x => negb (orb (String.eqb x "") (String.eqb x "."))) (split_slash s).

(** [str(PurePosixPath(s))]. *)
Definition path_str (s : string) : string :=
  match path_root s, path_parts s with
  | EmptyString, [] => "."
  | root, parts => root ++ String.concat "/" parts
  end%string.

Fixpoint ends_with_slash (s : string) : bool :=
  match s with
  | EmptyString => false
  | String c EmptyString => Ascii.eqb c "/"
  | String _ s' => ends_with_slash s'
  end.

(** [posixpath.join(a, b)]: an absolute [b] replaces [a]. *)
Definition posix_join (a b : string) : string :=
  match b with
  | String "/" _ => b
  | _ => if orb (String.eqb a "") (ends_with_slash a) then a ++ b else a ++ "/" ++ b
  end%string.

(** [str(Path(a) / b)]. *)
Definition joinpath (a b : string) : string := path_str (posix_join a b).

(** ** The process state: the generator of the [random] module, the
    console, the files written and the operating system *)

Inductive RandomGen : Type :=
| OsEntropy (bits : Z)
| SeededBy (seed : Z).

(** What the operating system answers: the file a path names (two paths
    name the same file when they resolve to the same one), whether
    [open(path, "w")] succeeds, and whether the console takes a text; a
    refusal is the exception that Python raises. *)
Record OS : Type := mkOS {
  os_realpath : string -> string;
  os_open : string -> result unit;
  os_print : string -> result unit
}.

(** [files] maps a file, named by its resolved path, to its content. *)
Record World : Type := mkWorld {
  py_random : RandomGen;
  stdout : list string;
  files : list (string * string);
  os : OS
}.

Definition IO (A : Type) : Type := World -> result A * World.

Definition ret {A : Type} (a : A) : IO A := fun w => (Ok a, w).

Definition lift {A : Type} (r : result A) : IO A := fun w => (r, w).

Definition bindIO {A B : Type} (c : IO A) (k : A -> IO B) : IO B :=
  fun w => match c w with
           | (Ok a, w') => k a w'
           | (Raise e, w') => (Raise e, w')
           end.

Notation "x <~ c ;; k" := (bindIO c (fun x => k))
  (at level 61, c at next level, right associativity).
Notation "c ;;; k" := (bindIO c (fun _ => k))
  (at level 61, right associativity).

(** [for x in l: body(x)]. *)
Fixpoint for_each {A : Type} (l : list A) (body : A -> IO unit) : IO unit :=
  match l with
  | [] => ret tt
  | a :: l' => body a ;;; for_each l' body
  end.

(** [print(s)]: the text reaches the console, or the console refuses it
    and nothing is printed. *)
Definition print (s : string) : IO unit :=
  fun w => match os_print (os w) s with
           | Ok _ => (Ok tt, mkWorld (py_random w) (stdout w ++ [s]) (files w) (os w))
           | Raise e => (Raise e, w)
           end.

(** [random.seed(seed)]. *)
Definition random_seed (seed : Z) : IO unit :=
  fun w => (Ok tt, mkWorld (SeededBy seed) (stdout w) (files w) (os w)).

(** [open(path, "w")]: the file the path names is created or emptied,
    unless the operating system refuses. *)
Definition open_w (path : string) : IO unit :=
  fun w => match os_open (os w) path with
           | Ok _ =>
               let file := os_realpath (os w) path in
               (Ok tt, mkWorld (py_random w) (stdout w)
                         ((file, EmptyString) ::
                          filter (fun f => negb (String.eqb (fst f) file)) (files w))
                         (os w))
           | Raise e => (Raise e, w)
           end.

(** [f.write(s)] on the file opened at [path]: the text is added at the
    end.  What is written stays in the file when the block that opened it
    is left, by an exception or not.  A write that the operating system
    cuts short, as on a full disk, is not modelled. *)
Definition f_write (path s : string) : IO unit :=
  fun w => let file := os_realpath (os w) path in
           (Ok tt, mkWorld (py_random w) (stdout w)
                     (map (fun f => if String.eqb (fst f) file
                                    then (fst f, (snd f ++ s)%string) else f) (files w))
                     (os w)).

(** ** The program *)

Definition difficulty_of_lines (n : Z) : string :=
  if n <? 50 then "easy"%string
  else if n <? 150 then "medium"%string else "hard"%string.

(** Without a [difficulty] column the labels are derived from the
    [patch] column; [df["patch"]] raises [KeyError] when that column is
    missing too, after the notice has been printed. *)
Definition normalize_difficulty (df : DataFrame) : IO DataFrame :=
  if negb (has_column df "difficulty") then
    print "  No 'difficulty' field found — deriving from patch size." ;;;
    if negb (has_column df "patch") then lift (Raise KeyError)
    else
      let rows1 := map (fun r => mkRow (instance_id r) (repo r) (patch r) (difficulty r)
                                       (count_newlines (patch r)) (stratum r) (extra r))
                       (rows df) in
      let rows2 := map (fun r => mkRow (instance_id r) (repo r) (patch r)
                                       (difficulty_of_lines (patch_lines r))
                                       (patch_lines r) (stratum r) (extra r))
                       rows1 in
      ret (mkDF (add_column (add_column (columns df) "patch_lines") "difficulty")
                (index df) rows2)
  else
    ret (mkDF (columns df) (index df)
              (map (fun r => mkRow (instance_id r) (repo r) (patch r)
                                   (lower (strip (difficulty r)))
                                   (patch_lines r) (stratum r) (extra r))
                   (rows df))).

(** The stratum key of a (repo, difficulty) pair. *)
Definition stratum_key (repo difficulty : string) : string :=
  (repo ++ " | " ++ difficulty)%string.

Definition compute_strata (df : DataFrame) : DataFrame :=
  mkDF (add_column (columns df) "stratum") (index df)
       (map (fun r => mkRow (instance_id r) (repo r) (patch r) (difficulty r)
                            (patch_lines r) (stratum_key (repo r) (difficulty r))
                            (extra r))
            (rows df)).

(** [(count / total) * n]. *)
Definition exact_share (count total n : Z) : Float64.float :=
  Float64.mul (Float64.div (Float64.of_int count) (Float64.of_int total))
              (Float64.of_int n).

Definition exact_allocs (strata_counts : dict Z) (total n : Z) : dict Float64.float :=
  map (fun sc => (fst sc, exact_share (snd sc) total n)) strata_counts.

Definition floor_allocs (exact : dict Float64.float) : result (dict Z) :=
  mapM (fun sv => k <- Float64.trunc (snd sv) ;; Ok (fst sv, k)) exact.

(** The sort key [x[1] - int(x[1])].  The sort is reached only after
    [floor_allocs] has converted every share, so [int] cannot raise here. *)
Definition remainder_key (x : string * Float64.float) : Float64.float :=
  match Float64.trunc (snd x) with
  | Ok k => Float64.sub (snd x) (Float64.of_int k)
  | Raise _ => snd x
  end.

Definition remainders (exact : dict Float64.float) : dict Float64.float :=
  sorted_reverse Float64.ltb remainder_key exact.

(** The allocation: the floors, and one more for each of the first
    [remainder] strata of the ranking. *)
Definition allocation (strata_counts : dict Z) (total n : Z) : result (dict Z) :=
  let exact := exact_allocs strata_counts total n in
  floors <- floor_allocs exact ;;
  let allocated := sum (values floors) in
  let remainder := n - allocated in
  Ok (fold_left (fun d x => incr d (fst x))
                (slice_to (remainders exact) remainder) floors).

Section Sampler.

(** [rs_choice seed size k] is [RandomState(seed).choice(size, k,
    replace=False)]: the positions pandas draws for [sample]. *)
Variable rs_choice : Z -> nat -> nat -> list nat.

(** [df.sample(n=k, random_state=seed)].  pandas builds
    [RandomState(seed)] first, which accepts the seeds from 0 to 2^32 - 1
    only; a negative [k] and a [k] above the number of rows are refused as
    well.  Each refusal is a [ValueError]. *)
Definition sample_n (df : DataFrame) (k seed : Z) : result DataFrame :=
  if orb (seed <? 0) (2 ^ 32 <=? seed) then Raise ValueError
  else if k <? 0 then Raise ValueError
  else if len df <? k then Raise ValueError
  else Ok (take df (rs_choice seed (List.length (rows df)) (Z.to_nat k))).

(** [df.sample(frac=1, random_state=seed)]. *)
Definition sample_all (df : DataFrame) (seed : Z) : result DataFrame :=
  sample_n df (len df) seed.

(** The loop over [floor_allocs.items()]. *)
Fixpoint sampled_rows (df : DataFrame) (seed : Z) (allocs : dict Z)
  : result (list DataFrame) :=
  match allocs with
  | [] => Ok []
  | (stratum, k) :: rest =>
      if k =? 0 then sampled_rows df seed rest
      else
        let pool := pool_of df stratum in
        let k := Z.min k (len pool) in
        s <- sample_n pool k seed ;;
        more <- sampled_rows df seed rest ;;
        Ok (s :: more)
  end.

Definition stratified_sample (df : DataFrame) (n seed : Z) : IO DataFrame :=
  random_seed seed ;;;
  let strata_counts := value_counts (map stratum (rows df)) in
  let total := len df in
  lift (allocs <- allocation strata_counts total n ;;
        frames <- sampled_rows df seed allocs ;;
        merged <- pd_concat frames ;;
        result <- sample_all merged seed ;;
        Ok (reset_index result)).

End Sampler.

(** ** The report *)

Fixpoint repeat_string (s : string) (n : nat) : string :=
  match n with
  | O => EmptyString
  | S n' => (s ++ repeat_string s n')%string
  end.

(** [f"{s:<w}"] and [f"{s:>w}"]. *)
Definition ljust (w : nat) (s : string) : string :=
  (s ++ repeat_string " " (w - String.length s))%string.
Definition rjust (w : nat) (s : string) : string :=
  (repeat_string " " (w - String.length s) ++ s)%string.

(** [a / b] on integers. *)
Definition truediv (a b : Z) : result Float64.float :=
  if b =? 0 then Raise ZeroDivisionError
  else Ok (Float64.div (Float64.of_int a) (Float64.of_int b)).

Definition join_lines (lines : list string) : string :=
  String.concat (String newline EmptyString) lines.

Definition count_where (f : Row -> bool) (df : DataFrame) : Z :=
  Z.of_nat (List.length (filter f (rows df))).

Definition FIELDS_TO_KEEP : list string :=
  ["instance_id"; "repo"; "base_commit"; "problem_statement"; "patch";
   "test_patch"; "FAIL_TO_PASS"; "PASS_TO_PASS"; "hints_text"; "difficulty";
   "environment_setup_commit"; "version"; "created_at"]%string.

(** [row[col]] for the columns that hold text. *)
Definition row_get (r : Row) (col : string) : option string :=
  if String.eqb col "instance_id" then Some (instance_id r)
  else if String.eqb col "repo" then Some (repo r)
  else if String.eqb col "patch" then Some (patch r)
  else if String.eqb col "difficulty" then Some (difficulty r)
  else if String.eqb col "stratum" then Some (stratum r)
  else option_map snd (find (fun kv => String.eqb (fst kv) col) (extra r)).

Record Args : Type := mkArgs {
  arg_n : Z;
  arg_seed : Z;
  arg_out : string;
  arg_dry_run : bool
}.

Section Program.

Variable rs_choice : Z -> nat -> nat -> list nat.
(** [f"{v:.1f}"]. *)
Variable format_f1 : Float64.float -> string.
(** [json.dumps(record)]; it raises [TypeError] for a value it cannot
    serialise. *)
Variable json_dumps : list (string * string) -> result string.
(** [Path(__file__).parent], as a string. *)
Variable out_dir : string.

(** One table of the report: a line per value of a column, with the
    count and the percentage in the full data set and in the sample.
    [guarded] is the [if len(sample_df) > 0 else 0] of the second table. *)
Definition distribution_lines (field : Row -> string) (width : nat) (guarded : bool)
           (full_df sample_df : DataFrame) : result (list string) :=
  mapM (fun v =>
          let full_count := count_where (fun r => String.eqb (field r) v) full_df in
          let sample_count := count_where (fun r => String.eqb (field r) v) sample_df in
          full_pct <- truediv (100 * full_count) (len full_df) ;;
          sample_pct <- (if andb guarded (negb (0 <? len sample_df))
                         then Ok (Float64.of_int 0)
                         else truediv (100 * sample_count) (len sample_df)) ;;
          Ok (ljust width v ++ " " ++ rjust 6 (str_of_int full_count) ++ " "
              ++ rjust 8 (str_of_int sample_count) ++ " "
              ++ rjust 6 (format_f1 full_pct) ++ "% "
              ++ rjust 8 (format_f1 sample_pct) ++ "%")%string)
       (sorted String.ltb (fun v => v) (unique (map field (rows full_df)))).

(** The listing: a line for every row of [sample_df.iterrows()], numbered
    with the index label of the row plus one. *)
Definition problem_lines (sample_df : DataFrame) : list string :=
  map (fun ir =>
         let i := fst ir in
         let row := snd ir in
         (ljust 4 (str_of_int (i + 1)) ++ " " ++ ljust 45 (instance_id row) ++ " "
          ++ ljust 12 (difficulty row) ++ " " ++ repo row)%string)
      (iterrows sample_df).

Definition report_lines (full_df sample_df : DataFrame) (n : Z)
  : result (list string) :=
  let head :=
    ["SWE-bench Verified — Stratified Sample Report";
     repeat_string "=" 60;
     "Full dataset:  " ++ str_of_int (len full_df) ++ " problems";
     "Sample size:   " ++ str_of_int n ++ " problems";
     "";
     "REPO DISTRIBUTION";
     ljust 40 "Repo" ++ " " ++ rjust 6 "Full" ++ " " ++ rjust 8 "Sample" ++ " "
       ++ rjust 7 "Full%" ++ " " ++ rjust 9 "Sample%";
     repeat_string "-" 74]%string in
  repos <- distribution_lines repo 40 false full_df sample_df ;;
  let mid :=
    ["";
     "DIFFICULTY DISTRIBUTION";
     ljust 20 "Difficulty" ++ " " ++ rjust 6 "Full" ++ " " ++ rjust 8 "Sample" ++ " "
       ++ rjust 7 "Full%" ++ " " ++ rjust 9 "Sample%";
     repeat_string "-" 54]%string in
  diffs <- distribution_lines difficulty 20 true full_df sample_df ;;
  let covered := Z.of_nat (List.length (unique (map stratum (rows sample_df)))) in
  let total_strata := Z.of_nat (List.length (unique (map stratum (rows full_df)))) in
  let tail :=
    ["";
     "Strata covered: " ++ str_of_int covered ++ "/" ++ str_of_int total_strata;
     "";
     "SAMPLED PROBLEMS";
     ljust 4 "#" ++ " " ++ ljust 45 "instance_id" ++ " " ++ ljust 12 "difficulty"
       ++ " " ++ "repo";
     repeat_string "-" 90]%string in
  Ok (head ++ repos ++ mid ++ diffs ++ tail ++ problem_lines sample_df).

Definition build_stats_report (full_df sample_df : DataFrame) (n : Z) : result string :=
  lines <- report_lines full_df sample_df n ;;
  Ok (join_lines lines).

(** [main], from the point where [load_dataset] has returned the table
    [loaded]. *)
Definition main (loaded : DataFrame) (args : Args) : IO unit :=
  let out_path := joinpath out_dir (arg_out args) in
  let stats_path := joinpath out_dir "sample_stats.txt" in
  df <~ normalize_difficulty loaded ;;
  let df := compute_strata df in
  print ("Sampling " ++ str_of_int (arg_n args) ++ " problems with seed="
         ++ str_of_int (arg_seed args) ++ "...") ;;;
  sample <~ stratified_sample rs_choice df (arg_n args) (arg_seed args) ;;
  report <~ lift (build_stats_report df sample (arg_n args)) ;;
  print (String newline report) ;;;
  if arg_dry_run args then
    print (String newline "[dry-run] Not saving files.")
  else
    let keep := filter (fun f => has_column sample f) FIELDS_TO_KEEP in
    let record (row : Row) :=
      flat_map (fun col => match row_get row col with
                           | Some v => [(col, v)]
                           | None => []
                           end) keep in
    open_w out_path ;;;
    for_each (iterrows sample)
      (fun ir => line <~ lift (json_dumps (record (snd ir))) ;;
                 f_write out_path (line ++ String newline EmptyString)) ;;;
    open_w stats_path ;;;
    f_write stats_path report ;;;
    print (String newline ("Saved " ++ str_of_int (arg_n args) ++ " problems → "
                           ++ out_path)) ;;;
    print ("Saved distribution report → " ++ stats_path) ;;;
    print (String newline ("Next step: python agent.py --problems " ++ out_path)).

End Program.

(** ** Real values of binary64 numbers *)

(** [bpow e] is [2^e]; [F2R m e] is the real [m * 2^e]; [B2R f] is the real
    a float stands for (zero for infinities and NaN). *)
Definition bpow (e : Z) : R := powerRZ 2 e.

Definition F2R (m e : Z) : R := (IZR m * bpow e)%R.

Definition B2R (f : spec_float) : R :=
  match f with
  | S754_finite s m e => F2R (cond_Zopp s (Zpos m)) e
  | _ => 0%R
  end.

(** [inbs m l y]: the real [y], measured in units of the last place, lies
    in [[m, m + 1)] at the place the location [l] says: on [m], below, on or
    above the midpoint. *)
Definition inbs (m : Z) (l : location) (y : R) : Prop :=
  match l with
  | loc_Exact => y = IZR m
  | loc_Inexact Lt => (IZR m < y < IZR m + /2)%R
  | loc_Inexact Eq => y = (IZR m + /2)%R
  | loc_Inexact Gt => (IZR m + /2 < y < IZR m + 1)%R
  end.

(** The float with mantissa [m] in [[2^52, 2^53]]: a carry out of the
    rounding moves to the next exponent. *)
Definition normalize_mantissa (s : bool) (m e : Z) : spec_float :=
  if m <? 2 ^ 53 then S754_finite s (Z.to_pos m) e
  else S754_finite s (Z.to_pos (2 ^ 52)) (e + 1).

(** [nf f m e]: [f] is the positive normal number with the 53-bit mantissa
    [m] and the exponent [e].  [canon g]: [g] is plus zero or such a
    number. *)
Definition nf (f : spec_float) (m e : Z) : Prop :=
  f = S754_finite false (Z.to_pos m) e /\ 2 ^ 52 <= m < 2 ^ 53.

Definition canon (g : spec_float) : Prop :=
  g = S754_zero false \/ exists m e, nf g m e.

(** ** Order of appearance in a list *)

(** [before a b l]: an occurrence of [a] in [l] is followed by one of [b]. *)
Definition before {A : Type} (a b : A) (l : list A) : Prop :=
  exists l1 l2, l = l1 ++ a :: l2 /\ In b l2.

(** ** Quantities of the allocation *)

(** The number of occurrences of a key in a list of keys. *)
Definition occ (ks : list string) (k : string) : Z :=
  Z.of_nat (count_occ string_dec ks k).

(** [int(v)] where it is defined. *)
Definition ifloor (v : Float64.float) : Z :=
  match Float64.trunc v with
  | Ok k => k
  | Raise _ => 0
  end.

(** The floor the program computes for a stratum of [c] items, and what
    the stratum still lacks of its exact share [c * n / T], in units of
    [1 / T]. *)
Definition share_floor (c T n : Z) : Z := ifloor (exact_share c T n).
Definition weight (c T n : Z) : Z := c * n - T * share_floor c T n.

(** The real value of the sort key of a stratum of [c] items. *)
Definition share_frac (c T n : Z) : R :=
  B2R (remainder_key (EmptyString, exact_share c T n)).

(** The strata in the order in which they receive the leftover slots. *)
Definition ranking (strata_counts : dict Z) (T n : Z) : dict Z :=
  sorted_reverse Float64.ltb
    (fun kv => remainder_key (fst kv, exact_share (snd kv) T n)) strata_counts.

(** The sum of the floors, and the number of slots left to hand out
    (the variable [remainder] of the program). *)
Definition floors_sum (strata_counts : dict Z) (T n : Z) : Z :=
  sum (map (fun kv => share_floor (snd kv) T n) strata_counts).
Definition deficit (strata_counts : dict Z) (T n : Z) : Z :=
  n - floors_sum strata_counts T n.

(** The strata that receive a leftover slot. *)
Definition top (strata_counts : dict Z) (T n : Z) : list string :=
  map fst (slice_to (ranking strata_counts T n) (deficit strata_counts T n)).

(** A table of strata sizes as [value_counts] produces them for a data
    set of [T] rows: distinct keys, positive sizes that add up to [T]. *)
Definition counts_of (strata_counts : dict Z) (T : Z) : Prop :=
  NoDup (keys strata_counts) /\
  Forall (fun kv => 0 < snd kv) strata_counts /\
  sum (values strata_counts) = T.

(** ** The contract of the random choice

    [RandomState(seed).choice(size, k, replace=False)] returns [k] distinct
    positions below [size]. *)
Definition choice_spec (rs_choice : Z -> nat -> nat -> list nat) : Prop :=
  forall seed size k, (k <= size)%nat ->
    List.length (rs_choice seed size k) = k /\
    NoDup (rs_choice seed size k) /\
    Forall (fun i => (i < size)%nat) (rs_choice seed size k).

(** The number of rows drawn from the strata of an allocation, each draw
    capped at the size of its stratum. *)
Definition capped_total (df : DataFrame) (allocs : dict Z) : Z :=
  sum (map (fun kv => Z.min (snd kv) (len (pool_of df (fst kv)))) allocs).


(** ** Small data sets used to exercise the definitions *)

(** A row whose stratum column is already filled in. *)
Definition row_of (id repo difficulty : string) : Row :=
  mkRow id repo "" difficulty 0 (stratum_key repo difficulty) [].

Definition plain_columns : list string :=
  ["instance_id"; "repo"; "patch"; "difficulty"; "stratum"]%string.

(** Ten problems: six in [A | easy], four in [B | hard]. *)
Definition df_ten : DataFrame :=
  mkDF plain_columns (range_index 10)
    [row_of "a1" "A" "easy"; row_of "a2" "A" "easy"; row_of "a3" "A" "easy";
     row_of "b1" "B" "hard"; row_of "b2" "B" "hard"; row_of "a4" "A" "easy";
     row_of "a5" "A" "easy"; row_of "b3" "B" "hard"; row_of "a6" "A" "easy";
     row_of "b4" "B" "hard"]%string.

(** Four problems: three in [z | easy], one in [a | easy]. *)
Definition df_tie : DataFrame :=
  mkDF plain_columns (range_index 4)
    [row_of "1" "z" "easy"; row_of "2" "z" "easy"; row_of "3" "a" "easy";
     row_of "4" "z" "easy"]%string.

(** Two problems, one per stratum. *)
Definition df_two : DataFrame :=
  mkDF plain_columns (range_index 2) [row_of "p" "a" "easy"; row_of "q" "b" "easy"]%string.

(** Two problems whose labels contain the separator. *)
Definition df_bar : DataFrame :=
  mkDF ["instance_id"; "repo"; "patch"; "difficulty"]%string (range_index 2)
    [mkRow "x" "a | b" "" "c" 0 "" []; mkRow "y" "a" "" "b | c" 0 "" []]%string.

(** Three problems without a difficulty column; the patches have 2, 50
    and 150 lines. *)
Definition patch_of (n : nat) : string := repeat_string (String newline EmptyString) n.
Definition df_raw : DataFrame :=
  mkDF ["instance_id"; "repo"; "patch"]%string (range_index 3)
    [mkRow "s" "A" (patch_of 2) "" 0 "" []; mkRow "m" "A" (patch_of 50) "" 0 "" [];
     mkRow "l" "B" (patch_of 150) "" 0 "" []]%string.

(** What [normalize_difficulty] makes of [df_raw]. *)
Definition df_derived : DataFrame :=
  mkDF ["instance_id"; "repo"; "patch"; "patch_lines"; "difficulty"]%string (range_index 3)
    [mkRow "s" "A" (patch_of 2) "easy" 2 "" []; mkRow "m" "A" (patch_of 50) "medium" 50 "" [];
     mkRow "l" "B" (patch_of 150) "hard" 150 "" []]%string.

(** A random choice that always draws the first positions, and plain
    renderings for the report and the output file. *)
Definition choice_first (seed : Z) (size k : nat) : list nat := seq 0 k.
Definition format_plain (v : Float64.float) : string := "?"%string.
Definition dumps_plain (record : list (string * string)) : result string :=
  Ok (String.concat "," (map snd record)).

(** An operating system that refuses nothing and in which every path names
    a file of its own, and a process that starts on it with an empty
    console and no files. *)
Definition os_plain : OS := mkOS (fun p => p) (fun _ => Ok tt) (fun _ => Ok tt).
Definition world0 : World := mkWorld (OsEntropy 0) [] [] os_plain.

(** The notice [normalize_difficulty] prints before it derives the
    labels. *)
Definition derive_notice : string :=
  "  No 'difficulty' field found — deriving from patch size.".

(** Does the character ['|'] occur in a label? *)
Fixpoint has_bar (s : string) : bool :=
  match s with
  | EmptyString => false
  | String c s' => orb (Ascii.eqb c "|") (has_bar s')
  end.

(** The number of line breaks of a text, counted on its list of
    characters: the number of positions that hold the newline character
    (code 10). *)
Definition line_breaks (s : string) : Z :=
  Z.of_nat (List.length (filter (fun c => Nat.eqb (nat_of_ascii c) 10)
                                (list_ascii_of_string s))).

(** The difficulty derived for a row agrees with the thresholds on the
    number of line breaks of its patch. *)
Definition labelled (r r' : Row) : Prop :=
  patch r' = patch r /\ instance_id r' = instance_id r /\ repo r' = repo r /\
  let n := line_breaks (patch r) in
  (n < 50 -> difficulty r' = "easy"%string) /\
  (50 <= n < 150 -> difficulty r' = "medium"%string) /\
  (150 <= n -> difficulty r' = "hard"%string).

(** A table with a tie between two strata that both receive a slot. *)
Definition tie_table : dict Z := [("x", 2); ("a", 1); ("b", 1)]%string.

(** The sample of five drawn from [df_ten] with seed 7. *)
Definition sample_ten : DataFrame :=
  mkDF plain_columns (range_index 5)
    [row_of "a1" "A" "easy"; row_of "a2" "A" "easy"; row_of "a3" "A" "easy";
     row_of "b1" "B" "hard"; row_of "b2" "B" "hard"]%string.


(** ** Further notions used to describe the program *)

(** A difficulty label as [normalize_difficulty] leaves it: no white space
    at either end and no upper-case ASCII letter. *)
Definition normal_label (d : string) : Prop := strip d = d /\ lower d = d.

(** Three problems whose difficulty labels need normalising, and what
    [normalize_difficulty] makes of them. *)
Definition df_messy : DataFrame :=
  mkDF ["instance_id"; "repo"; "patch"; "difficulty"]%string (range_index 3)
    [mkRow "u" "A" "" "  Easy " 0 "" []; mkRow "v" "A" "" "HARD" 0 "" [];
     mkRow "t" "B" "" "medium" 0 "" []]%string.
Definition df_neat : DataFrame :=
  mkDF ["instance_id"; "repo"; "patch"; "difficulty"]%string (range_index 3)
    [mkRow "u" "A" "" "easy" 0 "" []; mkRow "v" "A" "" "hard" 0 "" [];
     mkRow "t" "B" "" "medium" 0 "" []]%string.

(** The number of rows of a table that lie in the stratum [st]. *)
Definition stratum_count (st : string) (l : list Row) : Z :=
  Z.of_nat (List.length (filter (fun r => String.eqb (stratum r) st) l)).

(** A table without rows. *)
Definition df_empty : DataFrame := mkDF plain_columns [] [].

(** The content of a file, if there is one, and of the file that [path]
    names. *)
Definition lookup_file (fs : list (string * string)) (file : string) : option string :=
  option_map snd (find (fun f => String.eqb (fst f) file) fs).

Definition read_file (w : World) (path : string) : option string :=
  lookup_file (files w) (os_realpath (os w) path).

(** The two paths [main] writes to. *)
Definition out_path (out_dir : string) (args : Args) : string :=
  joinpath out_dir (arg_out args).
Definition stats_path (out_dir : string) : string :=
  joinpath out_dir "sample_stats.txt".

(** The columns [main] keeps and the record it builds for a row, as they
    are written inside [main]. *)
Definition keep_of (sample : DataFrame) : list string :=
  filter (fun f => has_column sample f) FIELDS_TO_KEEP.

Definition record_of (keep : list string) (row : Row) : list (string * string) :=
  flat_map (fun col => match row_get row col with
                       | Some v => [(col, v)]
                       | None => []
                       end) keep.

(** The text of a file of lines. *)
Definition file_of_lines (lines : list string) : string :=
  String.concat EmptyString
    (map (fun l => (l ++ String newline EmptyString)%string) lines).

(** The part of [main] that saves the sample and the report and announces
    it, as it is written inside [main]. *)
Definition save (json_dumps : list (string * string) -> result string)
           (out_dir : string) (args : Args) (sample : DataFrame) (report : string)
  : IO unit :=
  open_w (out_path out_dir args) ;;;
  for_each (iterrows sample)
    (fun ir => line <~ lift (json_dumps (record_of (keep_of sample) (snd ir))) ;;
               f_write (out_path out_dir args) (line ++ String newline EmptyString)) ;;;
  open_w (stats_path out_dir) ;;;
  f_write (stats_path out_dir) report ;;;
  print (String newline ("Saved " ++ str_of_int (arg_n args) ++ " problems → "
                         ++ out_path out_dir args)) ;;;
  print ("Saved distribution report → " ++ stats_path out_dir) ;;;
  print (String newline ("Next step: python agent.py --problems "
                         ++ out_path out_dir args)).

(** The line of the listing for a row with the index label [i]. *)
Definition problem_line (i : Z) (row : Row) : string :=
  (ljust 4 (str_of_int (i + 1)) ++ " " ++ ljust 45 (instance_id row) ++ " "
   ++ ljust 12 (difficulty row) ++ " " ++ repo row)%string.

(** The numbers of the coverage line. *)
Definition strata_in (df : DataFrame) : Z :=
  Z.of_nat (List.length (unique (map stratum (rows df)))).

(** A sample whose index labels are not its positions, as a frame is
    before [reset_index]. *)
Definition df_relabelled : DataFrame :=
  mkDF plain_columns [1; 0; 3]
    [row_of "a2" "A" "easy"; row_of "a1" "A" "easy"; row_of "b1" "B" "hard"]%string.

(** A serialiser that cannot serialise the record of the problem [bad]. *)
Definition dumps_fragile (bad : string) (record : list (string * string))
  : result string :=
  if existsb (fun kv => andb (String.eqb (fst kv) "instance_id") (String.eqb (snd kv) bad))
             record
  then Raise TypeError else dumps_plain record.

(** A table with neither a [difficulty] nor a [patch] column. *)
Definition df_bare : DataFrame :=
  mkDF ["instance_id"; "repo"]%string (range_index 1) [mkRow "x" "A" "" "" 0 "" []]%string.

(** * Binary64 arithmetic: rounding and its error

    The operations of [SpecFloat] are followed through their definitions:
    the right shift that keeps a round and a sticky bit, rounding to nearest
    even, and from there conversion of integers, multiplication, division,
    truncation, the exact subtraction of the integer part and comparison.
    Every result is a normal number here, so each rounding has a relative
    error of at most [2^-53]. *)

Lemma bpow_pos e : (0 < bpow e)%R.
Proof. apply powerRZ_lt; lra. Qed.

Lemma bpow_add a b : bpow (a + b) = (bpow a * bpow b)%R.
Proof. apply powerRZ_add; lra. Qed.

Lemma bpow_0 : bpow 0 = 1%R.
Proof. reflexivity. Qed.

Lemma bpow_1 : bpow 1 = 2%R.
Proof. unfold bpow; simpl; lra. Qed.

Lemma bpow_opp e : bpow (- e) = (/ bpow e)%R.
Proof. apply powerRZ_neg'. Qed.

Lemma bpow_succ e : bpow (e + 1) = (2 * bpow e)%R.
Proof. rewrite bpow_add, bpow_1; lra. Qed.

Lemma bpow_IZR e : 0 <= e -> bpow e = IZR (2 ^ e).
Proof.
  intros He. unfold bpow. rewrite <- (Z2Nat.id e He) at 1.
  rewrite <- pow_powerRZ, pow_IZR, Z2Nat.id by assumption. reflexivity.
Qed.

Lemma bpow_le a b : a <= b -> (bpow a <= bpow b)%R.
Proof.
  intros H. replace b with (a + (b - a)) by lia. rewrite bpow_add.
  rewrite (bpow_IZR (b - a)) by lia.
  assert (1 <= 2 ^ (b - a)) by (apply Z.lt_pred_le, Z.pow_pos_nonneg; lia).
  apply IZR_le in H0. pose proof (bpow_pos a). nra.
Qed.

Lemma digits2_size p : digits2_pos p = Pos.size p.
Proof. induction p; simpl; congruence. Qed.

Lemma Zdigits2_bounds m : 0 < m -> 2 ^ (Zdigits2 m - 1) <= m < 2 ^ Zdigits2 m.
Proof.
  destruct m as [|p|p]; try lia. intros _.
  change (Zdigits2 (Z.pos p)) with (Z.pos (digits2_pos p)). rewrite digits2_size.
  pose proof (Pos.size_gt p) as Hgt. pose proof (Pos.size_le p) as Hle.
  assert (Hp : Z.pos (2 ^ Pos.size p) = 2 ^ Z.pos (Pos.size p)) by apply Pos2Z.inj_pow.
  split.
  - replace (Z.pos (Pos.size p)) with (Z.pos (Pos.size p) - 1 + 1) in Hp by lia.
    rewrite Z.pow_add_r in Hp by lia. change (2 ^ 1) with 2 in Hp.
    assert (Z.pos (2 ^ Pos.size p) <= Z.pos p~0) by (apply Pos2Z.pos_le_pos; exact Hle).
    lia.
  - rewrite <- Hp. apply Pos2Z.pos_lt_pos. exact Hgt.
Qed.

Lemma Zdigits2_unique m d : 0 < m -> 2 ^ (d - 1) <= m < 2 ^ d -> Zdigits2 m = d.
Proof.
  intros Hm [Hlo Hhi]. pose proof (Zdigits2_bounds m Hm) as [Blo Bhi].
  assert (0 < Zdigits2 m) by (clear Blo Bhi Hlo Hhi; destruct m; try lia; apply Pos2Z.is_pos).
  assert (0 < d).
  { destruct (Z.lt_ge_cases 0 d); auto.
    destruct (Z.eq_dec d 0); [subst; simpl in Hhi; lia|].
    rewrite Z.pow_neg_r in Hhi by lia. lia. }
  destruct (Z.lt_trichotomy (Zdigits2 m) d) as [L|[E|G]]; auto.
  - assert (2 ^ Zdigits2 m <= 2 ^ (d - 1)) by (apply Z.pow_le_mono_r; lia). lia.
  - assert (2 ^ d <= 2 ^ (Zdigits2 m - 1)) by (apply Z.pow_le_mono_r; lia). lia.
Qed.

Lemma Zdigits2_pos_eq p : Z.pos (digits2_pos p) = Zdigits2 (Z.pos p).
Proof. reflexivity. Qed.

Lemma shr_1_nonneg m r s :
  0 <= m -> shr_1 (Build_shr_record m r s) = Build_shr_record (Z.div2 m) (Z.odd m) (r || s).
Proof. destruct m as [|[p|p|]|p]; intros; try lia; reflexivity. Qed.

Lemma iter_pos_ind {A : Type} (f : A -> A) (P : Z -> A -> Prop) :
  (forall k x, 0 <= k -> P k x -> P (k + 1) (f x)) ->
  forall p k x, 0 <= k -> P k x -> P (k + Z.pos p) (iter_pos f p x).
Proof.
  intros Hstep. induction p as [p IH|p IH|]; intros k x Hk HP; simpl.
  - replace (k + Z.pos p~1) with (k + 1 + Z.pos p + Z.pos p) by lia.
    apply IH; [lia|]. apply IH; [lia|]. apply Hstep; auto.
  - replace (k + Z.pos p~0) with (k + Z.pos p + Z.pos p) by lia.
    apply IH; [lia|]. apply IH; auto.
  - apply Hstep; auto.
Qed.

(** One right shift halves the mantissa and keeps the location. *)
Lemma inbs_shr_1 mrs y :
  0 <= shr_m mrs -> inbs (shr_m mrs) (loc_of_shr_record mrs) y ->
  0 <= shr_m (shr_1 mrs) /\ shr_m (shr_1 mrs) = shr_m mrs / 2 /\
  inbs (shr_m (shr_1 mrs)) (loc_of_shr_record (shr_1 mrs)) (y / 2).
Proof.
  destruct mrs as [m r s]. cbn [shr_m]. intros Hm H.
  rewrite shr_1_nonneg by assumption. cbn [shr_m].
  rewrite Z.div2_div. split; [apply Z.div_pos; lia|]. split; [reflexivity|].
  pose proof (Z.div2_odd m) as E. rewrite Z.div2_div in E.
  assert (ER : IZR m = (2 * IZR (m / 2) + IZR (Z.b2z (Z.odd m)))%R).
  { rewrite E at 1. rewrite plus_IZR, mult_IZR. reflexivity. }
  destruct r, s, (Z.odd m); cbn in *; lra.
Qed.

Lemma inbs_shr m l y p :
  0 <= m -> inbs m l y ->
  let mrs := iter_pos shr_1 p (shr_record_of_loc m l) in
  shr_m mrs = m / 2 ^ Z.pos p /\
  inbs (shr_m mrs) (loc_of_shr_record mrs) (y * bpow (- Z.pos p)).
Proof.
  intros Hm H.
  pose (P := fun k mrs => 0 <= shr_m mrs /\ shr_m mrs = m / 2 ^ k /\
                          inbs (shr_m mrs) (loc_of_shr_record mrs) (y * bpow (- k))).
  assert (HP : P (0 + Z.pos p) (iter_pos shr_1 p (shr_record_of_loc m l))).
  { apply iter_pos_ind; [| lia |].
    - intros k x Hk (H0 & H1 & H2). destruct (inbs_shr_1 x _ H0 H2) as (G0 & G1 & G2).
      repeat split; auto.
      + rewrite G1, H1, Z.div_div, Z.pow_add_r by (try apply Z.pow_pos_nonneg; lia).
        reflexivity.
      + replace (y * bpow (- (k + 1)))%R with (y * bpow (- k) / 2)%R; auto.
        replace (- (k + 1)) with (- k + - (1)) by lia.
        rewrite bpow_add, (bpow_opp 1), bpow_1. lra.
    - unfold P. change (- 0) with 0. change (2 ^ 0) with 1.
      rewrite Z.div_1_r, bpow_0, Rmult_1_r.
      destruct l as [|[]]; cbn; auto. }
  destruct HP as (_ & H1 & H2). split; auto.
Qed.

(** Rounding to nearest even moves by at most half a unit. *)
Lemma rne_spec m l y :
  inbs m l y ->
  m <= round_nearest_even m l <= m + 1 /\
  (Rabs (IZR (round_nearest_even m l) - y) <= /2)%R.
Proof.
  intros H. destruct l as [|[]]; cbn in *.
  - subst. split; [lia|]. rewrite Rminus_diag, Rabs_R0. lra.
  - destruct (Z.even m); split; try lia; rewrite ?plus_IZR, H;
      apply Rabs_le; lra.
  - split; [lia|]. apply Rabs_le; lra.
  - split; [lia|]. rewrite plus_IZR. apply Rabs_le; lra.
Qed.

Lemma loc_of_shr_record_of_loc m l : loc_of_shr_record (shr_record_of_loc m l) = l.
Proof. destruct l as [|[]]; reflexivity. Qed.

Lemma shr_m_shr_record_of_loc m l : shr_m (shr_record_of_loc m l) = m.
Proof. destruct l as [|[]]; reflexivity. Qed.

Lemma fexp_normal e : -1074 <= e - 53 -> fexp 53 1024 e = e - 53.
Proof. unfold fexp, emin. lia. Qed.

Lemma shr_fexp_spec mx ex lx y :
  0 < mx -> 53 <= Zdigits2 mx -> -1074 <= Zdigits2 mx + ex - 53 ->
  inbs mx lx y ->
  exists mrs,
    shr_fexp 53 1024 mx ex lx = (mrs, ex + (Zdigits2 mx - 53)) /\
    shr_m mrs = mx / 2 ^ (Zdigits2 mx - 53) /\
    inbs (shr_m mrs) (loc_of_shr_record mrs) (y * bpow (- (Zdigits2 mx - 53))).
Proof.
  intros Hm Hd He Hy. unfold shr_fexp. rewrite fexp_normal by lia.
  replace (Zdigits2 mx + ex - 53 - ex) with (Zdigits2 mx - 53) by lia.
  destruct (Zdigits2 mx - 53) as [|p|p] eqn:En; try lia.
  - exists (shr_record_of_loc mx lx). cbn [shr].
    rewrite shr_m_shr_record_of_loc, loc_of_shr_record_of_loc.
    change (2 ^ 0) with 1. change (- 0) with 0.
    rewrite Z.div_1_r, bpow_0, Rmult_1_r, Z.add_0_r. auto.
  - exists (iter_pos shr_1 p (shr_record_of_loc mx lx)). cbn [shr].
    split; [reflexivity|]. apply inbs_shr; [lia|assumption].
Qed.

Lemma div_pow2_digits mx : 
  0 < mx -> 53 <= Zdigits2 mx ->
  2 ^ 52 <= mx / 2 ^ (Zdigits2 mx - 53) < 2 ^ 53.
Proof.
  intros Hm Hd. pose proof (Zdigits2_bounds mx Hm) as [Lo Hi].
  set (n := Zdigits2 mx - 53) in *.
  assert (Hn : 0 < 2 ^ n) by (apply Z.pow_pos_nonneg; lia).
  replace (Zdigits2 mx - 1) with (52 + n) in Lo by lia.
  replace (Zdigits2 mx) with (53 + n) in Hi by lia.
  rewrite Z.pow_add_r in Lo, Hi by lia.
  split.
  - apply Z.div_le_lower_bound; lia.
  - apply Z.div_lt_upper_bound; lia.
Qed.

Lemma inbs_ge m l y : inbs m l y -> (IZR m <= y)%R.
Proof. destruct l as [|[]]; cbn; lra. Qed.

(** [binary_round_aux] on a mantissa of at least 53 bits, in the normal
    range: the result is the nearest 53-bit mantissa at the shifted
    exponent. *)
Lemma round_aux_spec sx mx ex lx y :
  0 < mx -> 53 <= Zdigits2 mx -> -1074 <= Zdigits2 mx + ex - 53 ->
  Zdigits2 mx + ex <= 1023 ->
  inbs mx lx y ->
  exists m1,
    2 ^ 52 <= m1 <= 2 ^ 53 /\
    (IZR (2 ^ 52) <= y * bpow (- (Zdigits2 mx - 53)))%R /\
    (Rabs (IZR m1 - y * bpow (- (Zdigits2 mx - 53))) <= /2)%R /\
    binary_round_aux 53 1024 sx mx ex lx =
      normalize_mantissa sx m1 (ex + (Zdigits2 mx - 53)).
Proof.
  intros Hm Hd He Hov Hy.
  destruct (shr_fexp_spec mx ex lx y Hm Hd He Hy) as (mrs & E1 & Em & Hin).
  pose proof (div_pow2_digits mx Hm Hd) as Hb. rewrite <- Em in Hb.
  destruct (rne_spec _ _ _ Hin) as [Hr1 Hr2].
  set (m1 := round_nearest_even (shr_m mrs) (loc_of_shr_record mrs)) in *.
  exists m1. split; [lia|].
  split; [apply Rle_trans with (IZR (shr_m mrs)); [apply IZR_le; lia|eapply inbs_ge; eauto]|].
  split; [exact Hr2|].
  unfold binary_round_aux. rewrite E1. fold m1.
  set (e1 := ex + (Zdigits2 mx - 53)).
  unfold normalize_mantissa.
  destruct (Z.ltb_spec m1 (2 ^ 53)) as [Hlt|Hge].
  - assert (Hd1 : Zdigits2 m1 = 53) by (apply Zdigits2_unique; [lia|]; change (53 - 1) with 52; lia).
    unfold shr_fexp. rewrite Hd1, fexp_normal by (unfold e1; lia).
    replace (53 + e1 - 53 - e1) with 0 by lia. cbn [shr shr_record_of_loc shr_m].
    destruct m1 as [|p|p]; try lia.
    replace (e1 <=? 1024 - 53) with true by (symmetry; apply Z.leb_le; unfold e1; lia).
    reflexivity.
  - assert (E53 : m1 = 2 ^ 53) by lia. rewrite E53.
    assert (Hd1 : Zdigits2 (2 ^ 53) = 54) by reflexivity.
    unfold shr_fexp. rewrite Hd1, fexp_normal by (unfold e1; lia).
    replace (54 + e1 - 53 - e1) with 1 by lia.
    cbn [shr shr_record_of_loc iter_pos].
    change (shr_1 {| shr_m := 2 ^ 53; shr_r := false; shr_s := false |})
      with {| shr_m := 2 ^ 52; shr_r := false; shr_s := false |}.
    cbn [shr_m]. change (2 ^ 52) with (Z.pos (Z.to_pos (2 ^ 52))) at 1.
    cbv iota beta.
    replace (e1 + 1 <=? 1024 - 53) with true by (symmetry; apply Z.leb_le; unfold e1; lia).
    reflexivity.
Qed.

Lemma Rabs_le_inv x a : (Rabs x <= a)%R -> (- a <= x <= a)%R.
Proof. unfold Rabs. destruct (Rcase_abs x); lra. Qed.

Lemma IZR_near m k : (Rabs (IZR m - IZR k) <= /2)%R -> m = k.
Proof.
  intros H. apply Rabs_le_inv in H. rewrite <- minus_IZR in H.
  assert (m - k = 0); [|lia]. apply one_IZR_lt1. lra.
Qed.

Lemma F2R_shift m e k : 0 <= k -> F2R (m * 2 ^ k) (e - k) = F2R m e.
Proof.
  intros Hk. unfold F2R. rewrite mult_IZR, <- bpow_IZR by assumption.
  replace e with ((e - k) + k) at 2 by lia. rewrite (bpow_add (e - k) k). ring.
Qed.

Lemma normalize_mantissa_nf m1 e :
  2 ^ 52 <= m1 <= 2 ^ 53 ->
  exists m e', nf (normalize_mantissa false m1 e) m e' /\
               e <= e' <= e + 1 /\ F2R m e' = F2R m1 e /\
               (m1 < 2 ^ 53 -> m = m1 /\ e' = e).
Proof.
  intros H. unfold normalize_mantissa. destruct (Z.ltb_spec m1 (2 ^ 53)).
  - exists m1, e. unfold nf. repeat split; auto; lia.
  - exists (2 ^ 52), (e + 1). unfold nf. repeat split; auto; try lia.
    assert (m1 = 2 ^ 52 * 2 ^ 1) by (change (2 ^ 52 * 2 ^ 1) with (2 ^ 53); lia).
    subst m1. rewrite <- (F2R_shift (2 ^ 52) (e + 1) 1) by lia.
    f_equal. lia.
Qed.

(** Rounding of a positive real [y * 2^ex] located by [(mx, lx)]. *)
Lemma round_aux_value mx ex lx y :
  0 < mx -> 53 <= Zdigits2 mx -> -1074 <= Zdigits2 mx + ex - 53 ->
  Zdigits2 mx + ex <= 1023 ->
  inbs mx lx y ->
  exists m e,
    nf (binary_round_aux 53 1024 false mx ex lx) m e /\
    ex + (Zdigits2 mx - 53) <= e <= ex + (Zdigits2 mx - 53) + 1 /\
    (Rabs (F2R m e - y * bpow ex) <= bpow (-53) * (y * bpow ex))%R /\
    (forall k, (y * bpow (- (Zdigits2 mx - 53)))%R = IZR k ->
               F2R m e = (y * bpow ex)%R /\ (k < 2 ^ 53 -> m = k /\ e = ex + (Zdigits2 mx - 53))).
Proof.
  intros Hm Hd He Hov Hy.
  destruct (round_aux_spec false mx ex lx y Hm Hd He Hov Hy) as (m1 & Hb & Hlo & Hr & E).
  set (n := Zdigits2 mx - 53) in *.
  destruct (normalize_mantissa_nf m1 (ex + n) Hb) as (m & e & Hnf & Hee & Hv & Hsm).
  exists m, e. rewrite E. split; [exact Hnf|]. split; [lia|].
  assert (Hx : (y * bpow ex = (y * bpow (- n)) * bpow (ex + n))%R).
  { rewrite Rmult_assoc, <- bpow_add. do 2 f_equal. lia. }
  set (y' := (y * bpow (- n))%R) in *.
  pose proof (bpow_pos (ex + n)) as Hp.
  split.
  - rewrite Hv, Hx. unfold F2R.
    replace (IZR m1 * bpow (ex + n) - y' * bpow (ex + n))%R
      with ((IZR m1 - y') * bpow (ex + n))%R by ring.
    rewrite Rabs_mult, (Rabs_pos_eq (bpow (ex + n))) by lra.
    assert (Hu : (bpow (-53) * IZR (2 ^ 52) = /2)%R).
    { rewrite <- (bpow_IZR 52) by lia. rewrite <- bpow_add.
      change (-53 + 52) with (- (1)). rewrite bpow_opp, bpow_1. reflexivity. }
    pose proof (bpow_pos (-53)) as Hp53.
    assert ((/2 <= bpow (-53) * y')%R) by (rewrite <- Hu; nra).
    nra.
  - intros k Hk. rewrite Hk in Hr. apply IZR_near in Hr. subst m1.
    split.
    + rewrite Hv, Hx, Hk. reflexivity.
    + intros Hlt. destruct (Hsm Hlt). auto.
Qed.

Lemma nf_B2R f m e : nf f m e -> B2R f = F2R m e.
Proof.
  intros [-> H]. cbn. rewrite Z2Pos.id; [reflexivity|].
  assert (0 < 2 ^ 52) by reflexivity. lia.
Qed.

Lemma nf_pos f m e : nf f m e -> (0 < F2R m e)%R.
Proof.
  intros [_ H]. unfold F2R. apply Rmult_lt_0_compat; [|apply bpow_pos].
  apply IZR_lt. assert (0 < 2 ^ 52) by reflexivity. lia.
Qed.

Lemma iter_xO p d : Z.pos (Pos.iter xO p d) = Z.pos p * 2 ^ Z.pos d.
Proof.
  induction d as [|d IH] using Pos.peano_ind.
  - cbn [Pos.iter]. change (2 ^ 1) with 2. lia.
  - rewrite Pos.iter_succ, Pos2Z.inj_succ, Z.pow_succ_r by lia.
    rewrite Pos2Z.pos_xO, IH. ring.
Qed.

Lemma Zdigits2_shift m k :
  0 < m -> 0 <= k -> Zdigits2 (m * 2 ^ k) = Zdigits2 m + k.
Proof.
  intros Hm Hk. pose proof (Zdigits2_bounds m Hm) as [Lo Hi].
  assert (0 < 2 ^ k) by (apply Z.pow_pos_nonneg; lia).
  assert (0 < Zdigits2 m) by (destruct m; try lia; apply Pos2Z.is_pos).
  apply Zdigits2_unique; [nia|].
  replace (Zdigits2 m + k - 1) with (Zdigits2 m - 1 + k) by lia.
  rewrite !Z.pow_add_r by lia. nia.
Qed.

Lemma binary_round_value p e :
  -1074 <= Zdigits2 (Z.pos p) + e - 53 -> Zdigits2 (Z.pos p) + e <= 1023 ->
  exists m e',
    nf (binary_round 53 1024 false p e) m e' /\
    e + (Zdigits2 (Z.pos p) - 53) <= e' <= e + (Zdigits2 (Z.pos p) - 53) + 1 /\
    (Rabs (F2R m e' - F2R (Z.pos p) e) <= bpow (-53) * F2R (Z.pos p) e)%R /\
    (forall k, F2R (Z.pos p) (- (Zdigits2 (Z.pos p) - 53)) = IZR k ->
               F2R m e' = F2R (Z.pos p) e /\
               (k < 2 ^ 53 -> m = k /\ e' = e + (Zdigits2 (Z.pos p) - 53))).
Proof.
  intros He Hov. unfold binary_round. rewrite Zdigits2_pos_eq.
  set (d := Zdigits2 (Z.pos p)) in *.
  rewrite fexp_normal by lia. unfold shl_align.
  replace (d + e - 53 - e) with (d - 53) by lia.
  destruct (d - 53) as [|q|q] eqn:Ed.
  - destruct (round_aux_value (Z.pos p) e loc_Exact (IZR (Z.pos p))
                ltac:(lia) ltac:(fold d; lia) ltac:(fold d; lia) ltac:(fold d; lia) eq_refl)
      as (m & e' & H1 & H2 & H3 & H4).
    fold d in H2, H4. rewrite Ed in H2, H4. exists m, e'. auto.
  - destruct (round_aux_value (Z.pos p) e loc_Exact (IZR (Z.pos p))
                ltac:(lia) ltac:(fold d; lia) ltac:(fold d; lia) ltac:(fold d; lia) eq_refl)
      as (m & e' & H1 & H2 & H3 & H4).
    fold d in H2, H4. rewrite Ed in H2, H4. exists m, e'. auto.
  - assert (Hq : Z.pos q = 53 - d) by lia.
    assert (Hdig : Zdigits2 (Z.pos (Pos.iter xO p q)) = 53).
    { rewrite iter_xO, Zdigits2_shift by lia. fold d. lia. }
    destruct (round_aux_value (Z.pos (Pos.iter xO p q)) (d + e - 53) loc_Exact
                (IZR (Z.pos (Pos.iter xO p q)))
                ltac:(lia) ltac:(rewrite Hdig; lia) ltac:(rewrite Hdig; lia)
                ltac:(rewrite Hdig; lia) eq_refl)
      as (m & e' & H1 & H2 & H3 & H4).
    rewrite Hdig in H2, H4. change (- (53 - 53)) with 0 in H4.
    assert (Hv : (IZR (Z.pos (Pos.iter xO p q)) * bpow (d + e - 53))%R = F2R (Z.pos p) e).
    { change (F2R (Z.pos (Pos.iter xO p q)) (d + e - 53) = F2R (Z.pos p) e).
      rewrite iter_xO. replace (d + e - 53) with (e - Z.pos q) by lia.
      apply F2R_shift. lia. }
    rewrite Hv in H3, H4.
    exists m, e'. split; [exact H1|]. split; [lia|]. split; [exact H3|].
    intros k Hk. replace (- Z.neg q) with (Z.pos q) in Hk by lia.
    destruct (H4 k) as [G1 G2].
    { rewrite bpow_0, Rmult_1_r, <- Hk, iter_xO. unfold F2R.
      rewrite mult_IZR, <- bpow_IZR by lia. reflexivity. }
    split; auto. intros Hlt. destruct (G2 Hlt). split; auto. lia.
Qed.

(** Integers below [2^53] convert exactly. *)
Lemma of_int_nf z :
  0 < z < 2 ^ 53 ->
  exists m e, nf (Float64.of_int z) m e /\ -52 <= e <= 0 /\ F2R m e = IZR z /\
              m = z * 2 ^ (- e).
Proof.
  intros Hz. destruct z as [|p|p]; try lia.
  pose proof (Zdigits2_bounds (Z.pos p) ltac:(lia)) as [Lo Hi].
  assert (Hd1 : 0 < Zdigits2 (Z.pos p)) by apply Pos2Z.is_pos.
  assert (Hd : Zdigits2 (Z.pos p) <= 53).
  { destruct (Z.le_gt_cases (Zdigits2 (Z.pos p)) 53); auto.
    assert (2 ^ 53 <= 2 ^ (Zdigits2 (Z.pos p) - 1)) by (apply Z.pow_le_mono_r; lia). lia. }
  unfold Float64.of_int, binary_normalize.
  destruct (binary_round_value p 0) as (m & e & H1 & H2 & H3 & H4); try lia.
  set (d := Zdigits2 (Z.pos p)) in *.
  destruct (H4 (Z.pos p * 2 ^ (53 - d))) as [G1 G2].
  { unfold F2R. rewrite mult_IZR, <- bpow_IZR by lia. do 2 f_equal. lia. }
  exists m, e. split; [exact H1|].
  assert (Hk : Z.pos p * 2 ^ (53 - d) < 2 ^ 53).
  { replace 53 with (d + (53 - d)) at 2 by lia. rewrite Z.pow_add_r by lia.
    apply Z.mul_lt_mono_pos_r; [apply Z.pow_pos_nonneg; lia|lia]. }
  destruct (G2 Hk) as [Gm Ge]. split; [lia|]. split.
  - rewrite G1. unfold F2R. rewrite bpow_0. ring.
  - rewrite Gm, Ge. do 2 f_equal. lia.
Qed.

Lemma pow2_52_pos : 0 < 2 ^ 52.
Proof. reflexivity. Qed.

Lemma Zdigits2_ge m d : 0 < m -> 2 ^ (d - 1) <= m -> d <= Zdigits2 m.
Proof.
  intros Hm H. pose proof (Zdigits2_bounds m Hm) as [_ Hi].
  destruct (Z.le_gt_cases d (Zdigits2 m)); auto.
  assert (2 ^ Zdigits2 m <= 2 ^ (d - 1)); [|lia].
  apply Z.pow_le_mono_r; lia.
Qed.

Lemma Zdigits2_le m d : 0 < m -> 0 <= d -> m < 2 ^ d -> Zdigits2 m <= d.
Proof.
  intros Hm Hd H. pose proof (Zdigits2_bounds m Hm) as [Lo _].
  destruct (Z.le_gt_cases (Zdigits2 m) d); auto.
  assert (2 ^ d <= 2 ^ (Zdigits2 m - 1)); [|lia].
  apply Z.pow_le_mono_r; lia.
Qed.

(** Multiplication and division of normal numbers: the result is normal
    and within [2^-53] of the exact product or quotient, relatively. *)
Lemma mul_nf f1 m1 e1 f2 m2 e2 :
  nf f1 m1 e1 -> nf f2 m2 e2 -> -1000 <= e1 + e2 <= 900 ->
  exists m e,
    nf (Float64.mul f1 f2) m e /\
    e1 + e2 + 52 <= e <= e1 + e2 + 54 /\
    (Rabs (F2R m e - F2R m1 e1 * F2R m2 e2) <= bpow (-53) * (F2R m1 e1 * F2R m2 e2))%R.
Proof.
  intros [-> B1] [-> B2] He. pose proof pow2_52_pos.
  unfold Float64.mul, SFmul. cbn [xorb].
  assert (Hm : Z.pos (Z.to_pos m1 * Z.to_pos m2) = m1 * m2).
  { rewrite Pos2Z.inj_mul, !Z2Pos.id by lia. reflexivity. }
  rewrite Hm.
  assert (Lo : 2 ^ 104 <= m1 * m2) by (change (2 ^ 104) with (2 ^ 52 * 2 ^ 52); nia).
  assert (Hi : m1 * m2 < 2 ^ 106) by (change (2 ^ 106) with (2 ^ 53 * 2 ^ 53); nia).
  assert (0 < m1 * m2) by nia.
  assert (D1 : 105 <= Zdigits2 (m1 * m2)) by (apply Zdigits2_ge; auto).
  assert (D2 : Zdigits2 (m1 * m2) <= 106) by (apply Zdigits2_le; auto; lia).
  destruct (round_aux_value (m1 * m2) (e1 + e2) loc_Exact (IZR (m1 * m2))
              ltac:(lia) ltac:(lia) ltac:(lia) ltac:(lia) eq_refl)
    as (m & e & H1 & H2 & H3 & _).
  exists m, e. split; [exact H1|]. split; [lia|].
  replace (F2R m1 e1 * F2R m2 e2)%R with (IZR (m1 * m2) * bpow (e1 + e2))%R; [exact H3|].
  unfold F2R. rewrite mult_IZR, bpow_add. ring.
Qed.

(** The location the division derives from the remainder [k] of a
    division by [nb]. *)
Lemma new_location_spec q nb k :
  0 < nb -> 0 <= k < nb ->
  inbs q (new_location nb k) (IZR q + IZR k / IZR nb).
Proof.
  intros Hnb Hk.
  assert (Pnb : (0 < IZR nb)%R) by (apply IZR_lt; lia).
  set (t := (IZR k / IZR nb)%R).
  assert (Ht : (t * IZR nb = IZR k)%R) by (unfold t; field; lra).
  assert (T0 : k = 0 -> t = 0%R) by (intros ->; unfold t, Rdiv; ring).
  assert (Tpos : 0 < k -> (0 < t)%R).
  { intros Hp. apply IZR_lt in Hp. unfold t. apply Rdiv_lt_0_compat; lra. }
  assert (Tlt1 : (t < 1)%R).
  { destruct Hk as [_ Hk]. apply IZR_lt in Hk. nra. }
  assert (Half : forall c, (2 * k ?= nb) = c ->
             match c with Lt => (t < /2)%R | Eq => t = (/2)%R | Gt => (/2 < t)%R end).
  { intros c Hc. destruct c.
    - apply Z.compare_eq in Hc. apply (f_equal IZR) in Hc. rewrite mult_IZR in Hc. nra.
    - rewrite Z.compare_lt_iff in Hc. apply IZR_lt in Hc. rewrite mult_IZR in Hc. nra.
    - rewrite Z.compare_gt_iff in Hc. apply IZR_lt in Hc. rewrite mult_IZR in Hc. nra. }
  unfold new_location. destruct (Z.even nb) eqn:Ev.
  - unfold new_location_even. destruct (Z.eqb_spec k 0) as [E|N].
    + cbn. rewrite (T0 E). lra.
    + assert (0 < k) by lia. specialize (Tpos H).
      destruct (2 * k ?= nb) eqn:Hc; specialize (Half _ eq_refl); cbn in *; lra.
  - unfold new_location_odd. destruct (Z.eqb_spec k 0) as [E|N].
    + cbn. rewrite (T0 E). lra.
    + assert (0 < k) by lia. specialize (Tpos H).
      assert (Hodd : Z.odd nb = true) by (rewrite <- Z.negb_even, Ev; reflexivity).
      apply Z.odd_spec in Hodd. destruct Hodd as [j Hj].
      destruct (2 * k + 1 ?= nb) eqn:Hc.
      * apply Z.compare_eq in Hc.
        assert (Hlt : (2 * k ?= nb) = Lt) by (apply Z.compare_lt_iff; lia).
        specialize (Half _ Hlt). cbn in *. lra.
      * rewrite Z.compare_lt_iff in Hc.
        assert (Hlt : (2 * k ?= nb) = Lt) by (apply Z.compare_lt_iff; lia).
        specialize (Half _ Hlt). cbn in *. lra.
      * rewrite Z.compare_gt_iff in Hc.
        assert (Hgt : (2 * k ?= nb) = Gt) by (apply Z.compare_gt_iff; lia).
        specialize (Half _ Hgt). cbn in *. lra.
Qed.

Lemma div_nf f1 m1 e1 f2 m2 e2 :
  nf f1 m1 e1 -> nf f2 m2 e2 -> -900 <= e1 - e2 <= 900 ->
  exists m e,
    nf (Float64.div f1 f2) m e /\
    e1 - e2 - 53 <= e <= e1 - e2 - 51 /\
    (Rabs (F2R m e - F2R m1 e1 / F2R m2 e2) <= bpow (-53) * (F2R m1 e1 / F2R m2 e2))%R.
Proof.
  intros [-> B1] [-> B2] He. pose proof pow2_52_pos.
  unfold Float64.div, SFdiv. cbn [xorb]. unfold SFdiv_core_binary.
  rewrite !Z2Pos.id by lia.
  assert (D1 : Zdigits2 m1 = 53) by (apply Zdigits2_unique; [lia|]; change (53 - 1) with 52; lia).
  assert (D2 : Zdigits2 m2 = 53) by (apply Zdigits2_unique; [lia|]; change (53 - 1) with 52; lia).
  rewrite D1, D2.
  replace (53 + e1 - (53 + e2)) with (e1 - e2) by lia.
  rewrite fexp_normal by lia.
  replace (Z.min (e1 - e2 - 53) (e1 - e2)) with (e1 - e2 - 53) by lia.
  replace (e1 - e2 - (e1 - e2 - 53)) with 53 by lia.
  rewrite Z.shiftl_mul_pow2 by lia.
  pose proof (Z.div_eucl_eq (m1 * 2 ^ 53) m2 ltac:(lia)) as Heq.
  pose proof (Z.mod_pos_bound (m1 * 2 ^ 53) m2 ltac:(lia)) as Hr.
  unfold Z.modulo in Hr.
  destruct (Z.div_eucl (m1 * 2 ^ 53) m2) as [q r].
  assert (Lo : 2 ^ 52 <= q).
  { assert (2 ^ 52 * 2 ^ 53 <= m1 * 2 ^ 53) by (apply Z.mul_le_mono_nonneg_r; lia).
    assert (m2 * (q + 1) > 2 ^ 52 * 2 ^ 53) by nia.
    assert (m2 * 2 ^ 52 < 2 ^ 53 * 2 ^ 52) by (apply Z.mul_lt_mono_pos_r; lia).
    nia. }
  assert (Hi : q < 2 ^ 54).
  { assert (m1 * 2 ^ 53 < 2 ^ 53 * 2 ^ 53) by (apply Z.mul_lt_mono_pos_r; lia).
    assert (2 ^ 52 * q <= m2 * q) by (apply Z.mul_le_mono_nonneg_r; lia).
    change (2 ^ 54) with (2 * 2 ^ 53). change (2 ^ 53) with (2 * 2 ^ 52) in *. nia. }
  assert (Dq1 : 53 <= Zdigits2 q) by (apply Zdigits2_ge; [lia|exact Lo]).
  assert (Dq2 : Zdigits2 q <= 54) by (apply Zdigits2_le; [lia|lia|exact Hi]).
  assert (Hin : inbs q (new_location m2 r) (IZR q + IZR r / IZR m2))
    by (apply new_location_spec; lia).
  destruct (round_aux_value q (e1 - e2 - 53) (new_location m2 r) _
              ltac:(lia) ltac:(lia) ltac:(lia) ltac:(lia) Hin)
    as (m & e & H1 & H2 & H3 & _).
  exists m, e. split; [exact H1|]. split; [lia|].
  replace (F2R m1 e1 / F2R m2 e2)%R
    with ((IZR q + IZR r / IZR m2) * bpow (e1 - e2 - 53))%R; [exact H3|].
  unfold F2R.
  assert (P2 : (0 < IZR m2)%R) by (apply IZR_lt; lia).
  pose proof (bpow_pos e2).
  replace (e1 - e2 - 53) with (e1 + (- e2 + - (53))) by lia.
  rewrite !bpow_add, !bpow_opp.
  apply (f_equal IZR) in Heq. rewrite plus_IZR, !mult_IZR in Heq.
  rewrite <- (bpow_IZR 53) in Heq by lia.
  pose proof (bpow_pos 53).
  field_simplify_eq; [|lra]. nra.
Qed.

Lemma bpow_lt_inv a b : (bpow a < bpow b)%R -> a < b.
Proof.
  intros H. destruct (Z.lt_ge_cases a b); auto.
  pose proof (bpow_le b a ltac:(lia)). lra.
Qed.

Lemma shiftl_floor m e :
  0 < m -> 0 <= Z.shiftl m e /\ (IZR (Z.shiftl m e) <= F2R m e < IZR (Z.shiftl m e) + 1)%R.
Proof.
  intros Hm. unfold F2R. destruct (Z.le_gt_cases 0 e) as [He|He].
  - rewrite Z.shiftl_mul_pow2 by lia.
    assert (0 < 2 ^ e) by (apply Z.pow_pos_nonneg; lia).
    split; [nia|]. rewrite mult_IZR, <- bpow_IZR by lia. lra.
  - rewrite Z.shiftl_div_pow2 by lia.
    assert (Hp : 0 < 2 ^ (- e)) by (apply Z.pow_pos_nonneg; lia).
    split; [apply Z.div_pos; lia|].
    pose proof (Z.div_mod m (2 ^ (- e)) ltac:(lia)) as Hdm.
    pose proof (Z.mod_pos_bound m (2 ^ (- e)) Hp) as Hr.
    set (k := m / 2 ^ (- e)) in *. set (r := m mod 2 ^ (- e)) in *.
    assert (E : (IZR m = bpow (- e) * IZR k + IZR r)%R).
    { rewrite Hdm at 1. rewrite plus_IZR, mult_IZR, <- bpow_IZR by lia. reflexivity. }
    assert (R1 : (0 <= IZR r)%R) by (apply IZR_le; lia).
    assert (R2 : (IZR r < bpow (- e))%R) by (rewrite bpow_IZR by lia; apply IZR_lt; lia).
    assert (B : (bpow (- e) * bpow e = 1)%R) by (rewrite <- bpow_add, Z.add_opp_diag_l; reflexivity).
    pose proof (bpow_pos e). pose proof (bpow_pos (- e)).
    assert (Q1 : (0 <= IZR r * bpow e)%R) by (apply Rmult_le_pos; lra).
    assert (Q2 : (IZR r * bpow e < bpow (- e) * bpow e)%R) by (apply Rmult_lt_compat_r; lra).
    rewrite E.
    replace ((bpow (- e) * IZR k + IZR r) * bpow e)%R
      with (IZR k * (bpow (- e) * bpow e) + IZR r * bpow e)%R by ring.
    rewrite B in *. lra.
Qed.

(** [int(f)] is the floor of a positive float. *)
Lemma trunc_nf f m e :
  nf f m e ->
  Float64.trunc f = Ok (Z.shiftl m e) /\ 0 <= Z.shiftl m e /\
  (IZR (Z.shiftl m e) <= F2R m e < IZR (Z.shiftl m e) + 1)%R.
Proof.
  intros [-> B]. pose proof pow2_52_pos. cbn. rewrite Z2Pos.id by lia.
  split; [reflexivity|]. apply shiftl_floor. lia.
Qed.

(** On plus zero and positive normal numbers [<] is the order of the
    reals. *)
Lemma ltb_canon g1 g2 :
  canon g1 -> canon g2 -> (Float64.ltb g1 g2 = true <-> (B2R g1 < B2R g2)%R).
Proof.
  intros [->|(m1 & e1 & N1)] [->|(m2 & e2 & N2)].
  - cbn. split; [discriminate|lra].
  - rewrite (nf_B2R _ _ _ N2). pose proof (nf_pos _ _ _ N2). destruct N2 as [-> _].
    cbn. split; auto.
  - rewrite (nf_B2R _ _ _ N1). pose proof (nf_pos _ _ _ N1). destruct N1 as [-> _].
    cbn. split; [discriminate|lra].
  - rewrite (nf_B2R _ _ _ N1), (nf_B2R _ _ _ N2).
    destruct N1 as [-> B1], N2 as [-> B2]. pose proof pow2_52_pos.
    unfold Float64.ltb, SFltb, SFcompare, F2R.
    assert (I1 : (IZR (2 ^ 52) <= IZR m1 < IZR (2 ^ 53))%R) by (split; [apply IZR_le|apply IZR_lt]; lia).
    assert (I2 : (IZR (2 ^ 52) <= IZR m2 < IZR (2 ^ 53))%R) by (split; [apply IZR_le|apply IZR_lt]; lia).
    change (IZR (2 ^ 53)) with (2 * IZR (2 ^ 52))%R in *.
    assert (P52 : (0 < IZR (2 ^ 52))%R) by (apply IZR_lt; lia).
    destruct (Z.compare_spec e1 e2) as [E|L|G].
    + subst e2. change (Pos.compare_cont Eq (Z.to_pos m1) (Z.to_pos m2))
        with (Z.to_pos m1 ?= Z.to_pos m2)%positive.
      rewrite <- Z2Pos.inj_compare by lia.
      pose proof (bpow_pos e1).
      destruct (Z.compare_spec m1 m2) as [E|L|G].
      * subst. split; [discriminate|lra].
      * apply IZR_lt in L. split; intros; [nra|reflexivity].
      * apply IZR_lt in G. split; intros; [discriminate|nra].
    + pose proof (bpow_le (e1 + 1) e2 ltac:(lia)) as Hb. rewrite bpow_succ in Hb.
      pose proof (bpow_pos e1). split; intros; [nra|reflexivity].
    + pose proof (bpow_le (e2 + 1) e1 ltac:(lia)) as Hb. rewrite bpow_succ in Hb.
      pose proof (bpow_pos e2). split; intros; [discriminate|nra].
Qed.

Lemma shl_align_fst p e e' :
  e' <= e -> Z.pos (fst (shl_align p e e')) = Z.pos p * 2 ^ (e - e').
Proof.
  intros H. unfold shl_align. destruct (e' - e) as [|d|d] eqn:E; try lia; cbn [fst].
  - replace (e - e') with 0 by lia. change (2 ^ 0) with 1. lia.
  - rewrite iter_xO. do 2 f_equal. lia.
Qed.

Lemma F2R_0 e : F2R 0 e = 0%R.
Proof. unfold F2R. ring. Qed.

Lemma F2R_minus a b e : F2R (a - b) e = (F2R a e - F2R b e)%R.
Proof. unfold F2R. rewrite minus_IZR. ring. Qed.

(** The fractional part [f - int(f)] is computed exactly. *)
Lemma frac_canon f m e :
  nf f m e -> e <= 0 ->
  canon (Float64.sub f (Float64.of_int (Z.shiftl m e))) /\
  B2R (Float64.sub f (Float64.of_int (Z.shiftl m e))) = (F2R m e - IZR (Z.shiftl m e))%R.
Proof.
  intros Hnf He. pose proof pow2_52_pos as P52.
  pose proof Hnf as [Ef Bm].
  destruct (shiftl_floor m e ltac:(lia)) as [Hk0 Hk].
  set (k := Z.shiftl m e) in *.
  assert (Im : (IZR (2 ^ 52) <= IZR m < IZR (2 ^ 53))%R) by (split; [apply IZR_le|apply IZR_lt]; lia).
  change (IZR (2 ^ 53)) with (2 * IZR (2 ^ 52))%R in Im.
  assert (I52 : (0 < IZR (2 ^ 52))%R) by (apply IZR_lt; lia).
  destruct (Z.eq_dec k 0) as [K0|Kn].
  - rewrite K0. change (Float64.of_int 0) with (S754_zero false).
    rewrite Ef at 1 2. cbn [Float64.sub SFsub].
    split; [right; exists m, e; rewrite <- Ef; exact Hnf|].
    rewrite <- Ef, (nf_B2R _ _ _ Hnf). lra.
  - assert (Hk1 : 1 <= k) by lia.
    assert (Ik1 : (1 <= IZR k)%R) by (apply IZR_le; lia).
    assert (Hb0 : (bpow e <= 1)%R) by (rewrite <- bpow_0; apply bpow_le; lia).
    pose proof (bpow_pos e) as Hbe.
    assert (Hk53 : k < 2 ^ 53).
    { apply lt_IZR. change (IZR (2 ^ 53)) with (2 * IZR (2 ^ 52))%R.
      unfold F2R in Hk. nra. }
    assert (He52 : -52 <= e).
    { destruct (Z.le_gt_cases (-52) e); auto.
      pose proof (bpow_le e (-53) ltac:(lia)) as Hb.
      assert (Hu : (IZR (2 ^ 52) * (2 * bpow (-53)) = 1)%R).
      { rewrite <- bpow_succ, <- (bpow_IZR 52), <- bpow_add by lia. reflexivity. }
      unfold F2R in Hk. pose proof (bpow_pos (-53)). nra. }
    destruct (of_int_nf k ltac:(lia)) as (mk & ek & Nk & Hek & Vk & Emk).
    pose proof Nk as [Ek Bk].
    assert (Imk : (IZR (2 ^ 52) <= IZR mk)%R) by (apply IZR_le; lia).
    assert (Hle : ek <= e).
    { destruct (Z.le_gt_cases ek e); auto.
      pose proof (bpow_le (e + 1) ek ltac:(lia)) as Hb. rewrite bpow_succ in Hb.
      unfold F2R in Hk, Vk. nra. }
    rewrite Ek, Ef. unfold Float64.sub, SFsub, Float64.prec, Float64.emax. cbn [cond_Zopp].
    replace (Z.min e ek) with ek by lia.
    rewrite (shl_align_fst _ e ek Hle), (shl_align_fst _ ek ek (Z.le_refl _)).
    rewrite !Z2Pos.id by lia.
    replace (ek - ek) with 0 by lia. change (2 ^ 0) with 1. rewrite Z.mul_1_r.
    set (D := m * 2 ^ (e - ek) - mk).
    assert (VD : F2R D ek = (F2R m e - IZR k)%R).
    { unfold D. rewrite F2R_minus, Vk. f_equal.
      replace ek with (e - (e - ek)) at 2 by lia. apply F2R_shift. lia. }
    assert (VD1 : (0 <= F2R D ek < 1)%R) by (rewrite VD; lra).
    pose proof (bpow_pos ek) as Hbk.
    assert (HD0 : 0 <= D).
    { apply le_IZR. unfold F2R in VD1. nra. }
    destruct D as [|pD|pD] eqn:ED; try lia.
    + cbn [binary_normalize]. split; [left; reflexivity|].
      cbn [B2R]. rewrite <- VD. symmetry. apply F2R_0.
    + cbn [binary_normalize].
      assert (HDlt : Z.pos pD < 2 ^ (- ek)).
      { apply lt_IZR. rewrite <- bpow_IZR by lia.
        assert (B : (bpow (- ek) * bpow ek = 1)%R)
          by (rewrite <- bpow_add, Z.add_opp_diag_l; reflexivity).
        pose proof (bpow_pos (- ek)). unfold F2R in VD1. nra. }
      assert (Hd1 : 0 < Zdigits2 (Z.pos pD)) by apply Pos2Z.is_pos.
      assert (Hd2 : Zdigits2 (Z.pos pD) <= - ek) by (apply Zdigits2_le; lia).
      destruct (binary_round_value pD ek ltac:(lia) ltac:(lia))
        as (m' & e' & N' & _ & _ & Hex).
      set (d := Zdigits2 (Z.pos pD)) in *.
      assert (Hint : exists k', F2R (Z.pos pD) (- (d - 53)) = IZR k').
      { destruct (Z.le_gt_cases d 53) as [Hs|Hl].
        - exists (Z.pos pD * 2 ^ (53 - d)). unfold F2R.
          rewrite mult_IZR, <- bpow_IZR by lia. do 2 f_equal. lia.
        - exists (m * 2 ^ (e - ek - (d - 53)) - k * 2 ^ (- ek - (d - 53))).
          assert (E1 : Z.pos pD =
                       (m * 2 ^ (e - ek - (d - 53)) - k * 2 ^ (- ek - (d - 53))) * 2 ^ (d - 53)).
          { rewrite <- ED. unfold D. rewrite Emk.
            rewrite Z.mul_sub_distr_r, <- !Z.mul_assoc, <- !Z.pow_add_r by lia.
            do 3 f_equal; lia. }
          rewrite E1 at 1. unfold F2R. rewrite mult_IZR, <- bpow_IZR by lia.
          rewrite Rmult_assoc, <- bpow_add, Z.add_opp_diag_r, bpow_0. ring. }
      destruct Hint as [k' Hk'].
      destruct (Hex k' Hk') as [Hv _].
      split; [right; exists m', e'; exact N'|].
      rewrite (nf_B2R _ _ _ N'), Hv. exact VD.
Qed.
(** The share [(c / T) * n] as computed: two roundings, a relative error
    of at most [3 * 2^-53]. *)
Lemma share_nf c T n :
  0 < c < 2 ^ 53 -> 0 < T < 2 ^ 53 -> 0 < n < 2 ^ 53 ->
  exists m e,
    nf (exact_share c T n) m e /\
    (Rabs (F2R m e - IZR c / IZR T * IZR n)
     <= 3 * bpow (-53) * (IZR c / IZR T * IZR n))%R.
Proof.
  intros Hc HT Hn.
  destruct (of_int_nf c Hc) as (mc & ec & Nc & Ec & Vc & _).
  destruct (of_int_nf T HT) as (mT & eT & NT & ET & VT & _).
  destruct (of_int_nf n Hn) as (mn & en & Nn & En & Vn & _).
  destruct (div_nf _ _ _ _ _ _ Nc NT ltac:(lia)) as (m1 & e1 & N1 & E1 & V1).
  destruct (mul_nf _ _ _ _ _ _ N1 Nn ltac:(lia)) as (m & e & N & E & V).
  exists m, e. split; [exact N|].
  rewrite Vc, VT in V1. rewrite Vn in V.
  assert (Pc : (0 < IZR c)%R) by (apply IZR_lt; lia).
  assert (PT : (0 < IZR T)%R) by (apply IZR_lt; lia).
  assert (Pn : (0 < IZR n)%R) by (apply IZR_lt; lia).
  assert (Px : (0 < IZR c / IZR T)%R) by (apply Rdiv_lt_0_compat; lra).
  set (x1 := (IZR c / IZR T)%R) in *. set (v1 := F2R m1 e1) in *. set (v := F2R m e) in *.
  assert (Hu : (0 < bpow (-53) <= 1)%R).
  { split; [apply bpow_pos|]. rewrite <- bpow_0. apply bpow_le. lia. }
  set (u := bpow (-53)) in *.
  apply Rabs_le_inv in V1. apply Rabs_le_inv in V.
  assert (Pxn : (0 < x1 * IZR n)%R) by (apply Rmult_lt_0_compat; lra).
  assert (Pux : (0 <= u * x1)%R) by (apply Rmult_le_pos; lra).
  assert (Pv1 : (0 <= v1)%R) by nra.
  assert (A1 : (v1 * IZR n <= (x1 + u * x1) * IZR n)%R) by (apply Rmult_le_compat_r; lra).
  assert (A2 : ((x1 - u * x1) * IZR n <= v1 * IZR n)%R) by (apply Rmult_le_compat_r; lra).
  assert (A3 : (u * (v1 * IZR n) <= u * ((x1 + u * x1) * IZR n))%R) by (apply Rmult_le_compat_l; lra).
  assert (A4 : (u * (u * (x1 * IZR n)) <= 1 * (u * (x1 * IZR n)))%R).
  { apply Rmult_le_compat_r; [|lra]. apply Rmult_le_pos; lra. }
  apply Rabs_le. split; nra.
Qed.
(** With at most [2^25] rows and a request of at most [2^25] the error
    stays below [1 / (2 T)], and a share is of one of three kinds.  If
    [c * n / T] is not an integer, the float has the right floor and its
    fractional part is at least [1 / (2 T)] away from 0 and 1.  If it is an
    integer, the float either fell just below it (floor one short,
    fractional part next to 1) or is on or just above it (fractional part
    next to 0). *)
Lemma share_class c T n :
  0 < c <= T -> T <= 2 ^ 25 -> 0 < n <= 2 ^ 25 ->
  exists m e,
    nf (exact_share c T n) m e /\ e <= 0 /\
    let k := Z.shiftl m e in
    let kv := (F2R m e - IZR k)%R in
    (((c * n) mod T <> 0 /\ k = c * n / T /\ (1 < 2 * IZR T * kv < 2 * IZR T - 1)%R) \/
     ((c * n) mod T = 0 /\ k = c * n / T - 1 /\ (2 * IZR T - 1 < 2 * IZR T * kv)%R) \/
     ((c * n) mod T = 0 /\ k = c * n / T /\ (2 * IZR T * kv < 1)%R)).
Proof.
  intros Hc HT Hn.
  assert (P25 : 2 ^ 25 < 2 ^ 53) by reflexivity.
  destruct (share_nf c T n ltac:(lia) ltac:(lia) ltac:(lia)) as (m & e & N & V).
  exists m, e. split; [exact N|].
  pose proof N as [_ Bm]. pose proof pow2_52_pos as P52.
  destruct (shiftl_floor m e ltac:(lia)) as [Hk0 Hk].
  set (k := Z.shiftl m e) in *. set (v := F2R m e) in *.
  assert (Pc : (0 < IZR c)%R) by (apply IZR_lt; lia).
  assert (PT : (0 < IZR T)%R) by (apply IZR_lt; lia).
  assert (Pn : (0 < IZR n)%R) by (apply IZR_lt; lia).
  assert (Hcn : c * n <= 2 ^ 50) by (change (2 ^ 50) with (2 ^ 25 * 2 ^ 25); nia).
  assert (Icn : (IZR c * IZR n <= IZR (2 ^ 50))%R) by (rewrite <- mult_IZR; apply IZR_le; exact Hcn).
  assert (Hu : (bpow (-53) * IZR (2 ^ 50) = / 8)%R).
  { rewrite <- (bpow_IZR 50), <- bpow_add by lia. change (-53 + 50) with (- (3)).
    rewrite bpow_opp, (bpow_IZR 3) by lia. reflexivity. }
  pose proof (bpow_pos (-53)) as Pu. set (u := bpow (-53)) in *.
  assert (Tx : (IZR T * (IZR c / IZR T * IZR n) = IZR (c * n))%R).
  { rewrite mult_IZR. field. lra. }
  set (x := (IZR c / IZR T * IZR n)%R) in *.
  apply Rabs_le_inv in V.
  assert (Bd : (IZR T * (3 * u * x) <= 3 / 8)%R).
  { replace (IZR T * (3 * u * x))%R with (3 * (u * (IZR T * x)))%R by ring.
    rewrite Tx, mult_IZR. nra. }
  assert (V1 : (IZR (c * n) - 3 / 8 <= IZR T * v <= IZR (c * n) + 3 / 8)%R).
  { rewrite <- Tx. nra. }
  clear V Bd Tx. clearbody x.
  pose proof (Z.div_mod (c * n) T ltac:(lia)) as Hdm.
  pose proof (Z.mod_pos_bound (c * n) T ltac:(lia)) as Hr.
  set (q := c * n / T) in *. set (r := (c * n) mod T) in *.
  assert (Icn' : IZR (c * n) = (IZR T * IZR q + IZR r)%R).
  { rewrite Hdm at 1. rewrite plus_IZR, mult_IZR. reflexivity. }
  rewrite Icn' in V1.
  assert (K1 : (IZR T * IZR k <= IZR T * v)%R) by (apply Rmult_le_compat_l; lra).
  assert (K2 : (IZR T * v < IZR T * IZR k + IZR T)%R) by nra.
  assert (R0 : (0 <= IZR r)%R) by (apply IZR_le; lia).
  assert (R1 : (IZR r <= IZR T - 1)%R) by (rewrite <- minus_IZR; apply IZR_le; lia).
  assert (Kle : k <= q).
  { assert (T * k < T * q + T); [|nia].
    apply lt_IZR. rewrite plus_IZR, !mult_IZR. lra. }
  assert (Kge : q - 1 <= k).
  { assert (T * q - 1 < T * k + T); [|nia].
    apply lt_IZR. rewrite plus_IZR, minus_IZR, !mult_IZR. lra. }
  split.
  { destruct (Z.le_gt_cases e 0); auto.
    pose proof (bpow_le 1 e ltac:(lia)) as Hb. rewrite bpow_1 in Hb.
    assert (Q0 : 0 <= q) by (apply Z.div_pos; nia).
    assert (T * q <= 2 ^ 50) by lia.
    assert (q <= 2 ^ 50) by nia.
    assert (Iq : (IZR k <= IZR (2 ^ 50))%R) by (apply IZR_le; lia).
    assert (Im : (IZR (2 ^ 52) <= IZR m)%R) by (apply IZR_le; lia).
    assert (E52 : IZR (2 ^ 52) = (4 * IZR (2 ^ 50))%R) by (rewrite <- mult_IZR; reflexivity).
    rewrite E52 in Im.
    assert (I50 : (1 <= IZR (2 ^ 50))%R) by (apply IZR_le; lia).
    unfold v, F2R in Hk. nra. }
  cbv zeta.
  destruct (Z.eq_dec r 0) as [Er|Nr].
  - assert (Ir : IZR r = 0%R) by (rewrite Er; reflexivity).
    destruct (Z.eq_dec k q) as [Ek|Nk].
    + right; right. repeat split; auto. rewrite Ek. nra.
    + right; left. assert (Ek : k = q - 1) by lia. repeat split; auto.
      rewrite Ek, minus_IZR. nra.
  - left. assert (R2 : (1 <= IZR r)%R) by (apply IZR_le; lia).
    assert (Ek : k = q).
    { assert (T * q < T * k + T); [|nia].
      apply lt_IZR. rewrite plus_IZR, !mult_IZR. lra. }
    repeat split; auto; rewrite Ek; nra.
Qed.

(** * Sorting, slices and dictionaries *)

Section SortTheory.
Context {A K : Type}.
Variable lt : K -> K -> bool.
Variable key : A -> K.
Variable val : A -> R.
Variable good : A -> Prop.
Hypothesis lt_val :
  forall a b, good a -> good b -> (lt (key a) (key b) = true <-> (val a < val b)%R).

Let asc := StronglySorted (fun a b => (val a <= val b)%R).

Lemma insort_perm x l : Permutation (insort lt key x l) (x :: l).
Proof.
  induction l as [|y l IH]; cbn; [reflexivity|].
  destruct (lt (key x) (key y)); [reflexivity|].
  rewrite IH. apply perm_swap.
Qed.

Lemma fold_insort_perm l : forall acc,
  Permutation (fold_left (fun acc x => insort lt key x acc) l acc) (acc ++ l).
Proof.
  induction l as [|x l IH]; intros acc; cbn.
  - rewrite app_nil_r. reflexivity.
  - rewrite IH, insort_perm. apply Permutation_middle.
Qed.

Lemma sorted_perm l : Permutation (sorted lt key l) l.
Proof. unfold sorted. apply (fold_insort_perm l []). Qed.

Lemma sorted_reverse_perm l : Permutation (sorted_reverse lt key l) l.
Proof.
  unfold sorted_reverse. rewrite <- Permutation_rev, sorted_perm, <- Permutation_rev.
  reflexivity.
Qed.

Lemma insort_asc x l :
  good x -> Forall good l -> asc l -> asc (insort lt key x l).
Proof.
  intros Gx Gl Hs. induction l as [|y l IH]; cbn.
  - constructor; constructor.
  - apply StronglySorted_inv in Hs as [Hs Hy]. inversion Gl as [|? ? Gy Gl']; subst.
    destruct (lt (key x) (key y)) eqn:E.
    + apply lt_val in E; auto. constructor; [constructor; auto|].
      constructor; [lra|]. rewrite Forall_forall in *. intros z Hz.
      specialize (Hy z Hz). lra.
    + assert (Hge : (val y <= val x)%R).
      { destruct (Rle_lt_dec (val y) (val x)); auto.
        apply lt_val in r; auto. congruence. }
      constructor; [apply IH; auto|].
      rewrite Forall_forall in *. intros z Hz.
      apply (Permutation_in _ (insort_perm x l)) in Hz. destruct Hz as [<-|Hz]; auto.
Qed.

Lemma fold_insort_asc l : forall acc,
  Forall good l -> Forall good acc -> asc acc ->
  asc (fold_left (fun acc x => insort lt key x acc) l acc).
Proof.
  induction l as [|x l IH]; intros acc Gl Ga Hs; cbn; auto.
  inversion Gl; subst. apply IH; auto.
  - rewrite Forall_forall in *. intros z Hz.
    apply (Permutation_in _ (insort_perm x acc)) in Hz. destruct Hz as [<-|Hz]; auto.
  - apply insort_asc; auto.
Qed.

Lemma sorted_asc l : Forall good l -> asc (sorted lt key l).
Proof. intros G. apply fold_insort_asc; auto. constructor. Qed.

(** In an ascending list the elements of an upward-closed class come
    last. *)
Lemma asc_split (P : A -> Prop) l :
  (forall x, P x \/ ~ P x) ->
  (forall a b, P a -> (val a <= val b)%R -> P b) ->
  asc l ->
  exists l1 l2, l = l1 ++ l2 /\ Forall (fun x => ~ P x) l1 /\ Forall P l2.
Proof.
  intros Pdec Pup Hs. induction l as [|a l IH].
  - exists [], []. auto.
  - apply StronglySorted_inv in Hs as [Hs Ha].
    destruct (Pdec a) as [Pa|Na].
    + exists [], (a :: l). repeat split; auto. constructor; auto.
      rewrite Forall_forall in *. intros z Hz. eapply Pup; eauto.
    + destruct (IH Hs) as (l1 & l2 & -> & H1 & H2).
      exists (a :: l1), l2. repeat split; auto.
Qed.

(** In the descending ranking the elements of an upward-closed class
    come first. *)
Lemma sorted_reverse_split (P : A -> Prop) l :
  (forall x, P x \/ ~ P x) ->
  (forall a b, P a -> (val a <= val b)%R -> P b) ->
  Forall good l ->
  exists l1 l2, sorted_reverse lt key l = l1 ++ l2 /\
                Forall P l1 /\ Forall (fun x => ~ P x) l2.
Proof.
  intros Pdec Pup G.
  assert (Gr : Forall good (rev l)).
  { rewrite Forall_forall in *. intros z Hz. apply G, in_rev, Hz. }
  destruct (asc_split P _ Pdec Pup (sorted_asc _ Gr)) as (l1 & l2 & E & H1 & H2).
  exists (rev l2), (rev l1). unfold sorted_reverse. rewrite E, rev_app_distr.
  repeat split; auto; rewrite Forall_forall in *; intros z Hz; apply in_rev in Hz; auto.
Qed.

(** *** Stability *)

Lemma before_here (a b : A) l : In b l -> before a b (a :: l).
Proof. intros H. exists [], l. auto. Qed.

Lemma before_skip (a b x : A) l : before a b l -> before a b (x :: l).
Proof. intros (l1 & l2 & -> & H). exists (x :: l1), l2. auto. Qed.

Lemma before_inv (a b x : A) l :
  before a b (x :: l) -> (x = a /\ In b l) \/ before a b l.
Proof.
  intros (l1 & l2 & E & H). destruct l1 as [|y l1]; cbn in E; injection E as -> ->.
  - left; auto.
  - right. exists l1, l2. auto.
Qed.

Lemma before_rev (a b : A) l : before a b l -> before b a (rev l).
Proof.
  intros (l1 & l2 & -> & H). apply in_split in H as (p & s & ->).
  exists (rev s), (rev p ++ a :: rev l1).
  split.
  - rewrite rev_app_distr. cbn. rewrite rev_app_distr. cbn.
    rewrite <- !app_assoc. cbn. reflexivity.
  - apply in_or_app. right. left. reflexivity.
Qed.

Lemma insort_before_keep (a b x : A) l :
  before a b l -> before a b (insort lt key x l).
Proof.
  induction l as [|y l IH]; intros H; cbn.
  - destruct H as (l1 & l2 & E & _). destruct l1; discriminate.
  - destruct (lt (key x) (key y)); [apply before_skip; exact H|].
    apply before_inv in H as [[-> H]|H].
    + apply before_here. apply (Permutation_in _ (Permutation_sym (insort_perm x l))).
      right. exact H.
    + apply before_skip. auto.
Qed.

Lemma insort_new_after (b x : A) l :
  good x -> Forall good l -> asc l -> In b l -> (val b <= val x)%R ->
  before b x (insort lt key x l).
Proof.
  intros Gx Gl Hs Hb Hv. induction l as [|y l IH]; [destruct Hb|].
  apply StronglySorted_inv in Hs as [Hs Hy]. inversion Gl as [|? ? Gy Gl']; subst.
  cbn. destruct (lt (key x) (key y)) eqn:E.
  - apply lt_val in E; auto. exfalso. destruct Hb as [<-|Hb]; [lra|].
    rewrite Forall_forall in Hy. specialize (Hy b Hb). lra.
  - destruct Hb as [<-|Hb].
    + apply before_here. apply (Permutation_in _ (Permutation_sym (insort_perm x l))).
      left. reflexivity.
    + apply before_skip. auto.
Qed.

Lemma fold_insort_stable (a b : A) l : forall acc,
  Forall good l -> Forall good acc -> asc acc ->
  before b a acc \/ (In b acc /\ In a l /\ (val b <= val a)%R) \/
    (before b a l /\ (val b <= val a)%R) ->
  before b a (fold_left (fun acc x => insort lt key x acc) l acc).
Proof.
  induction l as [|x l IH]; intros acc Gl Ga Hs H; cbn.
  - destruct H as [H|[(_ & [] & _)|[(l1 & l2 & E & _) _]]]; auto.
    destruct l1; discriminate.
  - inversion Gl as [|? ? Gx Gl']; subst.
    assert (Ga' : Forall good (insort lt key x acc)).
    { rewrite Forall_forall in *. intros z Hz.
      apply (Permutation_in _ (insort_perm x acc)) in Hz. destruct Hz as [<-|Hz]; auto. }
    assert (Hin : forall z, In z acc -> In z (insort lt key x acc)).
    { intros z Hz. apply (Permutation_in _ (Permutation_sym (insort_perm x acc))).
      right. exact Hz. }
    apply IH; auto; [apply insort_asc; auto|].
    destruct H as [H|[(Hb & [<-|Ha] & Hv)|[H Hv]]].
    + left. apply insort_before_keep. exact H.
    + left. apply insort_new_after; auto.
    + right; left. auto.
    + apply before_inv in H as [[-> H]|H].
      * right; left. repeat split; auto.
        apply (Permutation_in _ (Permutation_sym (insort_perm b acc))). left. reflexivity.
      * right; right. auto.
Qed.

(** Of two elements the earlier one stays ahead in the descending
    ranking unless the later one has a larger key. *)
Lemma sorted_reverse_stable (a b : A) l :
  Forall good l -> before a b l -> (val b <= val a)%R ->
  before a b (sorted_reverse lt key l).
Proof.
  intros G H Hv. unfold sorted_reverse.
  apply before_rev. unfold sorted. apply fold_insort_stable.
  - rewrite Forall_forall in *. intros z Hz. apply G, in_rev, Hz.
  - constructor.
  - constructor.
  - right; right. split; auto. apply before_rev. exact H.
Qed.

End SortTheory.

Lemma in_firstn {A : Type} (x : A) r l : In x (firstn r l) -> In x l.
Proof.
  intros H. rewrite <- (firstn_skipn r l). apply in_or_app. left. exact H.
Qed.

Lemma NoDup_app_disjoint {A : Type} (l1 l2 : list A) (x : A) :
  NoDup (l1 ++ l2) -> In x l1 -> In x l2 -> False.
Proof.
  induction l1 as [|y l1 IH]; cbn; intros Hnd H1 H2; [destruct H1|].
  inversion Hnd as [|? ? Hy Hnd']; subst. destruct H1 as [->|H1].
  - apply Hy. apply in_or_app. right. exact H2.
  - apply IH; auto.
Qed.

Lemma before_firstn {A : Type} (a b : A) l r :
  NoDup l -> before a b l -> In b (firstn r l) -> In a (firstn r l).
Proof.
  intros Hnd (l1 & l2 & -> & Hb) Hin.
  destruct (Nat.le_gt_cases r (List.length l1)) as [Hle|Hgt].
  - exfalso. rewrite firstn_app in Hin.
    replace (r - List.length l1)%nat with 0%nat in Hin by lia.
    cbn in Hin. rewrite app_nil_r in Hin. apply in_firstn in Hin.
    apply (NoDup_app_disjoint _ _ b Hnd Hin). right. exact Hb.
  - rewrite firstn_app. apply in_or_app. right.
    destruct (r - List.length l1)%nat eqn:E; [lia|]. cbn. left. reflexivity.
Qed.

(** Sorting commutes with renaming the elements. *)
Section SortMap.
Context {A B K : Type}.
Variable lt : K -> K -> bool.
Variable key : A -> K.
Variable g : B -> A.

Lemma insort_map x l :
  insort lt key (g x) (map g l) = map g (insort lt (fun b => key (g b)) x l).
Proof.
  induction l as [|y l IH]; cbn; [reflexivity|].
  destruct (lt (key (g x)) (key (g y))); cbn; [reflexivity|]. rewrite IH. reflexivity.
Qed.

Lemma fold_insort_map l : forall acc,
  fold_left (fun acc x => insort lt key x acc) (map g l) (map g acc) =
  map g (fold_left (fun acc x => insort lt (fun b => key (g b)) x acc) l acc).
Proof.
  induction l as [|x l IH]; intros acc; cbn; [reflexivity|].
  rewrite insort_map. apply IH.
Qed.

Lemma sorted_reverse_map l :
  sorted_reverse lt key (map g l) = map g (sorted_reverse lt (fun b => key (g b)) l).
Proof.
  unfold sorted_reverse, sorted. rewrite <- map_rev.
  change (@nil A) with (map g (@nil B)).
  rewrite fold_insort_map, map_rev. reflexivity.
Qed.
End SortMap.

(** *** Slices *)

Lemma slice_to_nonneg {A : Type} (l : list A) r :
  0 <= r -> slice_to l r = firstn (Z.to_nat r) l.
Proof. intros H. unfold slice_to. destruct (Z.leb_spec 0 r); [reflexivity|lia]. Qed.

Lemma slice_to_length {A : Type} (l : list A) r :
  0 <= r <= Z.of_nat (List.length l) -> Z.of_nat (List.length (slice_to l r)) = r.
Proof.
  intros H. rewrite slice_to_nonneg by lia. rewrite length_firstn. lia.
Qed.

(** *** Dictionaries *)

Lemma fold_incr {X : Type} (xs : list (string * X)) : forall d : dict Z,
  fold_left (fun d x => incr d (fst x)) xs d =
  map (fun kv => (fst kv, snd kv + occ (map fst xs) (fst kv))) d.
Proof.
  unfold occ. induction xs as [|x xs IH]; intros d; cbn [fold_left map].
  - cbn. rewrite <- (map_id d) at 1. apply map_ext. intros [k v]. cbn. f_equal. lia.
  - rewrite IH. unfold incr. rewrite map_map. apply map_ext. intros [k v]. cbn [fst snd].
    destruct (String.eqb_spec k (fst x)) as [->|N]; cbn [fst snd].
    + rewrite count_occ_cons_eq by reflexivity. f_equal. lia.
    + rewrite count_occ_cons_neq by congruence. reflexivity.
Qed.

Lemma sum_app l1 l2 : sum (l1 ++ l2) = sum l1 + sum l2.
Proof. unfold sum. induction l1; cbn; lia. Qed.

Lemma sum_map_add {X : Type} (f g : X -> Z) l :
  sum (map (fun x => f x + g x) l) = sum (map f l) + sum (map g l).
Proof. unfold sum. induction l; cbn; lia. Qed.

Lemma sum_indicator x ks :
  NoDup ks -> In x ks ->
  sum (map (fun k => if string_dec x k then 1 else 0) ks) = 1.
Proof.
  unfold sum. induction ks as [|k ks IH]; intros Hnd Hin; [destruct Hin|].
  inversion Hnd as [|? ? Hk Hnd']; subst. cbn.
  destruct (string_dec x k) as [->|N].
  - assert (fold_right Z.add 0 (map (fun k0 => if string_dec k k0 then 1 else 0) ks) = 0); [|lia].
    clear IH Hin Hnd Hnd'. induction ks as [|k' ks IH]; cbn; [reflexivity|].
    destruct (string_dec k k') as [->|N]; [exfalso; apply Hk; left; reflexivity|].
    rewrite IH; [reflexivity|]. intros H. apply Hk. right. exact H.
  - destruct Hin as [->|Hin]; [congruence|]. rewrite IH; auto.
Qed.

Lemma sum_map_zero {X : Type} (f : X -> Z) l :
  (forall x, In x l -> f x = 0) -> sum (map f l) = 0.
Proof.
  unfold sum. induction l as [|x l IH]; intros H; cbn; [reflexivity|].
  rewrite H, IH; auto using in_eq, in_cons.
Qed.

Lemma sum_occ ks top :
  NoDup ks -> incl top ks -> sum (map (occ top) ks) = Z.of_nat (List.length top).
Proof.
  intros Hnd. induction top as [|x top IH]; intros Hin.
  - apply sum_map_zero. reflexivity.
  - assert (E : forall k, occ (x :: top) k = (if string_dec x k then 1 else 0) + occ top k).
    { intros k. unfold occ. cbn. destruct (string_dec x k); lia. }
    rewrite (map_ext _ _ E), sum_map_add, sum_indicator, IH; auto.
    + cbn [List.length]. lia.
    + intros z Hz. apply Hin. right. exact Hz.
    + apply Hin. left. reflexivity.
Qed.

Lemma occ_NoDup ks k : NoDup ks -> occ ks k = if in_dec string_dec k ks then 1 else 0.
Proof.
  intros Hnd. unfold occ. destruct (in_dec string_dec k ks) as [Hin|Hn].
  - apply (NoDup_count_occ' string_dec) in Hin; auto. rewrite Hin. reflexivity.
  - apply (count_occ_not_In string_dec) in Hn. rewrite Hn. reflexivity.
Qed.

Lemma sum_perm {X : Type} (f : X -> Z) l l' :
  Permutation l l' -> sum (map f l) = sum (map f l').
Proof. unfold sum. induction 1; cbn; lia. Qed.

Lemma NoDup_firstn {A : Type} r (l : list A) : NoDup l -> NoDup (firstn r l).
Proof.
  intros H. rewrite <- (firstn_skipn r l) in H. apply NoDup_app_remove_r in H. exact H.
Qed.

Lemma NoDup_keys_inj {V : Type} (d : dict V) s (c c' : V) :
  NoDup (keys d) -> In (s, c) d -> In (s, c') d -> c = c'.
Proof.
  unfold keys. induction d as [|[k v] d IH]; cbn; intros Hnd H1 H2; [destruct H1|].
  inversion Hnd as [|? ? Hk Hnd']; subst.
  destruct H1 as [E1|H1], H2 as [E2|H2].
  - congruence.
  - injection E1 as -> ->. exfalso. apply Hk. apply (in_map fst _ _ H2).
  - injection E2 as -> ->. exfalso. apply Hk. apply (in_map fst _ _ H1).
  - auto.
Qed.

Lemma NoDup_keys_NoDup {V : Type} (d : dict V) : NoDup (keys d) -> NoDup d.
Proof. apply NoDup_map_inv. Qed.

Lemma sum_map_bounds {X : Type} (f : X -> Z) lo hi l :
  Forall (fun x => lo <= f x <= hi) l ->
  lo * Z.of_nat (List.length l) <= sum (map f l) <= hi * Z.of_nat (List.length l).
Proof.
  unfold sum. induction 1 as [|x l Hx Hl IH]; cbn [map fold_right List.length]; [lia|].
  rewrite Nat2Z.inj_succ. lia.
Qed.

(** * The allocation planner *)

Lemma remainder_key_snd s1 s2 v : remainder_key (s1, v) = remainder_key (s2, v).
Proof. reflexivity. Qed.

(** The three kinds of share, in terms of the quantities of the
    allocation. *)
Lemma share_facts c T n :
  0 < c <= T -> T <= 2 ^ 25 -> 0 < n <= 2 ^ 25 ->
  Float64.trunc (exact_share c T n) = Ok (share_floor c T n) /\
  canon (remainder_key (EmptyString, exact_share c T n)) /\
  0 <= share_floor c T n /\
  ((weight c T n = T /\ (2 * IZR T - 1 < 2 * IZR T * share_frac c T n)%R) \/
   (1 <= weight c T n <= T - 1 /\
    (1 < 2 * IZR T * share_frac c T n < 2 * IZR T - 1)%R) \/
   (weight c T n = 0 /\ (2 * IZR T * share_frac c T n < 1)%R)).
Proof.
  intros Hc HT Hn.
  destruct (share_class c T n Hc HT Hn) as (m & e & N & He & Hcl).
  destruct (trunc_nf _ _ _ N) as (Ht & Hk0 & _).
  destruct (frac_canon _ _ _ N He) as [Hcan Hval].
  assert (Ef : share_floor c T n = Z.shiftl m e).
  { unfold share_floor, ifloor. rewrite Ht. reflexivity. }
  assert (Ek : remainder_key (EmptyString, exact_share c T n) =
               Float64.sub (exact_share c T n) (Float64.of_int (Z.shiftl m e))).
  { unfold remainder_key. cbn [snd]. rewrite Ht. reflexivity. }
  unfold share_frac, weight. rewrite Ek, Ef, Hval.
  split; [exact Ht|]. split; [exact Hcan|]. split; [exact Hk0|].
  cbv zeta in Hcl.
  pose proof (Z.div_mod (c * n) T ltac:(lia)) as Hdm.
  pose proof (Z.mod_pos_bound (c * n) T ltac:(lia)) as Hr.
  destruct Hcl as [(H1 & H2 & H3)|[(H1 & H2 & H3)|(H1 & H2 & H3)]].
  - right; left. split; [nia|exact H3].
  - left. split; [nia|exact H3].
  - right; right. split; [nia|exact H3].
Qed.

Lemma slice_to_map {A B : Type} (g : A -> B) l r :
  slice_to (map g l) r = map g (slice_to l r).
Proof.
  unfold slice_to. rewrite length_map. destruct (0 <=? r); apply firstn_map.
Qed.

Lemma counts_of_bound sc T :
  counts_of sc T -> Forall (fun kv => 0 < snd kv <= T) sc.
Proof.
  intros (_ & Hpos & Hsum). subst T. unfold values, sum.
  induction Hpos as [|kv l Hkv Hl IH]; constructor.
  - cbn. assert (0 <= fold_right Z.add 0 (map snd l)); [|lia].
    clear IH. induction Hl; cbn; lia.
  - eapply Forall_impl; [|exact IH]. cbn. intros a Ha. lia.
Qed.

Section Planner.
Variable sc : dict Z.
Variables T n : Z.
Hypothesis Hsc : Forall (fun kv => 0 < snd kv <= T) sc.
Hypothesis HT : T <= 2 ^ 25.
Hypothesis Hn : 0 < n <= 2 ^ 25.

Lemma floor_allocs_ok :
  floor_allocs (exact_allocs sc T n) =
  Ok (map (fun kv => (fst kv, share_floor (snd kv) T n)) sc).
Proof.
  unfold floor_allocs, exact_allocs. pose proof Hsc as H. revert H. generalize sc.
  intros l0 H. induction H as [|kv l Hkv Hl IH]; [reflexivity|].
  cbn [map mapM fst snd]. destruct (share_facts (snd kv) T n Hkv HT Hn) as (Ht & _).
  rewrite Ht, IH. reflexivity.
Qed.

Lemma remainders_ranking :
  remainders (exact_allocs sc T n) =
  map (fun kv => (fst kv, exact_share (snd kv) T n)) (ranking sc T n).
Proof. unfold remainders, exact_allocs, ranking. apply sorted_reverse_map. Qed.

(** The allocation in closed form: the floor, and one more for the keys
    of [top]. *)
Lemma allocation_ok :
  allocation sc T n =
  Ok (map (fun kv => (fst kv, share_floor (snd kv) T n + occ (top sc T n) (fst kv))) sc).
Proof.
  unfold allocation. rewrite floor_allocs_ok. cbn [bind]. f_equal.
  rewrite fold_incr, remainders_ranking, slice_to_map, !map_map. cbn [fst snd].
  unfold values. rewrite map_map. cbn [snd]. reflexivity.
Qed.

Lemma ranking_perm : Permutation (ranking sc T n) sc.
Proof. apply sorted_reverse_perm. Qed.

Lemma floors_bounds :
  T * floors_sum sc T n <= n * sum (values sc) /\
  n * sum (values sc) - T * Z.of_nat (List.length sc) <= T * floors_sum sc T n.
Proof.
  unfold floors_sum, values, sum. pose proof Hsc as H. revert H. generalize sc.
  intros l0 H. induction H as [|kv l Hkv Hl IH]; cbn; [lia|].
  destruct (share_facts (snd kv) T n Hkv HT Hn) as (_ & _ & _ & Hcl).
  unfold weight in Hcl. lia.
Qed.

(** The number of leftover slots is between zero and the number of
    strata, so the slice hands out exactly that many. *)
Lemma deficit_bounds :
  0 < T -> sum (values sc) = T -> 0 <= deficit sc T n <= Z.of_nat (List.length sc).
Proof.
  intros HT0 Hsum. pose proof floors_bounds as [H1 H2]. rewrite Hsum in *.
  unfold deficit. split.
  - assert (floors_sum sc T n <= n); [|lia].
    apply (Z.mul_le_mono_pos_l _ _ T); lia.
  - assert (n - Z.of_nat (List.length sc) <= floors_sum sc T n); [|lia].
    apply (Z.mul_le_mono_pos_l _ _ T); lia.
Qed.

Lemma top_length :
  0 < T -> sum (values sc) = T ->
  Z.of_nat (List.length (top sc T n)) = deficit sc T n.
Proof.
  intros HT0 Hsum. unfold top. rewrite length_map. apply slice_to_length.
  rewrite (Permutation_length ranking_perm). apply deficit_bounds; assumption.
Qed.

Lemma top_incl : incl (top sc T n) (keys sc).
Proof.
  unfold top, keys, slice_to. intros k Hk. apply in_map_iff in Hk as (kv & <- & Hkv).
  apply in_map. apply (Permutation_in _ ranking_perm).
  destruct (0 <=? deficit sc T n); eapply in_firstn; eauto.
Qed.

Lemma allocation_sum allocs :
  0 < T -> NoDup (keys sc) -> sum (values sc) = T ->
  allocation sc T n = Ok allocs -> sum (values allocs) = n.
Proof.
  intros HT0 Hnd Hsum H. rewrite allocation_ok in H. injection H as <-.
  unfold values. rewrite map_map. cbn [snd].
  rewrite sum_map_add.
  replace (map (fun x => occ (top sc T n) (fst x)) sc)
    with (map (occ (top sc T n)) (keys sc)) by (unfold keys; apply map_map).
  rewrite sum_occ, top_length; auto using top_incl.
  unfold deficit, floors_sum. lia.
Qed.

(** *** Who receives the leftover slots *)

Let val (kv : string * Z) : R := share_frac (snd kv) T n.
Let good (kv : string * Z) : Prop := 0 < snd kv <= T.
Let rkey (kv : string * Z) : Float64.float :=
  remainder_key (fst kv, exact_share (snd kv) T n).

Lemma rkey_lt a b :
  good a -> good b -> (Float64.ltb (rkey a) (rkey b) = true <-> (val a < val b)%R).
Proof.
  intros Ga Gb.
  destruct (share_facts (snd a) T n Ga HT Hn) as (_ & Ca & _).
  destruct (share_facts (snd b) T n Gb HT Hn) as (_ & Cb & _).
  apply (ltb_canon _ _ Ca Cb).
Qed.

Lemma good_ranking : Forall good (ranking sc T n).
Proof.
  rewrite Forall_forall in *. intros kv Hkv. apply Hsc.
  apply (Permutation_in _ ranking_perm Hkv).
Qed.

Lemma weight_total :
  sum (values sc) = T ->
  sum (map (fun kv => weight (snd kv) T n) (ranking sc T n)) = T * deficit sc T n.
Proof.
  intros Hsum. rewrite (sum_perm _ _ _ ranking_perm).
  assert (E : sum (map (fun kv => weight (snd kv) T n) sc) =
              n * sum (values sc) - T * floors_sum sc T n).
  { unfold floors_sum, weight, values, sum. clear.
    induction sc as [|kv l IH]; cbn; lia. }
  rewrite E, Hsum. unfold deficit. ring.
Qed.

Lemma NoDup_ranking : NoDup (keys sc) -> NoDup (keys (ranking sc T n)).
Proof.
  intros H. unfold keys. eapply Permutation_NoDup; [|exact H].
  apply Permutation_map, Permutation_sym, ranking_perm.
Qed.

Lemma NoDup_top : NoDup (keys sc) -> NoDup (top sc T n).
Proof.
  intros H. unfold top, slice_to.
  destruct (0 <=? deficit sc T n); rewrite <- firstn_map; apply NoDup_firstn;
    apply NoDup_ranking, H.
Qed.

Lemma top_in s c :
  NoDup (keys sc) -> 0 <= deficit sc T n ->
  In (s, c) (firstn (Z.to_nat (deficit sc T n)) (ranking sc T n)) ->
  occ (top sc T n) s = 1.
Proof.
  intros Hnd Hd Hin. rewrite occ_NoDup by (apply NoDup_top, Hnd).
  destruct (in_dec string_dec s (top sc T n)) as [_|N]; [reflexivity|].
  exfalso. apply N. unfold top. rewrite slice_to_nonneg by assumption.
  apply (in_map fst _ _ Hin).
Qed.

Lemma top_notin s c :
  NoDup (keys sc) -> 0 <= deficit sc T n -> In (s, c) sc ->
  ~ In (s, c) (firstn (Z.to_nat (deficit sc T n)) (ranking sc T n)) ->
  occ (top sc T n) s = 0.
Proof.
  intros Hnd Hd Hsc' Hn'. rewrite occ_NoDup by (apply NoDup_top, Hnd).
  destruct (in_dec string_dec s (top sc T n)) as [I|_]; [|reflexivity].
  exfalso. apply Hn'. unfold top in I. rewrite slice_to_nonneg in I by assumption.
  apply in_map_iff in I as ([s' c'] & E & I). cbn in E. subst s'.
  assert (c' = c); [|subst; exact I].
  apply (NoDup_keys_inj sc s); auto.
  apply (Permutation_in _ ranking_perm). eapply in_firstn; eauto.
Qed.

Lemma occ_top_bounds s : NoDup (keys sc) -> 0 <= occ (top sc T n) s <= 1.
Proof.
  intros Hnd. rewrite occ_NoDup by (apply NoDup_top, Hnd).
  destruct (in_dec string_dec s (top sc T n)); lia.
Qed.

(** A stratum whose floor fell one short of an integral share is
    ranked among the receivers. *)
Lemma short_in_top s c :
  0 < T -> NoDup (keys sc) -> sum (values sc) = T -> In (s, c) sc ->
  weight c T n = T -> occ (top sc T n) s = 1.
Proof.
  intros HT0 Hnd Hsum Hin Hw.
  pose proof (deficit_bounds HT0 Hsum) as [Hd0 _].
  assert (IT : (1 <= IZR T)%R) by (apply IZR_le; lia).
  apply (top_in s c); auto.
  set (P := fun kv : string * Z => (2 * IZR T - 1 < 2 * IZR T * val kv)%R).
  destruct (sorted_reverse_split Float64.ltb rkey val good rkey_lt P sc)
    as (l1 & l2 & E & H1 & H2).
  { intros x. unfold P. destruct (Rlt_le_dec (2 * IZR T - 1) (2 * IZR T * val x)); [left|right]; lra. }
  { unfold P. intros a b Ha Hab. assert (0 < IZR T)%R by (apply IZR_lt; lia). nra. }
  { exact Hsc. }
  change (sorted_reverse Float64.ltb rkey sc) with (ranking sc T n) in E.
  pose proof good_ranking as G. pose proof (weight_total Hsum) as W.
  rewrite E in G, W |- *. apply Forall_app in G as [G1 G2].
  rewrite map_app, sum_app in W.
  assert (W1 : sum (map (fun kv => weight (snd kv) T n) l1) = T * Z.of_nat (List.length l1)).
  { assert (B : Forall (fun kv => T <= weight (snd kv) T n <= T) l1).
    { rewrite Forall_forall in *. intros kv Hkv.
      destruct (share_facts (snd kv) T n (G1 kv Hkv) HT Hn) as (_ & _ & _ & Hcl).
      specialize (H1 kv Hkv). cbv beta delta [P val] in H1.
      destruct Hcl as [[Hc _]|[[_ Hc]|[_ Hc]]]; [lia|exfalso; lra|exfalso; lra]. }
    apply sum_map_bounds in B. lia. }
  assert (W2 : 0 <= sum (map (fun kv => weight (snd kv) T n) l2)).
  { assert (B : Forall (fun kv => 0 <= weight (snd kv) T n <= T) l2).
    { rewrite Forall_forall in *. intros kv Hkv.
      destruct (share_facts (snd kv) T n (G2 kv Hkv) HT Hn) as (_ & _ & _ & Hcl).
      destruct Hcl as [[Hc _]|[[Hc _]|[Hc _]]]; lia. }
    apply sum_map_bounds in B. lia. }
  assert (Hlen : (List.length l1 <= Z.to_nat (deficit sc T n))%nat) by nia.
  rewrite firstn_app. apply in_or_app. left.
  rewrite firstn_all2 by exact Hlen.
  assert (Hr : In (s, c) (l1 ++ l2)).
  { rewrite <- E. apply (Permutation_in _ (Permutation_sym ranking_perm) Hin). }
  apply in_app_or in Hr as [Hr|Hr]; [exact Hr|]. exfalso.
  rewrite Forall_forall in H2. apply (H2 _ Hr). cbv beta delta [P val]. cbn [snd].
  destruct (share_facts c T n (proj1 (Forall_forall _ _) Hsc _ Hin) HT Hn)
    as (_ & _ & _ & Hcl).
  destruct Hcl as [[_ Hc]|[[Hc _]|[Hc _]]]; [exact Hc|lia|lia].
Qed.

(** A stratum whose floor is its integral share is not. *)
Lemma exact_not_in_top s c :
  0 < T -> NoDup (keys sc) -> sum (values sc) = T -> In (s, c) sc ->
  weight c T n = 0 -> occ (top sc T n) s = 0.
Proof.
  intros HT0 Hnd Hsum Hin Hw.
  pose proof (deficit_bounds HT0 Hsum) as [Hd0 _].
  assert (IT : (1 <= IZR T)%R) by (apply IZR_le; lia).
  apply (top_notin s c); auto.
  set (P := fun kv : string * Z => (1 < 2 * IZR T * val kv)%R).
  destruct (sorted_reverse_split Float64.ltb rkey val good rkey_lt P sc)
    as (l1 & l2 & E & H1 & H2).
  { intros x. unfold P. destruct (Rlt_le_dec 1 (2 * IZR T * val x)); [left|right]; lra. }
  { unfold P. intros a b Ha Hab. assert (0 < IZR T)%R by (apply IZR_lt; lia). nra. }
  { exact Hsc. }
  change (sorted_reverse Float64.ltb rkey sc) with (ranking sc T n) in E.
  pose proof good_ranking as G. pose proof (weight_total Hsum) as W.
  rewrite E in G, W |- *. apply Forall_app in G as [G1 G2].
  rewrite map_app, sum_app in W.
  assert (W1 : sum (map (fun kv => weight (snd kv) T n) l1) <= T * Z.of_nat (List.length l1)).
  { assert (B : Forall (fun kv => 0 <= weight (snd kv) T n <= T) l1).
    { rewrite Forall_forall in *. intros kv Hkv.
      destruct (share_facts (snd kv) T n (G1 kv Hkv) HT Hn) as (_ & _ & _ & Hcl).
      destruct Hcl as [[Hc _]|[[Hc _]|[Hc _]]]; lia. }
    apply sum_map_bounds in B. lia. }
  assert (W2 : sum (map (fun kv => weight (snd kv) T n) l2) = 0).
  { apply sum_map_zero. intros kv Hkv. rewrite Forall_forall in *.
    destruct (share_facts (snd kv) T n (G2 kv Hkv) HT Hn) as (_ & _ & _ & Hcl).
    specialize (H2 kv Hkv). cbv beta delta [P val] in H2.
    destruct Hcl as [[_ Hc]|[[_ Hc]|[Hc _]]]; [| |exact Hc]; exfalso; apply H2;
      assert (1 <= IZR T)%R by (apply IZR_le; lia); lra. }
  assert (Hlen : (Z.to_nat (deficit sc T n) <= List.length l1)%nat) by nia.
  intros Hf. rewrite firstn_app in Hf.
  replace (Z.to_nat (deficit sc T n) - List.length l1)%nat with 0%nat in Hf by lia.
  cbn in Hf. rewrite app_nil_r in Hf. apply in_firstn in Hf.
  rewrite Forall_forall in H1. specialize (H1 _ Hf). cbv beta delta [P val] in H1. cbn [snd] in H1.
  destruct (share_facts c T n (proj1 (Forall_forall _ _) Hsc _ Hin) HT Hn)
    as (_ & _ & _ & Hcl).
  destruct Hcl as [[Hc _]|[[Hc _]|[_ Hc]]]; [lia|lia|exfalso; lra].
Qed.

(** The allocation of a stratum stays within one of its exact share. *)
Lemma allocation_close s c :
  0 < T -> NoDup (keys sc) -> sum (values sc) = T -> In (s, c) sc ->
  - T < T * (share_floor c T n + occ (top sc T n) s) - c * n < T.
Proof.
  intros HT0 Hnd Hsum Hin.
  pose proof (occ_top_bounds s Hnd) as Ho.
  destruct (share_facts c T n (proj1 (Forall_forall _ _) Hsc _ Hin) HT Hn)
    as (_ & _ & _ & Hcl).
  destruct Hcl as [[Hc _]|[[Hc _]|[Hc _]]].
  - rewrite (short_in_top s c) by assumption. unfold weight in Hc. lia.
  - unfold weight in Hc. nia.
  - rewrite (exact_not_in_top s c) by assumption. unfold weight in Hc. lia.
Qed.

(** Of two strata with equal sort keys, the one listed first is served
    first. *)
Lemma earlier_first s1 c1 s2 c2 :
  NoDup (keys sc) -> 0 <= deficit sc T n ->
  before (s1, c1) (s2, c2) sc ->
  (share_frac c2 T n <= share_frac c1 T n)%R ->
  occ (top sc T n) s2 = 1 -> occ (top sc T n) s1 = 1.
Proof.
  intros Hnd Hd Hb Hv H2.
  assert (I2 : In (s2, c2) sc).
  { destruct Hb as (l1 & l2 & -> & H). apply in_or_app. right. right. exact H. }
  apply (top_in s1 c1); auto.
  apply (before_firstn _ (s2, c2)).
  - apply NoDup_keys_NoDup, NoDup_ranking, Hnd.
  - apply (sorted_reverse_stable Float64.ltb rkey val good rkey_lt); auto.
  - destruct (in_dec (fun x y : string * Z =>
                        ltac:(decide equality; [apply Z.eq_dec|apply string_dec]))
                     (s2, c2)
                     (firstn (Z.to_nat (deficit sc T n)) (ranking sc T n))) as [I|N]; auto.
    rewrite (top_notin s2 c2) in H2 by assumption. discriminate.
Qed.

End Planner.

(** * Strata tables and drawing *)

Lemma in_unique s l : In s (unique l) <-> In s l.
Proof.
  induction l as [|t l IH]; cbn; [tauto|].
  rewrite filter_In, IH. destruct (String.eqb_spec s t) as [->|N]; cbn; intuition congruence.
Qed.

Lemma NoDup_unique l : NoDup (unique l).
Proof.
  induction l as [|t l IH]; cbn; constructor.
  - rewrite filter_In. rewrite String.eqb_refl. cbn. intros [_ H]. discriminate.
  - apply NoDup_filter, IH.
Qed.

Lemma count_eq_occ s l : count_eq s l = occ l s.
Proof.
  unfold count_eq, occ. f_equal. induction l as [|t l IH]; cbn; [reflexivity|].
  destruct (string_dec t s) as [E|N']; destruct (String.eqb_spec s t) as [E2|N]; cbn;
    try congruence; rewrite IH; reflexivity.
Qed.

Lemma value_counts_perm l :
  Permutation (value_counts l) (map (fun s => (s, count_eq s l)) (unique l)).
Proof.
  unfold value_counts. apply (sorted_reverse_perm Z.ltb snd).
Qed.

Lemma value_counts_counts_of l :
  counts_of (value_counts l) (Z.of_nat (List.length l)).
Proof.
  pose proof (value_counts_perm l) as P. unfold counts_of, keys, values.
  split; [|split].
  - eapply Permutation_NoDup; [apply Permutation_map, Permutation_sym, P|].
    rewrite map_map. cbn. rewrite map_id. apply NoDup_unique.
  - rewrite Forall_forall. intros kv Hkv. apply (Permutation_in _ P) in Hkv.
    apply in_map_iff in Hkv as (s & <- & Hs). cbn.
    apply (proj1 (in_unique _ _)) in Hs.
    unfold count_eq. apply in_split in Hs as (l1 & l2 & ->).
    rewrite filter_app, length_app. cbn. rewrite String.eqb_refl. cbn. lia.
  - rewrite (sum_perm snd _ _ P), map_map. cbn [snd].
    rewrite (map_ext _ (occ l)) by (intros; apply count_eq_occ).
    apply sum_occ; [apply NoDup_unique|]. intros s Hs.
    apply (proj2 (in_unique _ _)), Hs.
Qed.

Lemma value_counts_in s c l :
  In (s, c) (value_counts l) -> c = count_eq s l /\ In s l.
Proof.
  intros H. apply (Permutation_in _ (value_counts_perm l)) in H.
  apply in_map_iff in H as (t & E & Ht). injection E as E1 E2. subst t c.
  split; [reflexivity|]. apply (proj1 (in_unique _ _)), Ht.
Qed.

Lemma len_pool_of df s :
  len (pool_of df s) = count_eq s (map stratum (rows df)).
Proof.
  unfold len, pool_of, count_eq. cbn [rows]. f_equal.
  induction (rows df) as [|r l IH]; cbn; [reflexivity|].
  rewrite (String.eqb_sym s). destruct (String.eqb (stratum r) s); cbn; rewrite IH; reflexivity.
Qed.

(** *** [reset_index] and [take] *)

Lemma rows_reset_index df : rows (reset_index df) = rows df.
Proof. reflexivity. Qed.

Lemma len_reset_index df : len (reset_index df) = len df.
Proof. reflexivity. Qed.

Lemma columns_reset_index df : columns (reset_index df) = columns df.
Proof. reflexivity. Qed.

Lemma take_rows df locs : rows (take df locs) = flat_map (pick (rows df)) locs.
Proof. reflexivity. Qed.

Lemma length_picks {A : Type} (l : list A) locs :
  Forall (fun i => (i < List.length l)%nat) locs ->
  List.length (flat_map (pick l) locs) = List.length locs.
Proof.
  induction 1 as [|i locs Hi _ IH]; cbn; [reflexivity|].
  rewrite length_app, IH. unfold pick.
  destruct (nth_error l i) eqn:E; [reflexivity|].
  apply nth_error_None in E. lia.
Qed.

Lemma in_picks {A : Type} (l : list A) locs x :
  In x (flat_map (pick l) locs) -> exists i, In i locs /\ nth_error l i = Some x.
Proof.
  rewrite in_flat_map. intros (i & Hi & Hx). exists i. split; [exact Hi|].
  unfold pick in Hx. destruct (nth_error l i); [|destruct Hx].
  destruct Hx as [->|[]]. reflexivity.
Qed.

Lemma picks_incl {A : Type} (l : list A) locs : incl (flat_map (pick l) locs) l.
Proof.
  intros x Hx. apply in_picks in Hx as (i & _ & E). eapply nth_error_In; eauto.
Qed.

Lemma NoDup_picks {A B : Type} (f : A -> B) (l : list A) locs :
  NoDup (map f l) -> NoDup locs -> NoDup (map f (flat_map (pick l) locs)).
Proof.
  intros Hl. induction 1 as [|i locs Hi Hnd IH]; cbn; [constructor|].
  rewrite map_app. unfold pick at 1. destruct (nth_error l i) as [r|] eqn:E; cbn; [|exact IH].
  constructor; [|exact IH]. intros Hin. apply in_map_iff in Hin as (r' & Ef & Hr').
  apply in_picks in Hr' as (j & Hj & E').
  assert (i = j); [|subst; contradiction].
  assert (Hlen : (i < List.length (map f l))%nat).
  { rewrite length_map. apply nth_error_Some. congruence. }
  apply (proj1 (NoDup_nth_error (map f l)) Hl i j Hlen).
  rewrite !nth_error_map, E, E'. cbn. congruence.
Qed.

Section Drawing.
Variable rs_choice : Z -> nat -> nat -> list nat.
Hypothesis Hrs : choice_spec rs_choice.

Lemma sample_n_inv df k seed s :
  sample_n rs_choice df k seed = Ok s ->
  0 <= k <= len df /\
  s = take df (rs_choice seed (List.length (rows df)) (Z.to_nat k)).
Proof.
  unfold sample_n. destruct (orb (seed <? 0) (2 ^ 32 <=? seed)); [discriminate|].
  destruct (Z.ltb_spec k 0); [discriminate|].
  destruct (Z.ltb_spec (len df) k); [discriminate|].
  intros E. injection E as <-. split; [lia|reflexivity].
Qed.

Lemma seed_in_range seed :
  0 <= seed < 2 ^ 32 -> orb (seed <? 0) (2 ^ 32 <=? seed) = false.
Proof.
  intros H. apply orb_false_iff. split; [apply Z.ltb_ge|apply Z.leb_gt]; lia.
Qed.

Lemma seed_out_of_range seed :
  seed < 0 \/ 2 ^ 32 <= seed -> orb (seed <? 0) (2 ^ 32 <=? seed) = true.
Proof.
  intros H. apply orb_true_iff. destruct H; [left; apply Z.ltb_lt|right; apply Z.leb_le]; lia.
Qed.

Lemma sample_n_ok df k seed :
  0 <= seed < 2 ^ 32 -> 0 <= k <= len df ->
  sample_n rs_choice df k seed =
  Ok (take df (rs_choice seed (List.length (rows df)) (Z.to_nat k))).
Proof.
  intros Hs H. unfold sample_n. rewrite (seed_in_range seed Hs).
  destruct (Z.ltb_spec k 0); [lia|].
  destruct (Z.ltb_spec (len df) k); [lia|]. reflexivity.
Qed.

Lemma sample_n_bad_seed df k seed :
  seed < 0 \/ 2 ^ 32 <= seed -> sample_n rs_choice df k seed = Raise ValueError.
Proof. intros H. unfold sample_n. rewrite (seed_out_of_range seed H). reflexivity. Qed.

Lemma len_take df seed k :
  0 <= k <= len df ->
  len (take df (rs_choice seed (List.length (rows df)) (Z.to_nat k))) = k.
Proof.
  intros H. unfold len in *. rewrite take_rows.
  destruct (Hrs seed (List.length (rows df)) (Z.to_nat k)) as (Hl & _ & Hb); [lia|].
  rewrite length_picks by exact Hb. lia.
Qed.

Lemma NoDup_take {B : Type} (f : Row -> B) df seed k :
  0 <= k <= len df -> NoDup (map f (rows df)) ->
  NoDup (map f (rows (take df (rs_choice seed (List.length (rows df)) (Z.to_nat k))))).
Proof.
  intros H Hnd. unfold len in H. rewrite take_rows. apply NoDup_picks; auto.
  destruct (Hrs seed (List.length (rows df)) (Z.to_nat k)) as (_ & Hd & _); [lia|exact Hd].
Qed.

Lemma in_pool_of df s r :
  In r (rows (pool_of df s)) <-> In r (rows df) /\ stratum r = s.
Proof.
  unfold pool_of. cbn [rows]. rewrite filter_In.
  destruct (String.eqb_spec (stratum r) s); intuition congruence.
Qed.

Lemma NoDup_map_filter {A B : Type} (f : A -> B) p (l : list A) :
  NoDup (map f l) -> NoDup (map f (filter p l)).
Proof.
  induction l as [|a l IH]; cbn; intros H; [constructor|].
  inversion H as [|? ? Ha Hl]; subst. destruct (p a); cbn; auto.
  constructor; auto. intros Hin. apply Ha.
  apply in_map_iff in Hin as (x & E & Hx). apply filter_In in Hx as [Hx _].
  rewrite <- E. apply in_map, Hx.
Qed.

(** What the loop over the allocation collects. *)
Lemma sampled_rows_inv df seed allocs : forall frames,
  sampled_rows rs_choice df seed allocs = Ok frames ->
  Z.of_nat (List.length (flat_map rows frames)) = capped_total df allocs /\
  (forall r, In r (flat_map rows frames) ->
             In r (rows df) /\ In (stratum r) (keys allocs)) /\
  (NoDup (keys allocs) -> NoDup (map instance_id (rows df)) ->
   NoDup (map instance_id (flat_map rows frames))) /\
  Forall (fun f => columns f = columns df) frames.
Proof.
  unfold capped_total, sum.
  induction allocs as [|[s a] rest IH]; intros frames H; cbn in H.
  - injection H as <-. cbn. split; [reflexivity|]. split; [intros r []|].
    split; [intros; constructor|constructor].
  - destruct (Z.eqb_spec a 0) as [->|Na].
    + destruct (IH frames H) as (I1 & I2 & I3 & I4).
      cbn [map fold_right fst snd keys].
      assert (0 <= len (pool_of df s)) by (unfold len; lia).
      split; [rewrite I1; lia|]. split; [|split; [|exact I4]].
      * intros r Hr. split; [apply I2, Hr|right; apply I2, Hr].
      * intros Hnd. inversion Hnd; subst. apply I3; auto.
    + destruct (sample_n rs_choice (pool_of df s) (Z.min a (len (pool_of df s))) seed)
        as [f|e] eqn:Es; cbn in H; [|discriminate].
      destruct (sampled_rows rs_choice df seed rest) as [more|e] eqn:Er; cbn in H;
        [|discriminate].
      injection H as <-.
      destruct (IH more eq_refl) as (I1 & I2 & I3 & I4).
      apply sample_n_inv in Es as (Hk & ->).
      set (k := Z.min a (len (pool_of df s))) in *.
      assert (Hin : forall r, In r (rows (take (pool_of df s)
                      (rs_choice seed (List.length (rows (pool_of df s))) (Z.to_nat k)))) ->
                    In r (rows df) /\ stratum r = s).
      { intros r Hr. rewrite take_rows in Hr. apply picks_incl in Hr.
        apply in_pool_of in Hr. exact Hr. }
      cbn [flat_map map fold_right fst snd keys].
      split; [|split; [|split]].
      * rewrite length_app, Nat2Z.inj_add, I1.
        pose proof (len_take (pool_of df s) seed k Hk) as L. unfold len in L at 1.
        rewrite L. reflexivity.
      * intros r Hr. apply in_app_or in Hr as [Hr|Hr].
        -- split; [apply Hin, Hr|left; symmetry; apply Hin, Hr].
        -- split; [apply I2, Hr|right; apply I2, Hr].
      * intros Hnd Hid. inversion Hnd as [|? ? Hs Hnd']; subst.
        rewrite map_app. apply NoDup_app.
        -- apply NoDup_take; auto. unfold pool_of. cbn [rows].
           apply NoDup_map_filter, Hid.
        -- apply I3; auto.
        -- intros i Hi1 Hi2.
           apply in_map_iff in Hi1 as (r1 & E1 & Hr1).
           apply in_map_iff in Hi2 as (r2 & E2 & Hr2).
           apply Hin in Hr1 as [Hd1 Hs1]. apply I2 in Hr2 as [Hd2 Hs2].
           assert (r1 = r2).
           { apply (In_nth_error _ _) in Hd1 as (i1 & N1).
             apply (In_nth_error _ _) in Hd2 as (i2 & N2).
             assert (i1 = i2); [|congruence].
             assert (Hlen : (i1 < List.length (map instance_id (rows df)))%nat).
             { rewrite length_map. apply nth_error_Some. congruence. }
             apply (proj1 (NoDup_nth_error _) Hid i1 i2 Hlen).
             rewrite !nth_error_map, N1, N2. cbn. congruence. }
           subst r2. apply Hs. unfold keys in Hs2. rewrite <- Hs1. exact Hs2.
      * constructor; [reflexivity|exact I4].
Qed.

Lemma sampled_rows_ok df seed allocs :
  0 <= seed < 2 ^ 32 ->
  Forall (fun kv => 0 <= snd kv) allocs ->
  exists frames, sampled_rows rs_choice df seed allocs = Ok frames.
Proof.
  intros Hs.
  induction 1 as [|[s a] rest Ha _ [more IH]]; cbn [sampled_rows]; [eexists; reflexivity|].
  destruct (Z.eqb_spec a 0); [eexists; exact IH|].
  assert (0 <= len (pool_of df s)) by (unfold len; lia).
  rewrite (sample_n_ok _ _ _ Hs) by (cbn in Ha; lia). cbn [bind]. rewrite IH. cbn [bind].
  eexists; reflexivity.
Qed.

(** The sampler proper, once the generator of [random] is seeded. *)
Lemma stratified_sample_unfold df n seed w :
  stratified_sample rs_choice df n seed w =
  (allocs <- allocation (value_counts (map stratum (rows df))) (len df) n ;;
   frames <- sampled_rows rs_choice df seed allocs ;;
   merged <- pd_concat frames ;;
   result <- sample_all rs_choice merged seed ;;
   Ok (reset_index result),
   mkWorld (SeededBy seed) (stdout w) (files w) (os w)).
Proof. reflexivity. Qed.

Lemma stratified_sample_inv df n seed w s w' :
  stratified_sample rs_choice df n seed w = (Ok s, w') ->
  exists allocs,
    allocation (value_counts (map stratum (rows df))) (len df) n = Ok allocs /\
    len s = capped_total df allocs /\
    (NoDup (keys allocs) -> NoDup (map instance_id (rows df)) ->
     NoDup (map instance_id (rows s))) /\
    incl (rows s) (rows df).
Proof.
  rewrite stratified_sample_unfold. intros H. injection H as H _.
  destruct (allocation _ _ _) as [allocs|] eqn:Ea; cbn in H; [|discriminate].
  destruct (sampled_rows _ _ _ _) as [frames|] eqn:Ef; cbn in H; [|discriminate].
  destruct (pd_concat frames) as [merged|] eqn:Ec; cbn in H; [|discriminate].
  exists allocs. split; [reflexivity|].
  destruct (sampled_rows_inv _ _ _ _ Ef) as (I1 & I2 & I3 & _).
  assert (Em : rows merged = flat_map rows frames).
  { unfold pd_concat in Ec. destruct frames; [discriminate|]. injection Ec as <-. reflexivity. }
  destruct (sample_all rs_choice merged seed) as [result|] eqn:Er; cbn in H; [|discriminate].
  injection H as <-. unfold sample_all in Er. apply sample_n_inv in Er as (Hk & ->).
  rewrite len_reset_index, rows_reset_index.
  split; [|split].
  - rewrite len_take by exact Hk. unfold len. rewrite Em. exact I1.
  - intros Hnd Hid. apply NoDup_take; [exact Hk|]. rewrite Em. auto.
  - intros r Hr. rewrite take_rows in Hr. apply picks_incl in Hr. rewrite Em in Hr.
    apply I2, Hr.
Qed.

End Drawing.

Section DrawingTotal.
Variable rs_choice : Z -> nat -> nat -> list nat.
Hypothesis Hrs : choice_spec rs_choice.

(** The sampler returns as soon as the allocation has no negative
    count and draws at least one row. *)
Lemma stratified_sample_ok df n seed w allocs :
  0 <= seed < 2 ^ 32 ->
  allocation (value_counts (map stratum (rows df))) (len df) n = Ok allocs ->
  Forall (fun kv => 0 <= snd kv) allocs ->
  0 < capped_total df allocs ->
  exists s,
    stratified_sample rs_choice df n seed w =
      (Ok s, mkWorld (SeededBy seed) (stdout w) (files w) (os w)) /\
    len s = capped_total df allocs.
Proof.
  intros Hs Ha Hpos Hcap. rewrite stratified_sample_unfold, Ha. cbn [bind].
  destruct (sampled_rows_ok rs_choice df seed allocs Hs Hpos) as [frames Ef].
  rewrite Ef. cbn [bind].
  destruct (sampled_rows_inv rs_choice Hrs _ _ _ _ Ef) as (I1 & _).
  destruct frames as [|f frames].
  { cbn in I1. lia. }
  cbn [pd_concat bind]. unfold sample_all.
  set (merged := mkDF (columns f) (flat_map index (f :: frames))
                      (flat_map rows (f :: frames))).
  assert (Hk : 0 <= len merged <= len merged) by (unfold len; lia).
  rewrite (sample_n_ok rs_choice merged (len merged) seed Hs Hk). cbn [bind].
  eexists. split; [reflexivity|].
  rewrite len_reset_index, (len_take rs_choice Hrs merged seed (len merged) Hk).
  unfold len, merged. cbn [rows]. exact I1.
Qed.

End DrawingTotal.

(** The capped total of an allocation over the table of the data set. *)
Lemma capped_total_table df (g : string * Z -> Z) :
  capped_total df (map (fun kv => (fst kv, g kv))
                       (value_counts (map stratum (rows df)))) =
  sum (map (fun kv => Z.min (g kv) (snd kv)) (value_counts (map stratum (rows df)))).
Proof.
  unfold capped_total. rewrite map_map. cbn [fst snd]. f_equal.
  apply map_ext_in. intros [s c] Hin. cbn [fst snd].
  apply value_counts_in in Hin as [-> _]. rewrite len_pool_of. reflexivity.
Qed.

Lemma sum_map_ext_in {X : Type} (f g : X -> Z) l :
  (forall x, In x l -> f x = g x) -> sum (map f l) = sum (map g l).
Proof. intros H. f_equal. apply map_ext_in, H. Qed.

(** *** Drawing every row *)

Lemma perm_flat_map {A B : Type} (f : A -> list B) l l' :
  Permutation l l' -> Permutation (flat_map f l) (flat_map f l').
Proof.
  induction 1; cbn.
  - constructor.
  - apply Permutation_app_head. assumption.
  - rewrite !app_assoc. apply Permutation_app_tail, Permutation_app_comm.
  - etransitivity; eassumption.
Qed.

Lemma picks_seq {A : Type} (l : list A) : forall pre,
  flat_map (pick (pre ++ l)) (seq (List.length pre) (List.length l)) = l.
Proof.
  induction l as [|a l IH]; intros pre; cbn [List.length seq flat_map]; [reflexivity|].
  unfold pick at 1. rewrite nth_error_app2, Nat.sub_diag by lia. cbn [nth_error app].
  f_equal. specialize (IH (pre ++ [a])).
  rewrite <- app_assoc, length_app in IH. cbn in IH.
  rewrite Nat.add_1_r in IH. exact IH.
Qed.

Lemma choice_all_perm rs_choice seed n :
  choice_spec rs_choice -> Permutation (rs_choice seed n n) (seq 0 n).
Proof.
  intros Hrs. destruct (Hrs seed n n (Nat.le_refl n)) as (Hl & Hd & Hb).
  apply NoDup_Permutation_bis; auto.
  - rewrite length_seq, Hl. lia.
  - intros i Hi. rewrite Forall_forall in Hb. apply in_seq. specialize (Hb i Hi). lia.
Qed.

(** Drawing as many rows as a table has returns its rows in some order. *)
Lemma take_all_perm rs_choice seed df :
  choice_spec rs_choice ->
  Permutation (rows (take df (rs_choice seed (List.length (rows df))
                                        (List.length (rows df)))))
              (rows df).
Proof.
  intros Hrs. rewrite take_rows.
  rewrite (perm_flat_map _ _ _ (choice_all_perm rs_choice seed _ Hrs)).
  pose proof (picks_seq (rows df) []) as E. cbn [app List.length] in E.
  rewrite E. reflexivity.
Qed.

Lemma flat_map_nil {A B : Type} (l : list A) : flat_map (fun _ => @nil B) l = [].
Proof. induction l; cbn; auto. Qed.

Lemma flat_map_ext_in' {A B : Type} (f g : A -> list B) l :
  (forall x, In x l -> f x = g x) -> flat_map f l = flat_map g l.
Proof.
  induction l as [|a l IH]; intros H; cbn; [reflexivity|].
  rewrite (H a (or_introl eq_refl)), IH; auto. intros x Hx. apply H. right. exact Hx.
Qed.

(** The strata partition the rows. *)
Lemma strata_partition (l : list Row) : forall ks,
  NoDup ks -> (forall r, In r l -> In (stratum r) ks) ->
  Permutation (flat_map (fun s => filter (fun r => String.eqb (stratum r) s) l) ks) l.
Proof.
  induction l as [|r l IH]; intros ks Hnd Hin.
  - cbn. rewrite flat_map_nil. constructor.
  - assert (Hr : In (stratum r) ks) by (apply Hin; left; reflexivity).
    apply in_split in Hr as (k1 & k2 & ->).
    assert (N1 : ~ In (stratum r) k1).
    { intros H. apply (NoDup_app_disjoint k1 (stratum r :: k2) (stratum r) Hnd H).
      left. reflexivity. }
    assert (N2 : ~ In (stratum r) k2).
    { apply NoDup_app_remove_l in Hnd. inversion Hnd. assumption. }
    assert (E : forall k, ~ In (stratum r) k ->
              flat_map (fun s => filter (fun r0 => String.eqb (stratum r0) s) (r :: l)) k =
              flat_map (fun s => filter (fun r0 => String.eqb (stratum r0) s) l) k).
    { intros k Hk. apply flat_map_ext_in'. intros x Hx. cbn [filter].
      destruct (String.eqb_spec (stratum r) x) as [E'|]; [|reflexivity].
      exfalso. apply Hk. rewrite E'. exact Hx. }
    specialize (IH (k1 ++ stratum r :: k2) Hnd
                   (fun r0 H0 => Hin r0 (or_intror H0))).
    rewrite flat_map_app in *. cbn [flat_map] in *.
    rewrite (E k1 N1), (E k2 N2). cbn [filter]. rewrite String.eqb_refl.
    cbn [app]. rewrite <- Permutation_middle. constructor. exact IH.
Qed.

Lemma sampled_rows_whole rs_choice df seed :
  choice_spec rs_choice -> 0 <= seed < 2 ^ 32 ->
  forall allocs,
    (forall s a, In (s, a) allocs -> 0 < len (pool_of df s) <= a) ->
    exists frames,
      sampled_rows rs_choice df seed allocs = Ok frames /\
      Permutation (flat_map rows frames)
                  (flat_map (fun s => rows (pool_of df s)) (keys allocs)).
Proof.
  intros Hrs Hseed. induction allocs as [|[s a] rest IH]; intros H.
  - exists []. split; [reflexivity|constructor].
  - destruct IH as (more & Em & Pm).
    { intros s' a' H'. apply H. right. exact H'. }
    specialize (H s a (or_introl eq_refl)).
    cbn [sampled_rows]. destruct (Z.eqb_spec a 0); [lia|].
    rewrite Z.min_r by lia.
    rewrite (sample_n_ok rs_choice (pool_of df s) (len (pool_of df s)) seed Hseed) by lia.
    cbn [bind]. rewrite Em. cbn [bind]. eexists. split; [reflexivity|].
    cbn [flat_map keys map fst]. apply Permutation_app; [|exact Pm].
    unfold len. rewrite Nat2Z.id. apply take_all_perm, Hrs.
Qed.

Lemma table_bound df :
  Forall (fun kv => 0 < snd kv <= len df) (value_counts (map stratum (rows df))).
Proof.
  apply counts_of_bound. unfold len. rewrite <- (length_map stratum).
  apply value_counts_counts_of.
Qed.

Lemma table_counts df : counts_of (value_counts (map stratum (rows df))) (len df).
Proof.
  unfold len. rewrite <- (length_map stratum). apply value_counts_counts_of.
Qed.

(** A request for at least as many rows as the data set has draws every
    stratum whole. *)
Lemma whole_sample rs_choice df n seed w :
  choice_spec rs_choice -> 0 <= seed < 2 ^ 32 ->
  0 < len df <= 2 ^ 25 -> len df <= n <= 2 ^ 25 ->
  exists s,
    stratified_sample rs_choice df n seed w =
      (Ok s, mkWorld (SeededBy seed) (stdout w) (files w) (os w)) /\
    Permutation (rows s) (rows df).
Proof.
  intros Hrs Hseed HT Hn.
  set (sc := value_counts (map stratum (rows df))).
  pose proof (table_bound df) as Hb. pose proof (table_counts df) as (Hnd & _ & Hsum).
  fold sc in Hb, Hnd, Hsum. destruct HT as [HT0 HT].
  assert (Hn' : 0 < n <= 2 ^ 25) by lia.
  pose proof (allocation_ok sc (len df) n Hb HT Hn') as Ea.
  set (allocs := map (fun kv : string * Z =>
                        (fst kv, share_floor (snd kv) (len df) n
                                 + occ (top sc (len df) n) (fst kv))) sc) in *.
  assert (Hk : keys allocs = keys sc).
  { unfold allocs, keys. rewrite map_map. reflexivity. }
  assert (Hbig : forall s a, In (s, a) allocs -> 0 < len (pool_of df s) <= a).
  { intros s a Ha. unfold allocs in Ha. apply in_map_iff in Ha as ([s' c] & E & Hin).
    cbn [fst snd] in E. injection E as -> <-.
    pose proof (allocation_close sc (len df) n Hb HT Hn' s c HT0 Hnd Hsum Hin) as [L _].
    pose proof (proj1 (Forall_forall _ _) Hb _ Hin) as Hc. cbn [snd] in Hc.
    destruct (value_counts_in _ _ _ Hin) as [Ec _].
    rewrite len_pool_of, <- Ec. split; [lia|]. nia. }
  destruct (sampled_rows_whole rs_choice df seed Hrs Hseed allocs Hbig)
    as (frames & Ef & Pf).
  assert (Pall : Permutation (flat_map rows frames) (rows df)).
  { rewrite Pf, Hk. apply strata_partition; [exact Hnd|].
    intros r Hr. unfold keys, sc.
    apply (Permutation_in _ (Permutation_map fst
             (Permutation_sym (value_counts_perm (map stratum (rows df)))))).
    rewrite map_map. cbn [fst]. rewrite map_id. apply in_unique.
    apply in_map, Hr. }
  rewrite stratified_sample_unfold. fold sc. rewrite Ea. cbn [bind].
  rewrite Ef. cbn [bind].
  destruct frames as [|f frames].
  { apply Permutation_length in Pall. cbn in Pall. unfold len in HT0. lia. }
  cbn [pd_concat bind]. unfold sample_all.
  set (merged := mkDF (columns f) (flat_map index (f :: frames))
                      (flat_map rows (f :: frames))).
  rewrite (sample_n_ok rs_choice merged (len merged) seed Hseed) by (unfold len; lia).
  cbn [bind]. eexists. split; [reflexivity|].
  rewrite rows_reset_index. unfold len. rewrite Nat2Z.id.
  rewrite (take_all_perm rs_choice seed merged Hrs). exact Pall.
Qed.

(** * The console and the files *)

(** ** Strings and files *)

Lemma append_nil_r s : (s ++ "")%string = s.
Proof. induction s as [|c s IH]; cbn; [reflexivity|]. rewrite IH. reflexivity. Qed.

Lemma append_assoc' (a b c : string) : ((a ++ b) ++ c = a ++ (b ++ c))%string.
Proof. induction a as [|x a IH]; cbn; [reflexivity|]. rewrite IH. reflexivity. Qed.

Lemma concat_empty_cons x l :
  String.concat EmptyString (x :: l) = (x ++ String.concat EmptyString l)%string.
Proof. destruct l; cbn; [rewrite append_nil_r|]; reflexivity. Qed.

Lemma file_of_lines_cons a ls :
  file_of_lines (a :: ls) = ((a ++ String newline EmptyString) ++ file_of_lines ls)%string.
Proof. unfold file_of_lines. cbn [map]. apply concat_empty_cons. Qed.

Lemma lookup_file_set_same fs k c :
  lookup_file ((k, c) :: filter (fun f => negb (String.eqb (fst f) k)) fs) k = Some c.
Proof. unfold lookup_file. cbn. rewrite String.eqb_refl. reflexivity. Qed.

Lemma find_filter_other {A : Type} (f g : A -> bool) l :
  (forall x, f x = true -> g x = true) ->
  find f (filter g l) = find f l.
Proof.
  intros H. induction l as [|a l IH]; cbn; [reflexivity|].
  destruct (g a) eqn:Eg; cbn.
  - destruct (f a); [reflexivity|exact IH].
  - destruct (f a) eqn:Ef; [rewrite (H a Ef) in Eg; discriminate|exact IH].
Qed.

Lemma lookup_file_set_other fs k c k' :
  k' <> k ->
  lookup_file ((k, c) :: filter (fun f => negb (String.eqb (fst f) k)) fs) k' =
  lookup_file fs k'.
Proof.
  intros H. unfold lookup_file. cbn [find fst].
  destruct (String.eqb_spec k k') as [E|_]; [contradiction H; auto|].
  rewrite find_filter_other; [reflexivity|].
  intros [a b] E. cbn in E |- *. apply String.eqb_eq in E. subst a.
  destruct (String.eqb_spec k' k); [contradiction|reflexivity].
Qed.

Lemma lookup_file_append_same fs k s :
  lookup_file (map (fun f => if String.eqb (fst f) k
                             then (fst f, (snd f ++ s)%string) else f) fs) k =
  option_map (fun c => (c ++ s)%string) (lookup_file fs k).
Proof.
  unfold lookup_file. induction fs as [|[a b] fs IH]; cbn [map find fst snd]; [reflexivity|].
  destruct (String.eqb_spec a k) as [->|N]; cbn [fst].
  - rewrite String.eqb_refl. reflexivity.
  - destruct (String.eqb_spec a k); [contradiction|]. exact IH.
Qed.

Lemma lookup_file_append_other fs k s k' :
  k' <> k ->
  lookup_file (map (fun f => if String.eqb (fst f) k
                             then (fst f, (snd f ++ s)%string) else f) fs) k' =
  lookup_file fs k'.
Proof.
  intros H. unfold lookup_file.
  induction fs as [|[a b] fs IH]; cbn [map find fst snd]; [reflexivity|].
  destruct (String.eqb_spec a k) as [->|N]; cbn [fst].
  - destruct (String.eqb_spec k k'); [contradiction H; auto|]. exact IH.
  - destruct (String.eqb a k'); [reflexivity|exact IH].
Qed.

(** ** The steps of the program *)

(** What [print] does to the process. *)
Lemma print_inv s w r w' :
  print s w = (r, w') ->
  files w' = files w /\ os w' = os w /\ py_random w' = py_random w /\
  ((r = Ok tt /\ stdout w' = stdout w ++ [s]) \/ (exists e, r = Raise e /\ w' = w)).
Proof.
  unfold print. destruct (os_print (os w) s) as [[]|e]; intros H; injection H as <- <-.
  - cbn. repeat split. left. auto.
  - repeat split. right. eauto.
Qed.

Lemma print_ok s w :
  os_print (os w) s = Ok tt ->
  print s w = (Ok tt, mkWorld (py_random w) (stdout w ++ [s]) (files w) (os w)).
Proof. intros H. unfold print. rewrite H. reflexivity. Qed.

(** What [open] for writing does to the process. *)
Lemma open_w_inv path w r w' :
  open_w path w = (r, w') ->
  os w' = os w /\ stdout w' = stdout w /\
  ((r = Ok tt /\
    lookup_file (files w') (os_realpath (os w) path) = Some EmptyString /\
    forall file, file <> os_realpath (os w) path ->
                 lookup_file (files w') file = lookup_file (files w) file) \/
   (exists e, r = Raise e /\ w' = w)).
Proof.
  unfold open_w. destruct (os_open (os w) path) as [[]|e]; intros H; injection H as <- <-.
  - cbn [os stdout files]. split; [reflexivity|]. split; [reflexivity|]. left.
    split; [reflexivity|]. split; [apply lookup_file_set_same|].
    intros file Hf. apply lookup_file_set_other, Hf.
  - split; [reflexivity|]. split; [reflexivity|]. right. eauto.
Qed.

(** What [write] does to the process. *)
Lemma f_write_inv path s w :
  fst (f_write path s w) = Ok tt /\
  os (snd (f_write path s w)) = os w /\
  stdout (snd (f_write path s w)) = stdout w /\
  lookup_file (files (snd (f_write path s w))) (os_realpath (os w) path) =
    option_map (fun c => (c ++ s)%string)
               (lookup_file (files w) (os_realpath (os w) path)) /\
  forall file, file <> os_realpath (os w) path ->
    lookup_file (files (snd (f_write path s w))) file = lookup_file (files w) file.
Proof.
  unfold f_write. cbn [fst snd os stdout files].
  split; [reflexivity|]. split; [reflexivity|]. split; [reflexivity|].
  split; [apply lookup_file_append_same|].
  intros file Hf. apply lookup_file_append_other, Hf.
Qed.

(** The loop that writes the records: every record that was serialised
    is in the file, in order; the loop stops at the first record that
    [json.dumps] refuses. *)
Lemma write_records_inv (g : Z * Row -> result string) path l : forall w r w',
  for_each l (fun ir => line <~ lift (g ir) ;;
                        f_write path (line ++ String newline EmptyString)) w = (r, w') ->
  os w' = os w /\ stdout w' = stdout w /\
  (forall file, file <> os_realpath (os w) path ->
                lookup_file (files w') file = lookup_file (files w) file) /\
  exists lines,
    lookup_file (files w') (os_realpath (os w) path) =
      option_map (fun c => (c ++ file_of_lines lines)%string)
                 (lookup_file (files w) (os_realpath (os w) path)) /\
    ((r = Ok tt /\ mapM g l = Ok lines) \/
     (exists e l1 x l2, r = Raise e /\ l = l1 ++ x :: l2 /\
                        mapM g l1 = Ok lines /\ g x = Raise e)).
Proof.
  induction l as [|a l IH]; intros w r w' H.
  - cbn in H. injection H as <- <-. split; [reflexivity|]. split; [reflexivity|].
    split; [reflexivity|]. exists []. split.
    + destruct (lookup_file _ _); cbn; [rewrite append_nil_r|]; reflexivity.
    + left. auto.
  - cbn [for_each] in H. unfold bindIO at 1 2 in H. unfold lift at 1 in H.
    destruct (g a) as [line|e] eqn:Eg.
    + destruct (f_write_inv path (line ++ String newline EmptyString) w)
        as (F1 & F2 & F3 & F4 & F5).
      destruct (f_write path (line ++ String newline EmptyString) w) as [r1 w1] eqn:Ew.
      cbn [fst snd] in *. subst r1.
      destruct (IH w1 r w' H) as (I1 & I2 & I3 & lines & I4 & I5).
      rewrite F2 in *. split; [congruence|]. split; [congruence|]. split.
      * intros file Hf. rewrite (I3 file Hf). apply F5, Hf.
      * exists (line :: lines). split.
        -- rewrite I4, F4. destruct (lookup_file (files w) _); cbn [option_map];
             [|reflexivity].
           rewrite file_of_lines_cons, append_assoc'. reflexivity.
        -- destruct I5 as [[-> Em]|(e & l1 & x & l2 & -> & -> & Em & Ex)].
           ++ left. split; [reflexivity|]. cbn [mapM]. rewrite Eg. cbn [bind].
              rewrite Em. reflexivity.
           ++ right. exists e, (a :: l1), x, l2. split; [reflexivity|].
              split; [reflexivity|]. split; [|exact Ex]. cbn [mapM]. rewrite Eg. cbn [bind].
              rewrite Em. reflexivity.
    + injection H as <- <-. split; [reflexivity|]. split; [reflexivity|].
      split; [reflexivity|]. exists []. split.
      * destruct (lookup_file _ _); cbn; [rewrite append_nil_r|]; reflexivity.
      * right. exists e, [], a, l. auto.
Qed.

(** ** [normalize_difficulty] *)

(** The two ways in which [normalize_difficulty] returns a table. *)
Lemma normalize_difficulty_inv df w df1 w1 :
  normalize_difficulty df w = (Ok df1, w1) ->
  (has_column df "difficulty" = true /\ w1 = w /\
   df1 = mkDF (columns df) (index df)
           (map (fun r => mkRow (instance_id r) (repo r) (patch r)
                                (lower (strip (difficulty r)))
                                (patch_lines r) (stratum r) (extra r)) (rows df))) \/
  (has_column df "difficulty" = false /\ has_column df "patch" = true /\
   os_print (os w) derive_notice = Ok tt /\
   w1 = mkWorld (py_random w) (stdout w ++ [derive_notice]) (files w) (os w) /\
   df1 = mkDF (add_column (add_column (columns df) "patch_lines") "difficulty") (index df)
           (map (fun r => mkRow (instance_id r) (repo r) (patch r)
                                (difficulty_of_lines (count_newlines (patch r)))
                                (count_newlines (patch r)) (stratum r) (extra r))
                (rows df))).
Proof.
  unfold normalize_difficulty. destruct (has_column df "difficulty") eqn:Ed; cbn [negb].
  - unfold ret. intros H. injection H as <- <-. left. auto.
  - unfold bindIO, print.
    destruct (os_print (os w) _) as [[]|e] eqn:Ep; [|discriminate].
    destruct (has_column df "patch") eqn:Epa; cbn [negb]; unfold lift, ret;
      [|discriminate].
    intros H. injection H as <- <-. right. rewrite map_map. cbn [patch patch_lines
      instance_id repo difficulty stratum extra]. auto.
Qed.

Lemma normalize_difficulty_derive df w :
  has_column df "difficulty" = false -> has_column df "patch" = true ->
  os_print (os w) derive_notice = Ok tt ->
  normalize_difficulty df w =
    (Ok (mkDF (add_column (add_column (columns df) "patch_lines") "difficulty") (index df)
           (map (fun r => mkRow (instance_id r) (repo r) (patch r)
                                (difficulty_of_lines (count_newlines (patch r)))
                                (count_newlines (patch r)) (stratum r) (extra r))
                (rows df))),
     mkWorld (py_random w) (stdout w ++ [derive_notice]) (files w) (os w)).
Proof.
  intros Hd Hp Hpr. unfold normalize_difficulty. rewrite Hd, Hp. cbn [negb].
  unfold bindIO. fold derive_notice. rewrite (print_ok _ _ Hpr). unfold ret.
  rewrite map_map. reflexivity.
Qed.

(** [normalize_difficulty] leaves the files alone. *)
Lemma normalize_difficulty_quiet df w :
  files (snd (normalize_difficulty df w)) = files w /\
  os (snd (normalize_difficulty df w)) = os w.
Proof.
  unfold normalize_difficulty. destruct (negb (has_column df "difficulty")); [|split; reflexivity].
  unfold bindIO, print. destruct (os_print (os w) _) as [[]|e]; [|split; reflexivity].
  destruct (negb (has_column df "patch")); split; reflexivity.
Qed.

(** The console output and the result of [normalize_difficulty] and of
    [print] do not depend on the generator of [random], which they leave
    as it is. *)
Lemma normalize_difficulty_gen df out fl o :
  exists r out', forall g,
    normalize_difficulty df (mkWorld g out fl o) = (r, mkWorld g out' fl o).
Proof.
  unfold normalize_difficulty. destruct (negb (has_column df "difficulty")).
  - unfold bindIO, print. cbn [os stdout files py_random].
    destruct (os_print o _) as [[]|e].
    + destruct (negb (has_column df "patch")); eexists; eexists; intros g; reflexivity.
    + eexists. eexists. intros g. reflexivity.
  - eexists. eexists. intros g. reflexivity.
Qed.

Lemma print_gen s out fl o :
  exists r out', forall g, print s (mkWorld g out fl o) = (r, mkWorld g out' fl o).
Proof.
  unfold print. cbn [os stdout files py_random].
  destruct (os_print o s) as [[]|e]; eexists; eexists; intros g; reflexivity.
Qed.

(** ** [main] *)

(** A run of [main] either leaves the files as they were, which is so
    whenever the run fails before it starts saving and in every dry run,
    or it has normalised, sampled, built and printed the report and gone
    on to save. *)
Lemma main_cases rs_choice format_f1 json_dumps out_dir loaded args w :
  let r := main rs_choice format_f1 json_dumps out_dir loaded args w in
  ((fst r <> Ok tt \/ arg_dry_run args = true) /\
   files (snd r) = files w /\ os (snd r) = os w) \/
  (arg_dry_run args = false /\
   exists df sample report w2,
     fst (normalize_difficulty loaded w) = Ok df /\
     fst (stratified_sample rs_choice (compute_strata df) (arg_n args) (arg_seed args) w)
       = Ok sample /\
     build_stats_report format_f1 (compute_strata df) sample (arg_n args) = Ok report /\
     files w2 = files w /\ os w2 = os w /\
     In (String newline report) (stdout w2) /\
     r = save json_dumps out_dir args sample report w2).
Proof.
  cbv zeta. unfold main, bindIO.
  pose proof (normalize_difficulty_quiet loaded w) as [Qf Qo].
  destruct (normalize_difficulty loaded w) as [[df|e] w1] eqn:En; cbn [fst snd] in *;
    [|left; split; [left; discriminate|split; assumption]].
  match goal with |- context [print ?m w1] =>
    destruct (print m w1) as [r1 w1'] eqn:Ep;
    apply print_inv in Ep as (P1 & P2 & _ & Ep) end.
  destruct Ep as [[-> _]|(e & -> & ->)];
    [|left; split; [left; discriminate|split; assumption]].
  rewrite stratified_sample_unfold.
  pose proof (stratified_sample_unfold rs_choice (compute_strata df) (arg_n args)
                (arg_seed args) w) as Ew.
  apply (f_equal fst) in Ew. cbn [fst] in Ew.
  match type of Ew with _ = ?res => destruct res as [sample|e] eqn:Es end;
    [|left; split; [left; discriminate|cbn [snd files os]; split; congruence]].
  unfold lift.
  destruct (build_stats_report format_f1 (compute_strata df) sample (arg_n args))
    as [report|e] eqn:Er;
    [|left; split; [left; discriminate|cbn [snd files os]; split; congruence]].
  match goal with |- context [print ?m ?w0] =>
    destruct (print m w0) as [r2 w2] eqn:Ep2;
    apply print_inv in Ep2 as (R1 & R2 & _ & Ep2) end.
  cbn [files os stdout] in R1, R2.
  destruct Ep2 as [[-> Hout]|(e & -> & ->)];
    [|left; split; [left; discriminate|cbn [snd files os]; split; congruence]].
  destruct (arg_dry_run args) eqn:Ed.
  - left. split; [right; reflexivity|].
    match goal with |- context [print ?m w2] =>
      destruct (print m w2) as [r3 w3] eqn:Ep3;
      apply print_inv in Ep3 as (S1 & S2 & _) end.
    cbn [snd]. split; congruence.
  - right. split; [reflexivity|]. exists df, sample, report, w2.
    split; [reflexivity|]. split; [exact Ew|]. split; [exact Er|].
    split; [congruence|]. split; [congruence|]. split.
    + rewrite Hout. apply in_or_app. right. left. reflexivity.
    + reflexivity.
Qed.

(** What saving does: it touches the two output files only; when it
    returns, the report file holds the report, the problems file holds the
    serialised records unless it is the report file itself, and the console
    ends with the three messages. *)
Lemma save_inv json_dumps out_dir args sample report w r w' :
  save json_dumps out_dir args sample report w = (r, w') ->
  os w' = os w /\
  (exists more, stdout w' = stdout w ++ more) /\
  (forall file,
     file <> os_realpath (os w) (out_path out_dir args) ->
     file <> os_realpath (os w) (stats_path out_dir) ->
     lookup_file (files w') file = lookup_file (files w) file) /\
  (r = Ok tt ->
   exists lines,
     mapM (fun ir => json_dumps (record_of (keep_of sample) (snd ir))) (iterrows sample)
       = Ok lines /\
     lookup_file (files w') (os_realpath (os w) (stats_path out_dir)) = Some report /\
     (os_realpath (os w) (out_path out_dir args) <>
      os_realpath (os w) (stats_path out_dir) ->
      lookup_file (files w') (os_realpath (os w) (out_path out_dir args))
        = Some (file_of_lines lines)) /\
     In (String newline ("Saved " ++ str_of_int (arg_n args) ++ " problems → "
                         ++ out_path out_dir args))%string (stdout w')).
Proof.
  unfold save. set (out := out_path out_dir args). set (stats := stats_path out_dir).
  set (g := fun ir : Z * Row => json_dumps (record_of (keep_of sample) (snd ir))).
  unfold bindIO at 1.
  destruct (open_w out w) as [r1 w1] eqn:E1.
  apply open_w_inv in E1 as (A1 & A2 & [(-> & A3 & A4)|(e & -> & ->)]).
  2:{ intros H. injection H as <- <-. split; [reflexivity|]. split.
      - exists []. rewrite app_nil_r. reflexivity.
      - split; [reflexivity|discriminate]. }
  unfold bindIO at 1.
  match goal with |- context [for_each ?l ?b w1] =>
    destruct (for_each l b w1) as [r2 w2] eqn:E2 end.
  apply (write_records_inv g out) in E2 as (B1 & B2 & B3 & lines & B4 & B5).
  rewrite A1 in B3, B4. rewrite A3 in B4. cbn [option_map append] in B4.
  destruct B5 as [[-> Em]|(e & l1 & x & l2 & -> & _)].
  2:{ intros H. injection H as <- <-. split; [congruence|]. split.
      - exists []. rewrite app_nil_r. congruence.
      - split; [|discriminate]. intros file H1 H2. rewrite (B3 file H1). apply A4, H1. }
  unfold bindIO at 1.
  destruct (open_w stats w2) as [r3 w3] eqn:E3.
  apply open_w_inv in E3 as (C1 & C2 & [(-> & C3 & C4)|(e & -> & ->)]).
  2:{ intros H. injection H as <- <-. split; [congruence|]. split.
      - exists []. rewrite app_nil_r. congruence.
      - split; [|discriminate]. intros file H1 H2. rewrite (B3 file H1). apply A4, H1. }
  assert (Ow2 : os w2 = os w) by congruence. rewrite Ow2 in C3, C4.
  unfold bindIO at 1.
  destruct (f_write_inv stats report w3) as (D0 & D1 & D2 & D3 & D4).
  destruct (f_write stats report w3) as [r4 w4] eqn:E4. cbn [fst snd] in *. subst r4.
  assert (Ow3 : os w3 = os w) by congruence. rewrite Ow3 in D3, D4.
  rewrite C3 in D3. cbn [option_map append] in D3.
  assert (Hother : forall file, file <> os_realpath (os w) out ->
                                file <> os_realpath (os w) stats ->
                                lookup_file (files w4) file = lookup_file (files w) file).
  { intros file H1 H2. rewrite (D4 file H2), (C4 file H2), (B3 file H1). apply A4, H1. }
  assert (Hout : os_realpath (os w) out <> os_realpath (os w) stats ->
                 lookup_file (files w4) (os_realpath (os w) out) = Some (file_of_lines lines)).
  { intros N. rewrite (D4 _ N), (C4 _ N). exact B4. }
  assert (Hstd : stdout w4 = stdout w) by congruence.
  assert (Ow4 : os w4 = os w) by congruence.
  clear - Hother Hout Hstd Ow4 D3 Em.
  unfold bindIO.
  match goal with |- context [print ?m w4] =>
    destruct (print m w4) as [r5 w5] eqn:E5;
    apply print_inv in E5 as (F1 & F2 & _ & E5) end.
  destruct E5 as [[-> F3]|(e & -> & ->)].
  2:{ intros H. injection H as <- <-. split; [exact Ow4|]. split.
      - exists []. rewrite app_nil_r. exact Hstd.
      - split; [exact Hother|discriminate]. }
  match goal with |- context [print ?m w5] =>
    destruct (print m w5) as [r6 w6] eqn:E6;
    apply print_inv in E6 as (G1 & G2 & _ & E6) end.
  destruct E6 as [[-> G3]|(e & -> & ->)].
  2:{ intros H. injection H as <- <-. split; [congruence|]. split.
      - eexists. rewrite F3, Hstd. reflexivity.
      - split; [|discriminate]. intros file H1 H2. rewrite F1. apply Hother; assumption. }
  match goal with |- context [print ?m w6] =>
    destruct (print m w6) as [r7 w7] eqn:E7;
    apply print_inv in E7 as (K1 & K2 & _ & E7) end.
  intros H. injection H as <- <-.
  split; [destruct E7 as [[_ _]|(e & _ & ->)]; congruence|]. split.
  - destruct E7 as [[_ K3]|(e & _ & ->)].
    + eexists. rewrite K3, G3, F3, Hstd, <- !app_assoc. reflexivity.
    + eexists. rewrite G3, F3, Hstd, <- !app_assoc. reflexivity.
  - split.
    + intros file H1 H2. rewrite K1, G1, F1. apply Hother; assumption.
    + intros Hr. destruct E7 as [[_ K3]|(e & He & _)]; [|rewrite He in Hr; discriminate].
      exists lines. split; [exact Em|]. split; [rewrite K1, G1, F1; exact D3|]. split.
      * intros N. rewrite K1, G1, F1. apply Hout, N.
      * rewrite K3, G3, F3. apply in_or_app. left. apply in_or_app. left.
        apply in_or_app. right. left. reflexivity.
Qed.

(** * The specification, claim by claim *)

Lemma choice_first_spec : choice_spec choice_first.
Proof.
  intros seed size k Hk. unfold choice_first. split; [apply length_seq|].
  split; [apply seq_NoDup|]. rewrite Forall_forall. intros i Hi.
  apply in_seq in Hi. lia.
Qed.

Lemma difficulty_of_lines_spec n :
  (n < 50 -> difficulty_of_lines n = "easy"%string) /\
  (50 <= n < 150 -> difficulty_of_lines n = "medium"%string) /\
  (150 <= n -> difficulty_of_lines n = "hard"%string).
Proof.
  unfold difficulty_of_lines.
  destruct (Z.ltb_spec n 50); destruct (Z.ltb_spec n 150); repeat split; intros;
    try lia; reflexivity.
Qed.

Lemma ascii_newline c : Ascii.eqb c newline = Nat.eqb (nat_of_ascii c) 10.
Proof. destruct c as [[] [] [] [] [] [] [] []]; reflexivity. Qed.

(** [str.count("\n")] counts the line breaks. *)
Lemma count_newlines_line_breaks s : count_newlines s = line_breaks s.
Proof.
  unfold line_breaks.
  induction s as [|c s IH]; cbn [count_newlines list_ascii_of_string filter];
    [reflexivity|].
  rewrite IH, ascii_newline.
  destruct (Nat.eqb (nat_of_ascii c) 10); cbn [List.length]; lia.
Qed.

(** C10.  When the table has no [difficulty] column but has a [patch]
    column, and the console takes the notice, [normalize_difficulty]
    returns a table in which every row is labelled from the number of line
    breaks of its patch: fewer than 50 is "easy", 50 to 149 is "medium",
    150 or more is "hard". *)
Theorem normalize_difficulty_derives (df : DataFrame) (w : World)
  (Hno : has_column df "difficulty" = false)
  (Hpatch : has_column df "patch" = true)
  (Hprint : os_print (os w) derive_notice = Ok tt) :
  exists df' w',
    normalize_difficulty df w = (Ok df', w') /\
    Forall2 labelled (rows df) (rows df').
Proof.
  rewrite (normalize_difficulty_derive df w Hno Hpatch Hprint).
  eexists. eexists. split; [reflexivity|]. cbn [rows].
  induction (rows df) as [|r l IH]; cbn [map]; constructor; [|exact IH].
  unfold labelled. cbn [patch instance_id repo difficulty].
  split; [reflexivity|]. split; [reflexivity|]. split; [reflexivity|].
  cbv zeta. rewrite <- count_newlines_line_breaks. apply difficulty_of_lines_spec.
Qed.

Lemma normalize_difficulty_derives_witness :
  has_column df_raw "difficulty" = false /\ has_column df_raw "patch" = true /\
  os_print (os world0) derive_notice = Ok tt /\
  fst (normalize_difficulty df_raw world0) = Ok df_derived /\
  exists df' w',
    normalize_difficulty df_raw world0 = (Ok df', w') /\
    Forall2 labelled (rows df_raw) (rows df').
Proof.
  split; [reflexivity|]. split; [reflexivity|]. split; [reflexivity|].
  split; [vm_compute; reflexivity|].
  exact (normalize_difficulty_derives df_raw world0 eq_refl eq_refl eq_refl).
Defined.

Lemma stratum_key_inj r1 : forall r2 d1 d2,
  has_bar r1 = false -> has_bar r2 = false ->
  stratum_key r1 d1 = stratum_key r2 d2 -> r1 = r2 /\ d1 = d2.
Proof.
  unfold stratum_key.
  induction r1 as [|c r1 IH]; intros [|c2 r2] d1 d2 H1 H2 E; cbn in *.
  - injection E; auto.
  - injection E as E1 E2. subst c2. destruct r2 as [|c3 r3]; cbn in *.
    + discriminate.
    + injection E2 as E2 _. subst c3. cbn in H2. discriminate.
  - injection E as E1 E2. subst c. destruct r1 as [|c3 r3]; cbn in *.
    + discriminate.
    + injection E2 as E2 _. subst c3. cbn in H1. discriminate.
  - injection E as E1 E2. subst c2.
    apply orb_false_iff in H1 as [_ H1]. apply orb_false_iff in H2 as [_ H2].
    destruct (IH r2 d1 d2 H1 H2 E2); subst; auto.
Qed.

Lemma compute_strata_row df r :
  In r (rows (compute_strata df)) -> stratum r = stratum_key (repo r) (difficulty r).
Proof.
  unfold compute_strata. cbn [rows]. intros H. apply in_map_iff in H as (r0 & <- & _).
  reflexivity.
Qed.

(** C9, as the code has it.  Two rows whose repository labels do not
    contain the character ['|'] get the same stratum key exactly when their
    repository labels are equal and their difficulty labels are equal. *)
Theorem stratum_key_injective (df : DataFrame) (r1 r2 : Row)
  (H1 : In r1 (rows (compute_strata df))) (H2 : In r2 (rows (compute_strata df)))
  (B1 : has_bar (repo r1) = false) (B2 : has_bar (repo r2) = false) :
  stratum r1 = stratum r2 <-> repo r1 = repo r2 /\ difficulty r1 = difficulty r2.
Proof.
  rewrite (compute_strata_row df r1 H1), (compute_strata_row df r2 H2). split.
  - apply stratum_key_inj; assumption.
  - intros [-> ->]. reflexivity.
Qed.

Lemma stratum_key_injective_witness :
  let r1 := row_of "a1" "A" "easy" in
  let r2 := row_of "b1" "B" "hard" in
  In r1 (rows (compute_strata df_ten)) /\ In r2 (rows (compute_strata df_ten)) /\
  has_bar (repo r1) = false /\ has_bar (repo r2) = false /\
  (stratum r1 = stratum r2 <-> repo r1 = repo r2 /\ difficulty r1 = difficulty r2).
Proof.
  cbv zeta.
  assert (I1 : In (row_of "a1" "A" "easy") (rows (compute_strata df_ten)))
    by (left; reflexivity).
  assert (I2 : In (row_of "b1" "B" "hard") (rows (compute_strata df_ten)))
    by (do 3 right; left; reflexivity).
  split; [exact I1|]. split; [exact I2|]. split; [reflexivity|]. split; [reflexivity|].
  exact (stratum_key_injective df_ten _ _ I1 I2 eq_refl eq_refl).
Defined.

(** C9, as the specification states it, fails: two rows with non-empty
    labels that differ get the same stratum key when a label contains the
    separator. *)
Lemma stratum_key_not_injective :
  let r1 := nth 0 (rows (compute_strata df_bar)) (row_of "" "" "") in
  let r2 := nth 1 (rows (compute_strata df_bar)) (row_of "" "" "") in
  repo r1 <> EmptyString /\ difficulty r1 <> EmptyString /\
  repo r2 <> EmptyString /\ difficulty r2 <> EmptyString /\
  stratum r1 = stratum r2 /\
  ~ (repo r1 = repo r2 /\ difficulty r1 = difficulty r2).
Proof.
  cbn. repeat split; try discriminate. intros [H _]. discriminate.
Qed.

Lemma allocation_keys sc T n allocs :
  allocation sc T n = Ok allocs -> keys allocs = keys sc.
Proof.
  unfold allocation. destruct (floor_allocs (exact_allocs sc T n)) as [floors|] eqn:E;
    cbn; [|discriminate].
  intros H. injection H as <-. rewrite fold_incr. unfold keys. rewrite map_map. cbn [fst].
  clear - E. unfold floor_allocs, exact_allocs in E. revert floors E.
  induction sc as [|kv l IH]; cbn; intros floors E.
  - injection E as <-. reflexivity.
  - destruct (Float64.trunc (exact_share (snd kv) T n)); cbn in E; [|discriminate].
    destruct (mapM _ _) as [fl|] eqn:El; cbn in E; [|discriminate].
    injection E as <-. cbn. f_equal. apply IH. reflexivity.
Qed.

Lemma allocation_entry sc T n allocs s c a :
  Forall (fun kv => 0 < snd kv <= T) sc -> T <= 2 ^ 25 -> 0 < n <= 2 ^ 25 ->
  NoDup (keys sc) ->
  allocation sc T n = Ok allocs -> In (s, c) sc -> In (s, a) allocs ->
  a = share_floor c T n + occ (top sc T n) s.
Proof.
  intros Hsc HT Hn Hnd H Hc Ha. rewrite (allocation_ok sc T n Hsc HT Hn) in H.
  injection H as <-. apply in_map_iff in Ha as ([s' c'] & E & Hin). cbn in E.
  injection E as -> <-. rewrite (NoDup_keys_inj sc s c' c Hnd Hin Hc). reflexivity.
Qed.

(** C2.  For a table of strata sizes (distinct keys, positive sizes adding
    up to [T], at most 2^25 rows in all) and every requested size [n] with
    [0 < n <= T], the planner returns an allocation whose counts add up to
    exactly [n].  The table [value_counts] builds from a data set is such a
    table ([table_counts]). *)
Theorem allocation_sums_to_n (sc : dict Z) (T n : Z)
  (Hsc : counts_of sc T) (Hn : 0 < n <= T) (HT : T <= 2 ^ 25) :
  exists allocs, allocation sc T n = Ok allocs /\ sum (values allocs) = n.
Proof.
  pose proof (counts_of_bound sc T Hsc) as Hb. destruct Hsc as (Hnd & _ & Hsum).
  assert (Hn' : 0 < n <= 2 ^ 25) by lia.
  eexists. split; [apply (allocation_ok sc T n Hb HT Hn')|].
  apply (allocation_sum sc T n Hb HT Hn'); auto; [lia|].
  apply (allocation_ok sc T n Hb HT Hn').
Qed.

Lemma allocation_sums_to_n_witness :
  counts_of (value_counts (map stratum (rows df_ten))) 10 /\ 0 < 5 <= 10 /\
  10 <= 2 ^ 25 /\
  exists allocs,
    allocation (value_counts (map stratum (rows df_ten))) 10 5 = Ok allocs /\
    sum (values allocs) = 5.
Proof.
  assert (H : counts_of (value_counts (map stratum (rows df_ten))) 10)
    by exact (value_counts_counts_of (map stratum (rows df_ten))).
  split; [exact H|]. split; [lia|]. split; [vm_compute; discriminate|].
  apply (allocation_sums_to_n _ 10 5 H); [lia|vm_compute; discriminate].
Defined.

(** C5.  Under the same conditions the count allocated to a stratum of
    [c] items differs from its exact real share [(c / T) * n] by strictly
    less than one. *)
Theorem allocation_within_one (sc : dict Z) (T n : Z) (allocs : dict Z)
  (s : string) (c a : Z)
  (Hsc : counts_of sc T) (Hn : 0 < n <= T) (HT : T <= 2 ^ 25)
  (Hal : allocation sc T n = Ok allocs)
  (Hc : In (s, c) sc) (Ha : In (s, a) allocs) :
  (Rabs (IZR a - IZR c / IZR T * IZR n) < 1)%R.
Proof.
  pose proof (counts_of_bound sc T Hsc) as Hb. destruct Hsc as (Hnd & _ & Hsum).
  assert (Hn' : 0 < n <= 2 ^ 25) by lia. assert (HT0 : 0 < T) by lia.
  rewrite (allocation_entry sc T n allocs s c a Hb HT Hn' Hnd Hal Hc Ha).
  pose proof (allocation_close sc T n Hb HT Hn' s c HT0 Hnd Hsum Hc) as [L U].
  set (k := share_floor c T n + occ (top sc T n) s) in *.
  apply IZR_lt in L, U. rewrite minus_IZR, !mult_IZR in L, U. rewrite opp_IZR in L.
  assert (PT : (0 < IZR T)%R) by (apply IZR_lt; lia).
  assert (E : (IZR T * (IZR c / IZR T * IZR n) = IZR c * IZR n)%R) by (field; lra).
  set (x := (IZR c / IZR T * IZR n)%R) in *.
  apply Rabs_def1; nra.
Qed.

Lemma allocation_within_one_witness :
  let sc := value_counts (map stratum (rows df_ten)) in
  let allocs := [("A | easy", 3); ("B | hard", 2)]%string in
  counts_of sc 10 /\ 0 < 5 <= 10 /\ 10 <= 2 ^ 25 /\
  allocation sc 10 5 = Ok allocs /\
  In ("A | easy"%string, 6) sc /\ In ("A | easy"%string, 3) allocs /\
  (Rabs (IZR 3 - IZR 6 / IZR 10 * IZR 5) < 1)%R.
Proof.
  cbv zeta.
  assert (H : counts_of (value_counts (map stratum (rows df_ten))) 10)
    by exact (value_counts_counts_of (map stratum (rows df_ten))).
  assert (Hn : 0 < 5 <= 10) by lia.
  assert (HT : 10 <= 2 ^ 25) by (vm_compute; discriminate).
  assert (Hal : allocation (value_counts (map stratum (rows df_ten))) 10 5 =
                Ok [("A | easy", 3); ("B | hard", 2)]%string) by (vm_compute; reflexivity).
  assert (Hc : In ("A | easy"%string, 6) (value_counts (map stratum (rows df_ten))))
    by (vm_compute; left; reflexivity).
  assert (Ha : In ("A | easy"%string, 3) [("A | easy", 3); ("B | hard", 2)]%string)
    by (left; reflexivity).
  repeat (split; [assumption|]).
  exact (allocation_within_one _ 10 5 _ _ 6 3 H Hn HT Hal Hc Ha).
Defined.

(** C6, as the code has it.  When two strata have equal fractional
    remainders, the one listed earlier in the table of strata sizes is
    served first: if the later one receives an extra slot, so does the
    earlier one.  The stratum keys play no role. *)
Theorem tie_broken_by_table_order (sc : dict Z) (T n : Z) (allocs : dict Z)
  (s1 s2 : string) (c1 c2 a1 a2 : Z)
  (Hsc : counts_of sc T) (Hn : 0 < n <= T) (HT : T <= 2 ^ 25)
  (Hal : allocation sc T n = Ok allocs)
  (Hord : before (s1, c1) (s2, c2) sc)
  (Htie : remainder_key (s1, exact_share c1 T n) = remainder_key (s2, exact_share c2 T n))
  (H1 : In (s1, a1) allocs) (H2 : In (s2, a2) allocs)
  (Hextra : a2 = share_floor c2 T n + 1) :
  a1 = share_floor c1 T n + 1.
Proof.
  pose proof (counts_of_bound sc T Hsc) as Hb. destruct Hsc as (Hnd & _ & Hsum).
  assert (Hn' : 0 < n <= 2 ^ 25) by lia. assert (HT0 : 0 < T) by lia.
  assert (I1 : In (s1, c1) sc).
  { destruct Hord as (l1 & l2 & -> & _). apply in_or_app. right. left. reflexivity. }
  assert (I2 : In (s2, c2) sc).
  { destruct Hord as (l1 & l2 & -> & H). apply in_or_app. right. right. exact H. }
  rewrite (allocation_entry sc T n allocs s1 c1 a1 Hb HT Hn' Hnd Hal I1 H1).
  rewrite (allocation_entry sc T n allocs s2 c2 a2 Hb HT Hn' Hnd Hal I2 H2) in Hextra.
  f_equal.
  apply (earlier_first sc T n Hb HT Hn' s1 c1 s2 c2); auto.
  - apply (deficit_bounds sc T n Hb HT Hn' HT0 Hsum).
  - unfold share_frac.
    rewrite (remainder_key_snd EmptyString s1 (exact_share c1 T n)).
    rewrite (remainder_key_snd EmptyString s2 (exact_share c2 T n)), Htie.
    apply Rle_refl.
  - lia.
Qed.

Lemma tie_broken_by_table_order_witness :
  let allocs := [("x", 1); ("a", 1); ("b", 1)]%string in
  counts_of tie_table 4 /\ 0 < 3 <= 4 /\ 4 <= 2 ^ 25 /\
  allocation tie_table 4 3 = Ok allocs /\
  before ("a"%string, 1) ("b"%string, 1) tie_table /\
  remainder_key ("a"%string, exact_share 1 4 3) =
    remainder_key ("b"%string, exact_share 1 4 3) /\
  In ("a"%string, 1) allocs /\ In ("b"%string, 1) allocs /\
  1 = share_floor 1 4 3 + 1 /\
  1 = share_floor 1 4 3 + 1.
Proof.
  cbv zeta.
  assert (H : counts_of tie_table 4).
  { split; [|split; [|reflexivity]].
    - repeat constructor; cbn; intuition discriminate.
    - repeat constructor. }
  assert (Hn : 0 < 3 <= 4) by lia.
  assert (HT : 4 <= 2 ^ 25) by (vm_compute; discriminate).
  assert (Hal : allocation tie_table 4 3 = Ok [("x", 1); ("a", 1); ("b", 1)]%string)
    by (vm_compute; reflexivity).
  assert (Hord : before ("a"%string, 1) ("b"%string, 1) tie_table).
  { exists [("x"%string, 2)], [("b"%string, 1)]. split; [reflexivity|left; reflexivity]. }
  assert (Htie : remainder_key ("a"%string, exact_share 1 4 3) =
                 remainder_key ("b"%string, exact_share 1 4 3)) by reflexivity.
  assert (H1 : In ("a"%string, 1) [("x", 1); ("a", 1); ("b", 1)]%string)
    by (right; left; reflexivity).
  assert (H2 : In ("b"%string, 1) [("x", 1); ("a", 1); ("b", 1)]%string)
    by (right; right; left; reflexivity).
  assert (Hx : 1 = share_floor 1 4 3 + 1) by (vm_compute; reflexivity).
  repeat (split; [assumption|]).
  exact (tie_broken_by_table_order tie_table 4 3 _ _ _ 1 1 1 1 H Hn HT Hal Hord Htie H1 H2 Hx).
Defined.

(** C6, as the specification states it, fails.  In a data set with three
    problems in [z | easy] and one in [a | easy], sampled with [n = 2],
    both strata have the fractional remainder one half and one slot is
    left; it goes to [z | easy], the lexically larger key. *)
Lemma tie_not_broken_by_key :
  let sc := value_counts (map stratum (rows df_tie)) in
  sc = [("z | easy", 3); ("a | easy", 1)]%string /\
  remainder_key ("z | easy"%string, exact_share 3 4 2) =
    remainder_key ("a | easy"%string, exact_share 1 4 2) /\
  deficit sc 4 2 = 1 /\
  String.ltb "a | easy" "z | easy" = true /\
  allocation sc 4 2 = Ok [("z | easy", 2); ("a | easy", 0)]%string.
Proof. vm_compute. repeat split; reflexivity. Qed.

Lemma NoDup_allocation_keys df n allocs :
  allocation (value_counts (map stratum (rows df))) (len df) n = Ok allocs ->
  NoDup (keys allocs).
Proof.
  intros H. rewrite (allocation_keys _ _ _ _ H).
  apply (value_counts_counts_of (map stratum (rows df))).
Qed.

(** C8.  When the identifiers of the data set are distinct, no identifier
    occurs twice in the sample the sampler returns, whatever the requested
    size and the seed. *)
Theorem sample_has_no_duplicates (rs_choice : Z -> nat -> nat -> list nat)
  (df : DataFrame) (n seed : Z) (w w' : World) (s : DataFrame)
  (Hrs : choice_spec rs_choice)
  (Hid : NoDup (map instance_id (rows df)))
  (Hrun : stratified_sample rs_choice df n seed w = (Ok s, w')) :
  NoDup (map instance_id (rows s)).
Proof.
  destruct (stratified_sample_inv rs_choice Hrs df n seed w s w' Hrun)
    as (allocs & Ea & _ & Hnd & _).
  apply Hnd; [|exact Hid]. apply (NoDup_allocation_keys df n), Ea.
Qed.

Lemma sample_has_no_duplicates_witness :
  choice_spec choice_first /\
  NoDup (map instance_id (rows df_ten)) /\
  stratified_sample choice_first df_ten 5 7 world0 =
    (Ok sample_ten, mkWorld (SeededBy 7) [] [] os_plain) /\
  NoDup (map instance_id (rows sample_ten)).
Proof.
  assert (Hid : NoDup (map instance_id (rows df_ten))).
  { cbn. repeat constructor; cbn; intuition discriminate. }
  assert (Hrun : stratified_sample choice_first df_ten 5 7 world0 =
                 (Ok sample_ten, mkWorld (SeededBy 7) [] [] os_plain))
    by (vm_compute; reflexivity).
  split; [exact choice_first_spec|]. split; [exact Hid|]. split; [exact Hrun|].
  exact (sample_has_no_duplicates choice_first df_ten 5 7 world0 _ sample_ten
           choice_first_spec Hid Hrun).
Defined.

(** C3.  For a data set of at most 2^25 rows, a requested size [n] with
    [0 < n <= len df] and a seed that pandas accepts (from 0 to 2^32 - 1),
    the sampler returns a sample of exactly [n] rows.  For every requested
    size, a returned sample has as many rows as the allocation gives once
    each count is capped at the size of its stratum. *)
Theorem sample_has_n_items (rs_choice : Z -> nat -> nat -> list nat)
  (df : DataFrame) (n seed : Z) (w : World)
  (Hrs : choice_spec rs_choice) (Hseed : 0 <= seed < 2 ^ 32)
  (Hn : 0 < n <= len df) (HT : len df <= 2 ^ 25) :
  (exists s w', stratified_sample rs_choice df n seed w = (Ok s, w') /\ len s = n) /\
  (forall n' s w',
      stratified_sample rs_choice df n' seed w = (Ok s, w') ->
      exists allocs,
        allocation (value_counts (map stratum (rows df))) (len df) n' = Ok allocs /\
        len s = capped_total df allocs).
Proof.
  split.
  - set (sc := value_counts (map stratum (rows df))).
    pose proof (table_bound df) as Hb. pose proof (table_counts df) as (Hnd & _ & Hsum).
    fold sc in Hb, Hnd, Hsum.
    assert (Hn' : 0 < n <= 2 ^ 25) by lia. assert (HT0 : 0 < len df) by lia.
    pose proof (allocation_ok sc (len df) n Hb HT Hn') as Ea.
    set (g := fun kv : string * Z =>
                share_floor (snd kv) (len df) n + occ (top sc (len df) n) (fst kv)) in *.
    assert (Hg : forall kv, In kv sc -> 0 <= g kv <= snd kv).
    { intros [s c] Hin. unfold g. cbn [fst snd].
      pose proof (allocation_close sc (len df) n Hb HT Hn' s c HT0 Hnd Hsum Hin) as [_ U].
      pose proof (occ_top_bounds sc (len df) n s Hnd) as Ho.
      destruct (share_facts c (len df) n (proj1 (Forall_forall _ _) Hb _ Hin) HT Hn')
        as (_ & _ & Hk & _).
      pose proof (proj1 (Forall_forall _ _) Hb _ Hin) as Hc. cbn [snd] in Hc.
      split; [lia|]. nia. }
    assert (Hcap : capped_total df (map (fun kv => (fst kv, g kv)) sc) = n).
    { unfold sc. rewrite capped_total_table. fold sc.
      rewrite (sum_map_ext_in _ g) by (intros kv Hin; specialize (Hg kv Hin); lia).
      pose proof (allocation_sum sc (len df) n Hb HT Hn' _ HT0 Hnd Hsum Ea) as S.
      unfold values in S. rewrite map_map in S. exact S. }
    destruct (stratified_sample_ok rs_choice Hrs df n seed w _ Hseed Ea) as (s & Es & Hl).
    + rewrite Forall_forall. intros kv Hkv. apply in_map_iff in Hkv as (kv0 & <- & Hin).
      cbn [snd]. apply Hg, Hin.
    + assert (H0 : 0 < capped_total df (map (fun kv => (fst kv, g kv)) sc))
        by (rewrite Hcap; lia).
      exact H0.
    + exists s. eexists. split; [exact Es|].
      apply (eq_trans Hl). exact Hcap.
  - intros n' s w' Hrun.
    destruct (stratified_sample_inv rs_choice Hrs df n' seed w s w' Hrun)
      as (allocs & Ea & Hl & _).
    exists allocs. split; assumption.
Qed.

Lemma sample_has_n_items_witness :
  choice_spec choice_first /\ 0 <= 7 < 2 ^ 32 /\
  0 < 5 <= len df_ten /\ len df_ten <= 2 ^ 25 /\
  (exists s w', stratified_sample choice_first df_ten 5 7 world0 = (Ok s, w') /\
                len s = 5) /\
  (forall n' s w',
      stratified_sample choice_first df_ten n' 7 world0 = (Ok s, w') ->
      exists allocs,
        allocation (value_counts (map stratum (rows df_ten))) (len df_ten) n' = Ok allocs /\
        len s = capped_total df_ten allocs).
Proof.
  assert (Hn : 0 < 5 <= len df_ten) by (vm_compute; split; [reflexivity|discriminate]).
  assert (HT : len df_ten <= 2 ^ 25) by (vm_compute; discriminate).
  assert (Hseed : 0 <= 7 < 2 ^ 32) by (split; [discriminate|reflexivity]).
  split; [exact choice_first_spec|]. split; [exact Hseed|]. split; [exact Hn|].
  split; [exact HT|].
  exact (sample_has_n_items choice_first df_ten 5 7 world0 choice_first_spec Hseed Hn HT).
Defined.

(** C4.  Two runs on the same data set, requested size and seed give the
    same result, whatever state the generator of the [random] module was
    in when the run started: the sampler returns the same value and leaves
    the same process state; the whole program returns the same value and
    leaves the same console output and the same files, and after a run
    that succeeds the same state altogether.  (A run that fails before the
    sampler is reached leaves the generator as it found it.) *)
Theorem sampling_is_deterministic (rs_choice : Z -> nat -> nat -> list nat)
  (format_f1 : Float64.float -> string)
  (json_dumps : list (string * string) -> result string) (out_dir : string)
  (df : DataFrame) (args : Args) (g1 g2 : RandomGen)
  (out : list string) (fl : list (string * string)) (o : OS) :
  stratified_sample rs_choice df (arg_n args) (arg_seed args) (mkWorld g1 out fl o) =
    stratified_sample rs_choice df (arg_n args) (arg_seed args) (mkWorld g2 out fl o) /\
  let r1 := main rs_choice format_f1 json_dumps out_dir df args (mkWorld g1 out fl o) in
  let r2 := main rs_choice format_f1 json_dumps out_dir df args (mkWorld g2 out fl o) in
  fst r1 = fst r2 /\ stdout (snd r1) = stdout (snd r2) /\
  files (snd r1) = files (snd r2) /\ os (snd r1) = os (snd r2) /\
  (fst r1 = Ok tt -> snd r1 = snd r2).
Proof.
  split.
  - rewrite !stratified_sample_unfold. reflexivity.
  - cbv zeta. unfold main, bindIO.
    destruct (normalize_difficulty_gen df out fl o) as (r & out1 & Hn).
    rewrite (Hn g1), (Hn g2). destruct r as [df1|e].
    2:{ cbn [fst snd stdout files os]. repeat split. discriminate. }
    match goal with |- context [print ?m (mkWorld g1 out1 fl o)] =>
      destruct (print_gen m out1 fl o) as (r' & out2 & Hp) end.
    rewrite (Hp g1), (Hp g2). destruct r' as [[]|e].
    2:{ cbn [fst snd stdout files os]. repeat split. discriminate. }
    rewrite !stratified_sample_unfold. cbn [stdout files os].
    repeat split.
Qed.

Lemma exact_share_zero c T :
  0 < c <= T -> T <= 2 ^ 25 -> exact_share c T 0 = S754_zero false.
Proof.
  intros Hc HT. assert (P25 : 2 ^ 25 < 2 ^ 53) by reflexivity.
  destruct (of_int_nf c ltac:(lia)) as (mc & ec & Nc & Ec & _).
  destruct (of_int_nf T ltac:(lia)) as (mT & eT & NT & ET & _).
  destruct (div_nf _ _ _ _ _ _ Nc NT ltac:(lia)) as (m1 & e1 & [E1 _] & _).
  unfold exact_share. rewrite E1. reflexivity.
Qed.

Lemma allocation_zero sc T :
  Forall (fun kv => 0 < snd kv <= T) sc -> T <= 2 ^ 25 ->
  allocation sc T 0 = Ok (map (fun kv => (fst kv, 0)) sc).
Proof.
  intros Hsc HT. unfold allocation.
  assert (Ef : floor_allocs (exact_allocs sc T 0) = Ok (map (fun kv => (fst kv, 0)) sc)).
  { unfold floor_allocs, exact_allocs. induction Hsc as [|kv l Hkv Hl IH]; [reflexivity|].
    cbn [map mapM fst snd]. rewrite (exact_share_zero _ _ Hkv HT). cbn [Float64.trunc bind].
    rewrite IH. reflexivity. }
  rewrite Ef. cbn [bind].
  assert (E0 : sum (values (map (fun kv : string * Z => (fst kv, 0)) sc)) = 0).
  { unfold values. rewrite map_map. apply sum_map_zero. reflexivity. }
  rewrite E0. reflexivity.
Qed.

Lemma sampled_rows_zero rs_choice df seed (sc : dict Z) :
  sampled_rows rs_choice df seed (map (fun kv => (fst kv, 0)) sc) = Ok [].
Proof. induction sc as [|kv l IH]; cbn; auto. Qed.

(** C1, as the code has it.  The program has no check of the requested
    size.  On a non-empty data set of at most 2^25 rows, with a seed that
    pandas accepts, a request for more rows than there are (up to 2^25) is
    served: every stratum is drawn whole and the sample holds every row of
    the data set once.  A request for zero rows fails with the
    [ValueError] of the final concatenation, after the allocation and the
    loop over the strata have run. *)
Theorem no_sample_size_check (rs_choice : Z -> nat -> nat -> list nat)
  (df : DataFrame) (seed : Z) (w : World)
  (Hrs : choice_spec rs_choice) (Hseed : 0 <= seed < 2 ^ 32)
  (HT : 0 < len df <= 2 ^ 25) :
  (forall n, len df < n <= 2 ^ 25 ->
     exists s w', stratified_sample rs_choice df n seed w = (Ok s, w') /\
                  Permutation (rows s) (rows df) /\ len s = len df) /\
  stratified_sample rs_choice df 0 seed w =
    (Raise ValueError, mkWorld (SeededBy seed) (stdout w) (files w) (os w)).
Proof.
  split.
  - intros n Hn.
    destruct (whole_sample rs_choice df n seed w Hrs Hseed HT ltac:(lia)) as (s & Es & P).
    exists s. eexists. split; [exact Es|]. split; [exact P|].
    unfold len. rewrite (Permutation_length P). reflexivity.
  - set (sc := value_counts (map stratum (rows df))).
    pose proof (table_bound df) as Hb. fold sc in Hb.
    rewrite stratified_sample_unfold. fold sc.
    rewrite (allocation_zero sc (len df) Hb (proj2 HT)). cbn [bind].
    rewrite sampled_rows_zero. reflexivity.
Qed.

Lemma no_sample_size_check_witness :
  choice_spec choice_first /\ 0 <= 7 < 2 ^ 32 /\ 0 < len df_two <= 2 ^ 25 /\
  (forall n, len df_two < n <= 2 ^ 25 ->
     exists s w', stratified_sample choice_first df_two n 7 world0 = (Ok s, w') /\
                  Permutation (rows s) (rows df_two) /\ len s = len df_two) /\
  stratified_sample choice_first df_two 0 7 world0 =
    (Raise ValueError, mkWorld (SeededBy 7) (stdout world0) (files world0) (os world0)).
Proof.
  assert (HT : 0 < len df_two <= 2 ^ 25) by (vm_compute; split; [reflexivity|discriminate]).
  assert (Hseed : 0 <= 7 < 2 ^ 32) by (split; [discriminate|reflexivity]).
  split; [exact choice_first_spec|]. split; [exact Hseed|]. split; [exact HT|].
  exact (no_sample_size_check choice_first df_two 7 world0 choice_first_spec Hseed HT).
Defined.

(** C1, as the specification states it, fails.  On the two-row data set a
    request for three rows is not refused: the sampler returns both rows.
    A request for minus one row is not refused either: it returns one
    row. *)
Lemma oversized_request_is_served :
  len df_two < 3 /\
  stratified_sample choice_first df_two 3 7 world0 =
    (Ok df_two, mkWorld (SeededBy 7) [] [] os_plain) /\
  -1 <= 0 /\
  stratified_sample choice_first df_two (-1) 7 world0 =
    (Ok (mkDF plain_columns [0] [row_of "p" "a" "easy"]),
     mkWorld (SeededBy 7) [] [] os_plain).
Proof. vm_compute. repeat split; try reflexivity; discriminate. Qed.

Lemma report_size_line format_f1 full_df sample_df n lines :
  report_lines format_f1 full_df sample_df n = Ok lines ->
  nth 3 lines EmptyString = ("Sample size:   " ++ str_of_int n ++ " problems")%string.
Proof.
  unfold report_lines.
  destruct (distribution_lines format_f1 repo 40 false full_df sample_df); cbn [bind];
    [|discriminate].
  destruct (distribution_lines format_f1 difficulty 20 true full_df sample_df); cbn [bind];
    [|discriminate].
  intros E. injection E as <-. reflexivity.
Qed.

Lemma main_saved_message rs_choice format_f1 json_dumps out_dir loaded args w w' :
  arg_dry_run args = false ->
  main rs_choice format_f1 json_dumps out_dir loaded args w = (Ok tt, w') ->
  In (String newline ("Saved " ++ str_of_int (arg_n args) ++ " problems → "
                      ++ out_path out_dir args))%string (stdout w').
Proof.
  intros Hdry Hrun.
  destruct (main_cases rs_choice format_f1 json_dumps out_dir loaded args w)
    as [[[H|H] _]|(_ & df & sample & report & w2 & _ & _ & _ & _ & _ & _ & E)].
  - rewrite Hrun in H. contradiction H. reflexivity.
  - congruence.
  - rewrite Hrun in E. symmetry in E.
    destruct (save_inv _ _ _ _ _ _ _ _ E) as (_ & _ & _ & Hok).
    destruct (Hok eq_refl) as (lines & _ & _ & _ & Hin). exact Hin.
Qed.

(** C7, as the code has it.  A stratum asked for more rows than it holds
    is drawn whole and the draw does not fail (for a seed that pandas
    accepts).  The report and the final message do not show the shortfall:
    the "Sample size" line of the report and the "Saved" message, which
    names the path [out_dir / args.out], state the requested size. *)
Theorem capped_draw_reports_requested_size
  (rs_choice : Z -> nat -> nat -> list nat)
  (format_f1 : Float64.float -> string)
  (json_dumps : list (string * string) -> result string) (out_dir : string)
  (Hrs : choice_spec rs_choice) :
  (forall df seed s a,
     0 <= seed < 2 ^ 32 ->
     len (pool_of df s) < a ->
     exists f, sampled_rows rs_choice df seed [(s, a)] = Ok [f] /\
               len f = len (pool_of df s)) /\
  (forall full_df sample_df n lines,
     report_lines format_f1 full_df sample_df n = Ok lines ->
     nth 3 lines EmptyString =
       ("Sample size:   " ++ str_of_int n ++ " problems")%string) /\
  (forall loaded args w w',
     arg_dry_run args = false ->
     main rs_choice format_f1 json_dumps out_dir loaded args w = (Ok tt, w') ->
     In (String newline ("Saved " ++ str_of_int (arg_n args) ++ " problems → "
                         ++ joinpath out_dir (arg_out args)))%string (stdout w')).
Proof.
  split; [|split].
  - intros df seed s a Hseed Ha.
    assert (H0 : 0 <= len (pool_of df s)) by (unfold len; lia).
    cbn [sampled_rows]. destruct (Z.eqb_spec a 0); [lia|].
    rewrite Z.min_r by lia.
    rewrite (sample_n_ok rs_choice (pool_of df s) (len (pool_of df s)) seed Hseed) by lia.
    cbn [bind]. eexists. split; [reflexivity|].
    apply (len_take rs_choice Hrs). lia.
  - apply report_size_line.
  - apply main_saved_message.
Qed.

Lemma capped_draw_reports_requested_size_witness :
  choice_spec choice_first /\
  (forall df seed s a,
     0 <= seed < 2 ^ 32 ->
     len (pool_of df s) < a ->
     exists f, sampled_rows choice_first df seed [(s, a)] = Ok [f] /\
               len f = len (pool_of df s)) /\
  (forall full_df sample_df n lines,
     report_lines format_plain full_df sample_df n = Ok lines ->
     nth 3 lines EmptyString =
       ("Sample size:   " ++ str_of_int n ++ " problems")%string) /\
  (forall loaded args w w',
     arg_dry_run args = false ->
     main choice_first format_plain dumps_plain "out" loaded args w = (Ok tt, w') ->
     In (String newline ("Saved " ++ str_of_int (arg_n args) ++ " problems → "
                         ++ joinpath "out" (arg_out args)))%string (stdout w')).
Proof.
  split; [exact choice_first_spec|].
  exact (capped_draw_reports_requested_size choice_first format_plain dumps_plain "out"
           choice_first_spec).
Defined.

(** C7, as the specification states it, fails.  On the two-row data set
    with three rows requested the sample has two rows, yet the report says
    "Sample size:   3 problems" and the program prints "Saved 3
    problems". *)
Lemma shortfall_not_reported :
  let args := mkArgs 3 7 "problems.jsonl" false in
  let w := snd (main choice_first format_plain dumps_plain "out" df_two args world0) in
  fst (stratified_sample choice_first df_two 3 7 world0) = Ok df_two /\
  len df_two = 2 /\
  (exists lines,
     report_lines format_plain df_two df_two 3 = Ok lines /\
     nth 3 lines EmptyString = "Sample size:   3 problems"%string) /\
  In (String newline "Saved 3 problems → out/problems.jsonl") (stdout w) /\
  ~ In (String newline "Saved 2 problems → out/problems.jsonl") (stdout w).
Proof.
  vm_compute. split; [reflexivity|]. split; [reflexivity|]. split.
  - eexists. split; reflexivity.
  - split.
    + right. right. left. reflexivity.
    + intros H. repeat (destruct H as [H|H]; [discriminate H|]). exact H.
Qed.

(** * Further properties of the program *)

(** ** Normalisation of the difficulty labels *)

Lemma is_space_lower_char c : is_space (lower_char c) = is_space c.
Proof. destruct c as [[] [] [] [] [] [] [] []]; reflexivity. Qed.

Lemma lower_char_idem c : lower_char (lower_char c) = lower_char c.
Proof. destruct c as [[] [] [] [] [] [] [] []]; reflexivity. Qed.

Lemma lower_idem s : lower (lower s) = lower s.
Proof. induction s as [|c s IH]; cbn; [reflexivity|]. rewrite lower_char_idem, IH. reflexivity. Qed.

Lemma lstrip_lower s : lstrip (lower s) = lower (lstrip s).
Proof.
  induction s as [|c s IH]; cbn; [reflexivity|].
  rewrite is_space_lower_char. destruct (is_space c); [exact IH|reflexivity].
Qed.

Lemma rstrip_lower s : rstrip (lower s) = lower (rstrip s).
Proof.
  induction s as [|c s IH]; cbn; [reflexivity|].
  rewrite IH, is_space_lower_char. destruct (rstrip s); cbn; [|reflexivity].
  destruct (is_space c); reflexivity.
Qed.

Lemma strip_lower s : strip (lower s) = lower (strip s).
Proof. unfold strip. rewrite lstrip_lower, rstrip_lower. reflexivity. Qed.

Lemma rstrip_idem s : rstrip (rstrip s) = rstrip s.
Proof.
  induction s as [|c s IH]; cbn; [reflexivity|].
  destruct (rstrip s) as [|c' t] eqn:E.
  - destruct (is_space c) eqn:Ec; cbn; [reflexivity|]. rewrite Ec. reflexivity.
  - cbn [rstrip]. cbn [rstrip] in IH. rewrite IH. reflexivity.
Qed.

(** A string that does not start with white space keeps its first
    character when white space is removed at its end. *)
Lemma lstrip_rstrip_fixed s : lstrip s = s -> lstrip (rstrip s) = rstrip s.
Proof.
  destruct s as [|c s]; cbn; [reflexivity|].
  destruct (is_space c) eqn:Ec.
  - intros H. exfalso. clear Ec. revert c H. induction s as [|c' s IH]; cbn; intros c H.
    + discriminate.
    + destruct (is_space c').
      * apply (f_equal String.length) in H. cbn in H.
        assert (L : forall t, (String.length (lstrip t) <= String.length t)%nat).
        { clear. induction t as [|a t IHt]; cbn; [lia|]. destruct (is_space a); cbn; lia. }
        specialize (L s). lia.
      * apply (f_equal String.length) in H. cbn in H. lia.
  - intros _. destruct (rstrip s); cbn; rewrite Ec; cbn; rewrite ?Ec; reflexivity.
Qed.

Lemma lstrip_idem s : lstrip (lstrip s) = lstrip s.
Proof.
  induction s as [|c s IH]; cbn; [reflexivity|].
  destruct (is_space c) eqn:Ec; [exact IH|]. cbn. rewrite Ec. reflexivity.
Qed.

Lemma strip_idem s : strip (strip s) = strip s.
Proof.
  unfold strip. rewrite (lstrip_rstrip_fixed (lstrip s) (lstrip_idem s)).
  apply rstrip_idem.
Qed.

Lemma normal_label_lower_strip s : normal_label (lower (strip s)).
Proof.
  unfold normal_label. split.
  - rewrite strip_lower, strip_idem. reflexivity.
  - apply lower_idem.
Qed.

Lemma has_column_add cs c : existsb (String.eqb c) (add_column cs c) = true.
Proof.
  unfold add_column. destruct (existsb (String.eqb c) cs) eqn:E; [exact E|].
  rewrite existsb_app. cbn. rewrite String.eqb_refl. apply orb_true_r.
Qed.

Lemma difficulty_of_lines_normal n : normal_label (difficulty_of_lines n).
Proof.
  unfold difficulty_of_lines. destruct (n <? 50); [|destruct (n <? 150)];
    split; reflexivity.
Qed.

(** The table [normalize_difficulty] returns has normal labels. *)
Lemma normalize_difficulty_labels df w df1 w1 :
  normalize_difficulty df w = (Ok df1, w1) ->
  has_column df1 "difficulty" = true /\
  Forall (fun r => normal_label (difficulty r)) (rows df1).
Proof.
  intros H. apply normalize_difficulty_inv in H
    as [(Hd & _ & ->)|(_ & _ & _ & _ & ->)]; cbn [rows].
  - split; [exact Hd|]. rewrite Forall_forall. intros r Hr.
    apply in_map_iff in Hr as (r0 & <- & _). cbn. apply normal_label_lower_strip.
  - split; [apply has_column_add|]. rewrite Forall_forall. intros r Hr.
    apply in_map_iff in Hr as (r1 & <- & Hr1). cbn. apply difficulty_of_lines_normal.
Qed.

(** X1.  After [normalize_difficulty], in either of its branches, no
    difficulty label has white space at its ends or an upper-case ASCII
    letter, and the table has a [difficulty] column. *)
Theorem normalized_labels_are_clean (df df1 : DataFrame) (w w1 : World)
  (Hrun : normalize_difficulty df w = (Ok df1, w1)) :
  has_column df1 "difficulty" = true /\
  forall r, In r (rows df1) ->
            strip (difficulty r) = difficulty r /\ lower (difficulty r) = difficulty r.
Proof.
  destruct (normalize_difficulty_labels df w df1 w1 Hrun) as (Hc & Hl).
  split; [exact Hc|]. rewrite Forall_forall in Hl. exact Hl.
Qed.

(** X2.  [normalize_difficulty] is idempotent: applied to a table it has
    returned, it returns that table again, prints nothing and does not
    fail. *)
Theorem normalize_difficulty_idempotent (df df1 : DataFrame) (w w1 : World)
  (Hrun : normalize_difficulty df w = (Ok df1, w1)) :
  normalize_difficulty df1 w1 = (Ok df1, w1).
Proof.
  destruct (normalize_difficulty_labels df w df1 w1 Hrun) as (Hc & Hl).
  unfold normalize_difficulty. rewrite Hc. cbn [negb]. unfold ret.
  assert (Hrows : map (fun r => mkRow (instance_id r) (repo r) (patch r)
                                      (lower (strip (difficulty r)))
                                      (patch_lines r) (stratum r) (extra r))
                      (rows df1) = rows df1).
  { induction Hl as [|r l [H1 H2] _ IH]; cbn [map]; [reflexivity|].
    rewrite IH, H1, H2. destruct r; reflexivity. }
  rewrite Hrows. destruct df1; reflexivity.
Qed.

Lemma normalize_difficulty_idempotent_witness :
  normalize_difficulty df_raw world0 =
    (Ok df_derived, mkWorld (OsEntropy 0) [derive_notice] [] os_plain) /\
  normalize_difficulty df_derived (mkWorld (OsEntropy 0) [derive_notice] [] os_plain) =
    (Ok df_derived, mkWorld (OsEntropy 0) [derive_notice] [] os_plain).
Proof.
  assert (H : normalize_difficulty df_raw world0 =
              (Ok df_derived, mkWorld (OsEntropy 0) [derive_notice] [] os_plain))
    by (vm_compute; reflexivity).
  split; [exact H|].
  exact (normalize_difficulty_idempotent df_raw df_derived world0 _ H).
Defined.

Lemma normalized_labels_are_clean_witness :
  normalize_difficulty df_messy world0 = (Ok df_neat, world0) /\
  has_column df_neat "difficulty" = true /\
  forall r, In r (rows df_neat) ->
            strip (difficulty r) = difficulty r /\ lower (difficulty r) = difficulty r.
Proof.
  assert (H : normalize_difficulty df_messy world0 = (Ok df_neat, world0)) by reflexivity.
  split; [exact H|].
  exact (normalized_labels_are_clean df_messy df_neat world0 world0 H).
Defined.

(** X3.  Normalising and then computing the strata keeps the rows: their
    number, their order and their identifier, repository, patch and other
    payload columns are those of the loaded table, and each stratum is the
    key of the row's repository and normalised difficulty. *)
Theorem pipeline_keeps_rows (df df1 : DataFrame) (w w1 : World)
  (Hrun : normalize_difficulty df w = (Ok df1, w1)) :
  map instance_id (rows (compute_strata df1)) = map instance_id (rows df) /\
  map repo (rows (compute_strata df1)) = map repo (rows df) /\
  map patch (rows (compute_strata df1)) = map patch (rows df) /\
  map extra (rows (compute_strata df1)) = map extra (rows df) /\
  map stratum (rows (compute_strata df1)) =
    map (fun r => stratum_key (repo r) (difficulty r)) (rows df1).
Proof.
  assert (E : map instance_id (rows df1) = map instance_id (rows df) /\
              map repo (rows df1) = map repo (rows df) /\
              map patch (rows df1) = map patch (rows df) /\
              map extra (rows df1) = map extra (rows df)).
  { apply normalize_difficulty_inv in Hrun
      as [(_ & _ & ->)|(_ & _ & _ & _ & ->)]; cbn [rows]; rewrite ?map_map; cbn; auto. }
  destruct E as (E1 & E2 & E3 & E4).
  unfold compute_strata. cbn [rows]. rewrite !map_map. cbn.
  rewrite <- E1, <- E2, <- E3, <- E4. auto.
Qed.

Lemma pipeline_keeps_rows_witness :
  normalize_difficulty df_messy world0 = (Ok df_neat, world0) /\
  map instance_id (rows (compute_strata df_neat)) = map instance_id (rows df_messy) /\
  map repo (rows (compute_strata df_neat)) = map repo (rows df_messy) /\
  map patch (rows (compute_strata df_neat)) = map patch (rows df_messy) /\
  map extra (rows (compute_strata df_neat)) = map extra (rows df_messy) /\
  map stratum (rows (compute_strata df_neat)) =
    map (fun r => stratum_key (repo r) (difficulty r)) (rows df_neat).
Proof.
  assert (H : normalize_difficulty df_messy world0 = (Ok df_neat, world0)) by reflexivity.
  split; [exact H|].
  exact (pipeline_keeps_rows df_messy df_neat world0 world0 H).
Defined.

(** ** The stratum key *)

Lemma length_append s t :
  String.length (s ++ t) = (String.length s + String.length t)%nat.
Proof. induction s as [|c s IH]; cbn; [reflexivity|]. rewrite IH. reflexivity. Qed.

Lemma append_inv_head s : forall t1 t2 : string, (s ++ t1 = s ++ t2)%string -> t1 = t2.
Proof. induction s as [|c s IH]; cbn; intros t1 t2 H; [exact H|]. injection H. apply IH. Qed.

Lemma append_inv_tail t : forall s1 s2 : string, (s1 ++ t = s2 ++ t)%string -> s1 = s2.
Proof.
  induction s1 as [|c s1 IH]; intros [|c2 s2] H; cbn in H.
  - reflexivity.
  - apply (f_equal String.length) in H. cbn in H. rewrite length_append in H. lia.
  - apply (f_equal String.length) in H. cbn in H. rewrite length_append in H. lia.
  - injection H as -> H. f_equal. apply IH, H.
Qed.

(** X4.  Whatever the labels contain, the stratum key separates the
    difficulties of one repository and the repositories of one difficulty:
    with one of the two labels fixed, equal keys mean equal labels. *)
Theorem stratum_key_cancel :
  (forall r d1 d2, stratum_key r d1 = stratum_key r d2 <-> d1 = d2) /\
  (forall r1 r2 d, stratum_key r1 d = stratum_key r2 d <-> r1 = r2).
Proof.
  unfold stratum_key. split.
  - intros r d1 d2. split; [|intros ->; reflexivity].
    intros H. apply append_inv_head in H. apply (append_inv_head " | ") in H. exact H.
  - intros r1 r2 d. split; [|intros ->; reflexivity]. apply append_inv_tail.
Qed.

(** X5.  Computing the strata twice is the same as computing them once:
    the column is added once and every key is recomputed from the same
    labels. *)
Theorem compute_strata_idempotent (df : DataFrame) :
  compute_strata (compute_strata df) = compute_strata df.
Proof.
  unfold compute_strata. cbn [columns index rows]. f_equal.
  - unfold add_column at 1. rewrite has_column_add. reflexivity.
  - rewrite map_map. reflexivity.
Qed.

(** ** The shares in floating point *)

(** X6.  For positive integers below 2^53 the share [(count / total) * n]
    is computed as a finite float within the relative error [3 * 2^-53] of
    the exact share. *)
Theorem exact_share_accurate (c T n : Z)
  (Hc : 0 < c < 2 ^ 53) (HT : 0 < T < 2 ^ 53) (Hn : 0 < n < 2 ^ 53) :
  (exists m e, exact_share c T n = S754_finite false m e) /\
  (Rabs (B2R (exact_share c T n) - IZR c / IZR T * IZR n)
   <= 3 * bpow (-53) * (IZR c / IZR T * IZR n))%R.
Proof.
  destruct (share_nf c T n Hc HT Hn) as (m & e & N & V).
  rewrite (nf_B2R _ _ _ N). split; [|exact V].
  destruct N as [-> _]. eexists. eexists. reflexivity.
Qed.

Lemma exact_share_accurate_witness :
  0 < 1 < 2 ^ 53 /\ 0 < 49 < 2 ^ 53 /\ 0 < 49 < 2 ^ 53 /\
  (exists m e, exact_share 1 49 49 = S754_finite false m e) /\
  (Rabs (B2R (exact_share 1 49 49) - IZR 1 / IZR 49 * IZR 49)
   <= 3 * bpow (-53) * (IZR 1 / IZR 49 * IZR 49))%R.
Proof.
  assert (H1 : 0 < 1 < 2 ^ 53) by (split; reflexivity).
  assert (H2 : 0 < 49 < 2 ^ 53) by (split; reflexivity).
  split; [exact H1|]. split; [exact H2|]. split; [exact H2|].
  exact (exact_share_accurate 1 49 49 H1 H2 H2).
Defined.

(** X7.  For at most 2^25 rows and a request of at most 2^25, [int] of the
    computed share is the floor of the exact share [c * n / T], except that
    it may be one less when the exact share is an integer. *)
Theorem floor_of_share (c T n : Z)
  (Hc : 0 < c <= T) (HT : T <= 2 ^ 25) (Hn : 0 < n <= 2 ^ 25) :
  exists k,
    Float64.trunc (exact_share c T n) = Ok k /\
    (k = c * n / T \/ ((c * n) mod T = 0 /\ k = c * n / T - 1)).
Proof.
  destruct (share_class c T n Hc HT Hn) as (m & e & N & _ & Hcl).
  destruct (trunc_nf _ _ _ N) as (Ht & _).
  exists (Z.shiftl m e). split; [exact Ht|]. cbv zeta in Hcl.
  destruct Hcl as [(_ & H & _)|[(H0 & H & _)|(_ & H & _)]]; auto.
Qed.

Lemma floor_of_share_witness :
  0 < 1 <= 49 /\ 49 <= 2 ^ 25 /\ 0 < 49 <= 2 ^ 25 /\
  exists k,
    Float64.trunc (exact_share 1 49 49) = Ok k /\
    (k = 1 * 49 / 49 \/ ((1 * 49) mod 49 = 0 /\ k = 1 * 49 / 49 - 1)).
Proof.
  assert (H1 : 0 < 1 <= 49) by lia.
  assert (H2 : 49 <= 2 ^ 25) by (vm_compute; discriminate).
  assert (H3 : 0 < 49 <= 2 ^ 25) by (split; [reflexivity|exact H2]).
  split; [exact H1|]. split; [exact H2|]. split; [exact H3|].
  exact (floor_of_share 1 49 49 H1 H2 H3).
Defined.

(** X8.  Under the same bounds the sort key [x - int(x)] is computed
    without rounding: it is the fractional part of the computed share, a
    number from 0 up to but excluding 1. *)
Theorem remainder_key_is_fraction (s : string) (c T n : Z)
  (Hc : 0 < c <= T) (HT : T <= 2 ^ 25) (Hn : 0 < n <= 2 ^ 25) :
  exists k,
    Float64.trunc (exact_share c T n) = Ok k /\
    B2R (remainder_key (s, exact_share c T n)) =
      (B2R (exact_share c T n) - IZR k)%R /\
    (0 <= B2R (remainder_key (s, exact_share c T n)) < 1)%R.
Proof.
  destruct (share_class c T n Hc HT Hn) as (m & e & N & He & _).
  destruct (trunc_nf _ _ _ N) as (Ht & _ & Hfl).
  destruct (frac_canon _ _ _ N He) as [_ Hval].
  exists (Z.shiftl m e). split; [exact Ht|].
  assert (Ek : remainder_key (s, exact_share c T n) =
               Float64.sub (exact_share c T n) (Float64.of_int (Z.shiftl m e))).
  { unfold remainder_key. cbn [snd]. rewrite Ht. reflexivity. }
  rewrite Ek, Hval, (nf_B2R _ _ _ N). split; [reflexivity|]. lra.
Qed.

Lemma remainder_key_is_fraction_witness :
  0 < 3 <= 4 /\ 4 <= 2 ^ 25 /\ 0 < 2 <= 2 ^ 25 /\
  exists k,
    Float64.trunc (exact_share 3 4 2) = Ok k /\
    B2R (remainder_key ("z | easy"%string, exact_share 3 4 2)) =
      (B2R (exact_share 3 4 2) - IZR k)%R /\
    (0 <= B2R (remainder_key ("z | easy"%string, exact_share 3 4 2)) < 1)%R.
Proof.
  assert (H1 : 0 < 3 <= 4) by lia.
  assert (H2 : 4 <= 2 ^ 25) by (vm_compute; discriminate).
  assert (H3 : 0 < 2 <= 2 ^ 25) by (split; [reflexivity|vm_compute; discriminate]).
  split; [exact H1|]. split; [exact H2|]. split; [exact H3|].
  exact (remainder_key_is_fraction "z | easy" 3 4 2 H1 H2 H3).
Defined.

(** ** The allocation *)

(** X9.  Whenever the planner returns, its allocation has exactly the keys
    of the table of strata sizes, in the order of the table. *)
Theorem allocation_keeps_table_order (sc : dict Z) (T n : Z) (allocs : dict Z)
  (Hal : allocation sc T n = Ok allocs) :
  keys allocs = keys sc.
Proof. exact (allocation_keys sc T n allocs Hal). Qed.

Lemma allocation_keeps_table_order_witness :
  allocation tie_table 4 3 = Ok [("x", 1); ("a", 1); ("b", 1)]%string /\
  keys [("x", 1); ("a", 1); ("b", 1)]%string = keys tie_table.
Proof.
  assert (H : allocation tie_table 4 3 = Ok [("x", 1); ("a", 1); ("b", 1)]%string)
    by (vm_compute; reflexivity).
  split; [exact H|].
  exact (allocation_keeps_table_order tie_table 4 3 _ H).
Defined.

(** X10.  For a table of at most 2^25 rows and [0 < n <= T], the count
    allocated to a stratum is the floor the program computed or one more,
    and it lies between zero and the size of the stratum: the cap of the
    drawing loop never takes effect. *)
Theorem allocation_fits_stratum (sc : dict Z) (T n : Z) (allocs : dict Z)
  (s : string) (c a : Z)
  (Hsc : counts_of sc T) (Hn : 0 < n <= T) (HT : T <= 2 ^ 25)
  (Hal : allocation sc T n = Ok allocs)
  (Hc : In (s, c) sc) (Ha : In (s, a) allocs) :
  (a = share_floor c T n \/ a = share_floor c T n + 1) /\ 0 <= a <= c.
Proof.
  pose proof (counts_of_bound sc T Hsc) as Hb. destruct Hsc as (Hnd & _ & Hsum).
  assert (Hn' : 0 < n <= 2 ^ 25) by lia. assert (HT0 : 0 < T) by lia.
  rewrite (allocation_entry sc T n allocs s c a Hb HT Hn' Hnd Hal Hc Ha).
  pose proof (allocation_close sc T n Hb HT Hn' s c HT0 Hnd Hsum Hc) as [_ U].
  pose proof (occ_top_bounds sc T n s Hnd) as Ho.
  pose proof (proj1 (Forall_forall _ _) Hb _ Hc) as Hcb. cbn [snd] in Hcb.
  destruct (share_facts c T n Hcb HT Hn') as (_ & _ & Hk & _).
  split; [lia|]. split; [lia|]. nia.
Qed.

Lemma allocation_fits_stratum_witness :
  let sc := value_counts (map stratum (rows df_ten)) in
  let allocs := [("A | easy", 3); ("B | hard", 2)]%string in
  counts_of sc 10 /\ 0 < 5 <= 10 /\ 10 <= 2 ^ 25 /\
  allocation sc 10 5 = Ok allocs /\
  In ("B | hard"%string, 4) sc /\ In ("B | hard"%string, 2) allocs /\
  (2 = share_floor 4 10 5 \/ 2 = share_floor 4 10 5 + 1) /\ 0 <= 2 <= 4.
Proof.
  cbv zeta.
  assert (H : counts_of (value_counts (map stratum (rows df_ten))) 10)
    by exact (value_counts_counts_of (map stratum (rows df_ten))).
  assert (Hn : 0 < 5 <= 10) by lia.
  assert (HT : 10 <= 2 ^ 25) by (vm_compute; discriminate).
  assert (Hal : allocation (value_counts (map stratum (rows df_ten))) 10 5 =
                Ok [("A | easy", 3); ("B | hard", 2)]%string) by (vm_compute; reflexivity).
  assert (Hc : In ("B | hard"%string, 4) (value_counts (map stratum (rows df_ten))))
    by (vm_compute; right; left; reflexivity).
  assert (Ha : In ("B | hard"%string, 2) [("A | easy", 3); ("B | hard", 2)]%string)
    by (right; left; reflexivity).
  repeat (split; [assumption|]).
  exact (allocation_fits_stratum _ 10 5 _ _ 4 2 H Hn HT Hal Hc Ha).
Defined.

Lemma StronglySorted_app_inv {A : Type} (R : A -> A -> Prop) l1 : forall l2 a b,
  StronglySorted R (l1 ++ l2) -> In a l1 -> In b l2 -> R a b.
Proof.
  induction l1 as [|x l1 IH]; intros l2 a b Hs Ha Hb; [destruct Ha|].
  cbn in Hs. apply StronglySorted_inv in Hs as [Hs Hx]. destruct Ha as [->|Ha].
  - rewrite Forall_forall in Hx. apply Hx. apply in_or_app. right. exact Hb.
  - eapply IH; eauto.
Qed.

(** X11.  The leftover slots go to the largest remainders: under the
    bounds of X10, a stratum that received an extra slot does not have a
    smaller sort key than a stratum that received none. *)
Theorem extra_slots_go_to_largest_remainders (sc : dict Z) (T n : Z)
  (allocs : dict Z) (s1 s2 : string) (c1 c2 a1 a2 : Z)
  (Hsc : counts_of sc T) (Hn : 0 < n <= T) (HT : T <= 2 ^ 25)
  (Hal : allocation sc T n = Ok allocs)
  (Hc1 : In (s1, c1) sc) (Hc2 : In (s2, c2) sc)
  (Ha1 : In (s1, a1) allocs) (Ha2 : In (s2, a2) allocs)
  (Hextra : a1 = share_floor c1 T n + 1) (Hnone : a2 = share_floor c2 T n) :
  Float64.ltb (remainder_key (s1, exact_share c1 T n))
              (remainder_key (s2, exact_share c2 T n)) = false.
Proof.
  pose proof (counts_of_bound sc T Hsc) as Hb. destruct Hsc as (Hnd & _ & Hsum).
  assert (Hn' : 0 < n <= 2 ^ 25) by lia. assert (HT0 : 0 < T) by lia.
  pose proof (deficit_bounds sc T n Hb HT Hn' HT0 Hsum) as [Hd0 _].
  rewrite (allocation_entry sc T n allocs s1 c1 a1 Hb HT Hn' Hnd Hal Hc1 Ha1) in Hextra.
  rewrite (allocation_entry sc T n allocs s2 c2 a2 Hb HT Hn' Hnd Hal Hc2 Ha2) in Hnone.
  set (r := Z.to_nat (deficit sc T n)) in *.
  assert (I1 : In (s1, c1) (firstn r (ranking sc T n))).
  { destruct (in_dec (fun x y : string * Z =>
                        ltac:(decide equality; [apply Z.eq_dec|apply string_dec]))
                     (s1, c1) (firstn r (ranking sc T n))) as [I|N]; auto.
    rewrite (top_notin sc T n s1 c1 Hnd Hd0 Hc1 N) in Hextra. lia. }
  assert (I2 : In (s2, c2) (skipn r (ranking sc T n))).
  { assert (I : In (s2, c2) (ranking sc T n))
      by (apply (Permutation_in _ (Permutation_sym (ranking_perm sc T n)) Hc2)).
    rewrite <- (firstn_skipn r) in I. apply in_app_or in I as [I|I]; auto.
    rewrite (top_in sc T n s2 c2 Hnd Hd0 I) in Hnone. lia. }
  pose proof (proj1 (Forall_forall _ _) Hb _ Hc1) as G1.
  pose proof (proj1 (Forall_forall _ _) Hb _ Hc2) as G2.
  destruct (Float64.ltb _ _) eqn:E; [|reflexivity]. exfalso.
  apply (rkey_lt T n HT Hn' (s1, c1) (s2, c2) G1 G2) in E. cbn [snd] in E.
  assert (Hs : StronglySorted (fun a b : string * Z =>
                  (share_frac (snd a) T n <= share_frac (snd b) T n)%R)
                 (rev (ranking sc T n))).
  { unfold ranking, sorted_reverse. rewrite rev_involutive.
    apply (sorted_asc Float64.ltb
             (fun kv => remainder_key (fst kv, exact_share (snd kv) T n))
             (fun kv => share_frac (snd kv) T n)
             (fun kv => 0 < snd kv <= T) (rkey_lt T n HT Hn')).
    rewrite Forall_forall in *. intros kv Hkv. apply Hb, in_rev, Hkv. }
  rewrite <- (firstn_skipn r (ranking sc T n)), rev_app_distr in Hs.
  pose proof (StronglySorted_app_inv _ _ _ (s2, c2) (s1, c1) Hs
                (proj1 (in_rev _ _) I2) (proj1 (in_rev _ _) I1)) as Hle.
  cbn [snd] in Hle. lra.
Qed.

Lemma extra_slots_go_to_largest_remainders_witness :
  let allocs := [("x", 1); ("a", 1); ("b", 1)]%string in
  counts_of tie_table 4 /\ 0 < 3 <= 4 /\ 4 <= 2 ^ 25 /\
  allocation tie_table 4 3 = Ok allocs /\
  In ("a"%string, 1) tie_table /\ In ("x"%string, 2) tie_table /\
  In ("a"%string, 1) allocs /\ In ("x"%string, 1) allocs /\
  1 = share_floor 1 4 3 + 1 /\ 1 = share_floor 2 4 3 /\
  Float64.ltb (remainder_key ("a"%string, exact_share 1 4 3))
              (remainder_key ("x"%string, exact_share 2 4 3)) = false.
Proof.
  cbv zeta.
  assert (H : counts_of tie_table 4).
  { split; [|split; [|reflexivity]].
    - repeat constructor; cbn; intuition discriminate.
    - repeat constructor. }
  assert (Hn : 0 < 3 <= 4) by lia.
  assert (HT : 4 <= 2 ^ 25) by (vm_compute; discriminate).
  assert (Hal : allocation tie_table 4 3 = Ok [("x", 1); ("a", 1); ("b", 1)]%string)
    by (vm_compute; reflexivity).
  assert (Hc1 : In ("a"%string, 1) tie_table) by (right; left; reflexivity).
  assert (Hc2 : In ("x"%string, 2) tie_table) by (left; reflexivity).
  assert (Ha1 : In ("a"%string, 1) [("x", 1); ("a", 1); ("b", 1)]%string)
    by (right; left; reflexivity).
  assert (Ha2 : In ("x"%string, 1) [("x", 1); ("a", 1); ("b", 1)]%string)
    by (left; reflexivity).
  assert (Hx : 1 = share_floor 1 4 3 + 1) by (vm_compute; reflexivity).
  assert (Hy : 1 = share_floor 2 4 3) by (vm_compute; reflexivity).
  repeat (split; [assumption|]).
  exact (extra_slots_go_to_largest_remainders tie_table 4 3 _ _ _ 1 2 1 1
           H Hn HT Hal Hc1 Hc2 Ha1 Ha2 Hx Hy).
Defined.

(** ** The drawing loop and the final shuffle *)

Lemma perm_filter_length {A : Type} (p : A -> bool) l l' :
  Permutation l l' -> List.length (filter p l) = List.length (filter p l').
Proof.
  induction 1; cbn.
  - reflexivity.
  - destruct (p x); cbn; congruence.
  - destruct (p x), (p y); reflexivity.
  - congruence.
Qed.

Lemma stratum_count_app st l1 l2 :
  stratum_count st (l1 ++ l2) = stratum_count st l1 + stratum_count st l2.
Proof. unfold stratum_count. rewrite filter_app, length_app. lia. Qed.

Lemma stratum_count_same st l :
  (forall r, In r l -> stratum r = st) -> stratum_count st l = Z.of_nat (List.length l).
Proof.
  intros H. unfold stratum_count. f_equal. induction l as [|r l IH]; cbn; [reflexivity|].
  rewrite (H r (or_introl eq_refl)), String.eqb_refl. cbn. f_equal.
  apply IH. intros r' Hr'. apply H. right. exact Hr'.
Qed.

Lemma stratum_count_other st l :
  (forall r, In r l -> stratum r <> st) -> stratum_count st l = 0.
Proof.
  intros H. unfold stratum_count. induction l as [|r l IH]; cbn; [reflexivity|].
  destruct (String.eqb_spec (stratum r) st) as [E|N].
  - exfalso. apply (H r (or_introl eq_refl) E).
  - apply IH. intros r' Hr'. apply H. right. exact Hr'.
Qed.

Lemma sampled_rows_count rs_choice df seed st :
  choice_spec rs_choice ->
  forall allocs frames,
    sampled_rows rs_choice df seed allocs = Ok frames ->
    stratum_count st (flat_map rows frames) =
    sum (map (fun kv => if String.eqb (fst kv) st
                        then Z.min (snd kv) (len (pool_of df (fst kv))) else 0) allocs).
Proof.
  intros Hrs. unfold sum.
  induction allocs as [|[s a] rest IH]; intros frames H; cbn in H.
  - injection H as <-. reflexivity.
  - cbn [map fold_right fst snd].
    assert (H0 : 0 <= len (pool_of df s)) by (unfold len; lia).
    destruct (Z.eqb_spec a 0) as [->|Na].
    + rewrite (IH frames H). destruct (String.eqb s st); lia.
    + destruct (sample_n rs_choice (pool_of df s) (Z.min a (len (pool_of df s))) seed)
        as [f|e] eqn:Es; cbn in H; [|discriminate].
      destruct (sampled_rows rs_choice df seed rest) as [more|e] eqn:Er; cbn in H;
        [|discriminate].
      injection H as <-. cbn [flat_map]. rewrite stratum_count_app, (IH more eq_refl).
      f_equal. apply sample_n_inv in Es as (Hk & ->).
      assert (Hin : forall r, In r (rows (take (pool_of df s)
                      (rs_choice seed (List.length (rows (pool_of df s)))
                                 (Z.to_nat (Z.min a (len (pool_of df s))))))) ->
                    stratum r = s).
      { intros r Hr. rewrite take_rows in Hr. apply picks_incl in Hr.
        apply in_pool_of in Hr. apply Hr. }
      destruct (String.eqb_spec s st) as [->|N].
      * rewrite (stratum_count_same _ _ Hin).
        apply (len_take rs_choice Hrs (pool_of df st) seed _ Hk).
      * apply stratum_count_other. intros r Hr E. apply N. rewrite <- E. symmetry.
        apply Hin, Hr.
Qed.

Lemma sum_single (ks : dict Z) st a (g : string * Z -> Z) :
  NoDup (keys ks) -> In (st, a) ks ->
  sum (map (fun kv => if String.eqb (fst kv) st then g kv else 0) ks) = g (st, a).
Proof.
  unfold keys, sum. induction ks as [|[k v] ks IH]; intros Hnd Hin; [destruct Hin|].
  inversion Hnd as [|? ? Hk Hnd']; subst. cbn [map fold_right fst].
  destruct Hin as [E|Hin].
  - injection E as -> ->. rewrite String.eqb_refl.
    assert (Z0 : fold_right Z.add 0
                   (map (fun kv => if String.eqb (fst kv) st then g kv else 0) ks) = 0).
    { apply (sum_map_zero _ ks). intros [k' v'] Hk'. cbn [fst].
      destruct (String.eqb_spec k' st) as [->|]; [|reflexivity].
      exfalso. apply Hk. apply (in_map fst _ _ Hk'). }
    rewrite Z0. lia.
  - destruct (String.eqb_spec k st) as [->|N].
    + exfalso. apply Hk. apply (in_map fst _ _ Hin).
    + rewrite IH; auto.
Qed.

(** The sample is a permutation of what the loop collected, and it has the
    columns of the data set. *)
Lemma stratified_sample_frames rs_choice df n seed w s w' :
  choice_spec rs_choice ->
  stratified_sample rs_choice df n seed w = (Ok s, w') ->
  exists allocs frames,
    allocation (value_counts (map stratum (rows df))) (len df) n = Ok allocs /\
    sampled_rows rs_choice df seed allocs = Ok frames /\
    Permutation (rows s) (flat_map rows frames) /\
    columns s = columns df.
Proof.
  intros Hrs. rewrite stratified_sample_unfold. intros H. injection H as H _.
  destruct (allocation _ _ _) as [allocs|] eqn:Ea; cbn in H; [|discriminate].
  destruct (sampled_rows _ _ _ _) as [frames|] eqn:Ef; cbn in H; [|discriminate].
  exists allocs, frames. split; [reflexivity|]. split; [exact Ef|].
  destruct (sampled_rows_inv rs_choice Hrs _ _ _ _ Ef) as (_ & _ & _ & I4).
  destruct frames as [|f frames]; cbn [pd_concat bind] in H; [discriminate|].
  set (merged := mkDF (columns f) (flat_map index (f :: frames))
                      (flat_map rows (f :: frames))) in *.
  destruct (sample_all rs_choice merged seed) as [result|] eqn:Er; cbn [bind] in H;
    [|discriminate].
  injection H as <-. unfold sample_all in Er. apply sample_n_inv in Er as (_ & ->).
  rewrite rows_reset_index, columns_reset_index. split.
  - unfold len. rewrite Nat2Z.id. apply (take_all_perm rs_choice seed merged Hrs).
  - cbn. inversion I4; subst. assumption.
Qed.

(** X12.  Every row of the sample is a row of the data set, and the sample
    has the columns of the data set. *)
Theorem sample_rows_come_from_data (rs_choice : Z -> nat -> nat -> list nat)
  (df : DataFrame) (n seed : Z) (w w' : World) (s : DataFrame)
  (Hrs : choice_spec rs_choice)
  (Hrun : stratified_sample rs_choice df n seed w = (Ok s, w')) :
  incl (rows s) (rows df) /\ columns s = columns df.
Proof.
  destruct (stratified_sample_frames rs_choice df n seed w s w' Hrs Hrun)
    as (allocs & frames & _ & Ef & Hp & Hc).
  split; [|exact Hc].
  destruct (sampled_rows_inv rs_choice Hrs _ _ _ _ Ef) as (_ & I2 & _).
  intros r Hr. apply (Permutation_in _ Hp) in Hr. apply I2, Hr.
Qed.

Lemma sample_rows_come_from_data_witness :
  choice_spec choice_first /\
  stratified_sample choice_first df_ten 5 7 world0 =
    (Ok sample_ten, mkWorld (SeededBy 7) [] [] os_plain) /\
  incl (rows sample_ten) (rows df_ten) /\ columns sample_ten = columns df_ten.
Proof.
  assert (Hrun : stratified_sample choice_first df_ten 5 7 world0 =
                 (Ok sample_ten, mkWorld (SeededBy 7) [] [] os_plain))
    by (vm_compute; reflexivity).
  split; [exact choice_first_spec|]. split; [exact Hrun|].
  exact (sample_rows_come_from_data choice_first df_ten 5 7 world0 _ sample_ten
           choice_first_spec Hrun).
Defined.

(** X13.  The sample holds, of every stratum, as many rows as the
    allocation gives it, capped at the size of the stratum. *)
Theorem sample_counts_follow_allocation (rs_choice : Z -> nat -> nat -> list nat)
  (df : DataFrame) (n seed : Z) (w w' : World) (s : DataFrame)
  (allocs : dict Z) (st : string) (a : Z)
  (Hrs : choice_spec rs_choice)
  (Hrun : stratified_sample rs_choice df n seed w = (Ok s, w'))
  (Hal : allocation (value_counts (map stratum (rows df))) (len df) n = Ok allocs)
  (Ha : In (st, a) allocs) :
  stratum_count st (rows s) = Z.min a (stratum_count st (rows df)).
Proof.
  destruct (stratified_sample_frames rs_choice df n seed w s w' Hrs Hrun)
    as (allocs' & frames & Ea & Ef & Hp & _).
  rewrite Hal in Ea. injection Ea as <-.
  unfold stratum_count at 1. rewrite (perm_filter_length _ _ _ Hp).
  fold (stratum_count st (flat_map rows frames)).
  rewrite (sampled_rows_count rs_choice df seed st Hrs _ _ Ef).
  rewrite (sum_single allocs st a
             (fun kv => Z.min (snd kv) (len (pool_of df (fst kv))))
             (NoDup_allocation_keys df n allocs Hal) Ha).
  reflexivity.
Qed.

Lemma sample_counts_follow_allocation_witness :
  choice_spec choice_first /\
  stratified_sample choice_first df_ten 5 7 world0 =
    (Ok sample_ten, mkWorld (SeededBy 7) [] [] os_plain) /\
  allocation (value_counts (map stratum (rows df_ten))) (len df_ten) 5 =
    Ok [("A | easy", 3); ("B | hard", 2)]%string /\
  In ("A | easy"%string, 3) [("A | easy", 3); ("B | hard", 2)]%string /\
  stratum_count "A | easy" (rows sample_ten) =
    Z.min 3 (stratum_count "A | easy" (rows df_ten)).
Proof.
  assert (Hrun : stratified_sample choice_first df_ten 5 7 world0 =
                 (Ok sample_ten, mkWorld (SeededBy 7) [] [] os_plain))
    by (vm_compute; reflexivity).
  assert (Hal : allocation (value_counts (map stratum (rows df_ten))) (len df_ten) 5 =
                Ok [("A | easy", 3); ("B | hard", 2)]%string) by (vm_compute; reflexivity).
  assert (Ha : In ("A | easy"%string, 3) [("A | easy", 3); ("B | hard", 2)]%string)
    by (left; reflexivity).
  split; [exact choice_first_spec|]. split; [exact Hrun|]. split; [exact Hal|].
  split; [exact Ha|].
  exact (sample_counts_follow_allocation choice_first df_ten 5 7 world0 _ sample_ten
           _ _ 3 choice_first_spec Hrun Hal Ha).
Defined.

(** X14.  A request for as many rows as the data set has, or for more, is
    answered with the whole data set in shuffled order (for a non-empty
    data set of at most 2^25 rows, a request of at most 2^25 and a seed
    that pandas accepts, from 0 to 2^32 - 1). *)
Theorem whole_request_returns_all_rows (rs_choice : Z -> nat -> nat -> list nat)
  (df : DataFrame) (n seed : Z) (w : World)
  (Hrs : choice_spec rs_choice) (Hseed : 0 <= seed < 2 ^ 32)
  (HT : 0 < len df <= 2 ^ 25) (Hn : len df <= n <= 2 ^ 25) :
  exists s w',
    stratified_sample rs_choice df n seed w = (Ok s, w') /\
    Permutation (rows s) (rows df).
Proof.
  destruct (whole_sample rs_choice df n seed w Hrs Hseed HT Hn) as (s & Es & P).
  exists s. eexists. split; [exact Es|exact P].
Qed.

Lemma whole_request_returns_all_rows_witness :
  choice_spec choice_first /\ 0 <= 7 < 2 ^ 32 /\ 0 < len df_two <= 2 ^ 25 /\
  len df_two <= 2 <= 2 ^ 25 /\
  exists s w',
    stratified_sample choice_first df_two 2 7 world0 = (Ok s, w') /\
    Permutation (rows s) (rows df_two).
Proof.
  assert (HT : 0 < len df_two <= 2 ^ 25) by (vm_compute; split; [reflexivity|discriminate]).
  assert (Hn : len df_two <= 2 <= 2 ^ 25) by (vm_compute; split; discriminate).
  assert (Hseed : 0 <= 7 < 2 ^ 32) by (split; [discriminate|reflexivity]).
  split; [exact choice_first_spec|]. split; [exact Hseed|]. split; [exact HT|].
  split; [exact Hn|].
  exact (whole_request_returns_all_rows choice_first df_two 2 7 world0
           choice_first_spec Hseed HT Hn).
Defined.

(** X15.  On a data set without rows the sampler fails for every requested
    size and seed: nothing is drawn and the concatenation raises
    [ValueError]. *)
Theorem empty_data_set_is_refused (rs_choice : Z -> nat -> nat -> list nat)
  (df : DataFrame) (n seed : Z) (w : World)
  (Hempty : rows df = []) :
  stratified_sample rs_choice df n seed w =
    (Raise ValueError, mkWorld (SeededBy seed) (stdout w) (files w) (os w)).
Proof.
  rewrite stratified_sample_unfold, Hempty. unfold len. rewrite Hempty.
  unfold allocation. cbn. unfold slice_to.
  destruct (0 <=? n - 0); rewrite firstn_nil; reflexivity.
Qed.

Lemma empty_data_set_is_refused_witness :
  rows df_empty = [] /\
  stratified_sample choice_first df_empty 5 7 world0 =
    (Raise ValueError,
     mkWorld (SeededBy 7) (stdout world0) (files world0) (os world0)).
Proof.
  split; [reflexivity|].
  exact (empty_data_set_is_refused choice_first df_empty 5 7 world0 eq_refl).
Defined.

(** ** The report *)

Lemma mapM_ok {A B : Type} (f : A -> result B) l :
  (forall x, In x l -> exists y, f x = Ok y) ->
  exists ys, mapM f l = Ok ys /\ List.length ys = List.length l.
Proof.
  induction l as [|a l IH]; intros H; cbn.
  - exists []. auto.
  - destruct (H a (or_introl eq_refl)) as [y Ey]. rewrite Ey. cbn.
    destruct IH as (ys & E & L); [intros x Hx; apply H; right; exact Hx|].
    rewrite E. cbn. exists (y :: ys). cbn. auto.
Qed.

Lemma Ok_inj {A : Type} (a b : A) : Ok a = Ok b -> a = b.
Proof. congruence. Qed.

Lemma truediv_ok a b : b <> 0 -> exists v, truediv a b = Ok v.
Proof.
  intros H. unfold truediv. destruct (Z.eqb_spec b 0); [contradiction|].
  eexists; reflexivity.
Qed.

Lemma len_nonzero df : rows df <> [] -> len df <> 0.
Proof. unfold len. destruct (rows df); [congruence|]. cbn. lia. Qed.

Lemma distribution_lines_ok format_f1 field width guarded full_df sample_df :
  rows sample_df <> [] \/ rows full_df = [] ->
  exists ls, distribution_lines format_f1 field width guarded full_df sample_df = Ok ls.
Proof.
  intros H. unfold distribution_lines.
  destruct (rows full_df) as [|r0 l0] eqn:Ef.
  - cbn. eexists; reflexivity.
  - destruct H as [Hs|Hf]; [|discriminate].
    match goal with |- exists ls, mapM ?f ?l = Ok ls =>
      destruct (mapM_ok f l) as (ys & E & _); [|exists ys; exact E] end.
    intros v _. cbv beta.
    destruct (truediv_ok (100 * count_where (fun r => String.eqb (field r) v) full_df)
                (len full_df)) as [v1 E1].
    { apply len_nonzero. rewrite Ef. discriminate. }
    rewrite E1. cbn [bind].
    assert (Hpos : (0 <? len sample_df) = true).
    { apply Z.ltb_lt. pose proof (len_nonzero _ Hs). unfold len in *. lia. }
    rewrite Hpos. cbn [negb]. rewrite andb_false_r.
    destruct (truediv_ok (100 * count_where (fun r => String.eqb (field r) v) sample_df)
                (len sample_df) (len_nonzero _ Hs)) as [v2 E2].
    rewrite E2. cbn [bind]. eexists; reflexivity.
Qed.

Lemma sorted_nonempty {A K : Type} (lt : K -> K -> bool) (key : A -> K) l :
  l <> [] -> exists x l', sorted lt key l = x :: l'.
Proof.
  intros H. pose proof (sorted_perm lt key l) as P.
  destruct (sorted lt key l) as [|x l'] eqn:E.
  - apply Permutation_nil in P. congruence.
  - eauto.
Qed.

(** X16.  With a sample that has rows, or a data set that has none, the
    report is built without error. *)
Theorem report_is_built (format_f1 : Float64.float -> string)
  (full_df sample_df : DataFrame) (n : Z)
  (H : rows sample_df <> [] \/ rows full_df = []) :
  exists report, build_stats_report format_f1 full_df sample_df n = Ok report.
Proof.
  unfold build_stats_report, report_lines.
  destruct (distribution_lines_ok format_f1 repo 40 false full_df sample_df H) as [l1 E1].
  destruct (distribution_lines_ok format_f1 difficulty 20 true full_df sample_df H)
    as [l2 E2].
  rewrite E1. cbn [bind]. rewrite E2. cbn [bind]. eexists; reflexivity.
Qed.

Lemma report_is_built_witness :
  (rows sample_ten <> [] \/ rows df_ten = []) /\
  exists report, build_stats_report format_plain df_ten sample_ten 5 = Ok report.
Proof.
  assert (H : rows sample_ten <> [] \/ rows df_ten = []) by (left; discriminate).
  split; [exact H|].
  exact (report_is_built format_plain df_ten sample_ten 5 H).
Defined.

(** X17.  With an empty sample of a non-empty data set the report fails
    with [ZeroDivisionError]: the repository table divides by the size of
    the sample without the guard the difficulty table has. *)
Theorem report_of_empty_sample_fails (format_f1 : Float64.float -> string)
  (full_df sample_df : DataFrame) (n : Z)
  (Hs : rows sample_df = []) (Hf : rows full_df <> []) :
  build_stats_report format_f1 full_df sample_df n = Raise ZeroDivisionError.
Proof.
  unfold build_stats_report, report_lines.
  assert (E : distribution_lines format_f1 repo 40 false full_df sample_df =
              Raise ZeroDivisionError).
  { unfold distribution_lines.
    destruct (sorted_nonempty String.ltb (fun v => v) (unique (map repo (rows full_df))))
      as (x & l' & Ex).
    { destruct (rows full_df); [congruence|]. cbn. discriminate. }
    rewrite Ex. cbn [mapM].
    destruct (truediv_ok (100 * count_where (fun r => String.eqb (repo r) x) full_df)
                (len full_df) (len_nonzero _ Hf)) as [v1 E1].
    rewrite E1. cbn [bind andb]. unfold truediv at 1.
    unfold len at 1. rewrite Hs. reflexivity. }
  rewrite E. reflexivity.
Qed.

Lemma report_of_empty_sample_fails_witness :
  rows df_empty = [] /\ rows df_ten <> [] /\
  build_stats_report format_plain df_ten df_empty 5 = Raise ZeroDivisionError.
Proof.
  assert (Hf : rows df_ten <> []) by discriminate.
  split; [reflexivity|]. split; [exact Hf|].
  exact (report_of_empty_sample_fails format_plain df_ten df_empty 5 eq_refl Hf).
Defined.

Lemma nth_error_combine_range {A : Type} (l : list A) : forall k i,
  nth_error (combine (map Z.of_nat (seq k (List.length l))) l) i =
  option_map (fun a => (Z.of_nat (k + i), a)) (nth_error l i).
Proof.
  induction l as [|a l IH]; intros k [|i]; cbn [List.length seq map combine nth_error];
    try reflexivity.
  - cbn. rewrite Nat.add_0_r. reflexivity.
  - rewrite IH. rewrite Nat.add_succ_r. reflexivity.
Qed.

Lemma length_combine_range {A : Type} (l : list A) :
  List.length (combine (range_index (List.length l)) l) = List.length l.
Proof.
  unfold range_index. rewrite length_combine, length_map, length_seq. apply Nat.min_id.
Qed.

(** The sampler returns a frame whose index is [0, 1, ...]. *)
Lemma stratified_sample_index rs_choice df n seed w s w' :
  stratified_sample rs_choice df n seed w = (Ok s, w') ->
  index s = range_index (List.length (rows s)).
Proof.
  rewrite stratified_sample_unfold. intros H. injection H as H _.
  destruct (allocation _ _ _) as [allocs|]; cbn [bind] in H; [|discriminate].
  destruct (sampled_rows _ _ _ _) as [frames|]; cbn [bind] in H; [|discriminate].
  destruct (pd_concat frames) as [merged|]; cbn [bind] in H; [|discriminate].
  destruct (sample_all rs_choice merged seed) as [result|]; cbn [bind] in H;
    [|discriminate].
  injection H as <-. reflexivity.
Qed.

(** X18.  The report ends with the listing of the sample: one line for
    every row of [sample_df.iterrows()], in order, numbered with the index
    label of the row plus one.  When the index is [0, 1, ...], as it is in
    every frame the sampler returns, the row at position [i] is numbered
    [i + 1]. *)
Theorem report_lists_every_sampled_row (format_f1 : Float64.float -> string)
  (full_df sample_df : DataFrame) (n : Z) (lines : list string)
  (H : report_lines format_f1 full_df sample_df n = Ok lines) :
  exists head listing,
    lines = head ++ listing /\
    listing = map (fun ir => problem_line (fst ir) (snd ir)) (iterrows sample_df) /\
    (index sample_df = range_index (List.length (rows sample_df)) ->
     List.length listing = List.length (rows sample_df) /\
     forall i row, nth_error (rows sample_df) i = Some row ->
                   nth_error listing i = Some (problem_line (Z.of_nat i) row)) /\
    (forall rs_choice df n' seed w w',
       stratified_sample rs_choice df n' seed w = (Ok sample_df, w') ->
       index sample_df = range_index (List.length (rows sample_df))).
Proof.
  unfold report_lines in H.
  destruct (distribution_lines format_f1 repo 40 false full_df sample_df) as [l1|];
    cbn [bind] in H; [|discriminate].
  destruct (distribution_lines format_f1 difficulty 20 true full_df sample_df) as [l2|];
    cbn [bind] in H; [|discriminate].
  apply Ok_inj in H. subst lines.
  eexists. exists (problem_lines sample_df). split; [|split; [|split]].
  - rewrite !app_assoc. reflexivity.
  - reflexivity.
  - intros Hi. unfold problem_lines, iterrows. rewrite Hi. split.
    + rewrite length_map. apply length_combine_range.
    + intros i row Hrow. rewrite nth_error_map. unfold range_index.
      rewrite nth_error_combine_range, Hrow. reflexivity.
  - intros rs_choice df n' seed w w' Hrun.
    exact (stratified_sample_index rs_choice df n' seed w sample_df w' Hrun).
Qed.

Lemma report_lists_every_sampled_row_witness :
  exists lines,
    report_lines format_plain df_ten df_relabelled 3 = Ok lines /\
    nth_error lines 22 = Some (problem_line 1 (row_of "a2" "A" "easy")) /\
    exists head listing,
      lines = head ++ listing /\
      listing = map (fun ir => problem_line (fst ir) (snd ir)) (iterrows df_relabelled) /\
      (index df_relabelled = range_index (List.length (rows df_relabelled)) ->
       List.length listing = List.length (rows df_relabelled) /\
       forall i row, nth_error (rows df_relabelled) i = Some row ->
                     nth_error listing i = Some (problem_line (Z.of_nat i) row)) /\
      (forall rs_choice df n' seed w w',
         stratified_sample rs_choice df n' seed w = (Ok df_relabelled, w') ->
         index df_relabelled = range_index (List.length (rows df_relabelled))).
Proof.
  eexists. split; [vm_compute; reflexivity|]. split; [vm_compute; reflexivity|].
  refine (report_lists_every_sampled_row format_plain df_ten df_relabelled 3 _ _).
  vm_compute. reflexivity.
Defined.

(** X19.  The coverage line of the report states the number of distinct
    strata of the sample and of the data set, and when the rows of the
    sample are rows of the data set the first number is not larger than
    the second. *)
Theorem coverage_is_at_most_total (format_f1 : Float64.float -> string)
  (full_df sample_df : DataFrame) (n : Z) (lines : list string)
  (H : report_lines format_f1 full_df sample_df n = Ok lines)
  (Hincl : incl (rows sample_df) (rows full_df)) :
  In ("Strata covered: " ++ str_of_int (strata_in sample_df) ++ "/"
      ++ str_of_int (strata_in full_df))%string lines /\
  strata_in sample_df <= strata_in full_df.
Proof.
  split.
  - unfold report_lines in H.
    destruct (distribution_lines format_f1 repo 40 false full_df sample_df) as [l1|];
      cbn [bind] in H; [|discriminate].
    destruct (distribution_lines format_f1 difficulty 20 true full_df sample_df) as [l2|];
      cbn [bind] in H; [|discriminate].
    apply Ok_inj in H. subst lines.
    apply in_or_app. right. apply in_or_app. right. apply in_or_app. right.
    apply in_or_app. right. apply in_or_app. left. right. left. reflexivity.
  - unfold strata_in. apply inj_le. apply NoDup_incl_length; [apply NoDup_unique|].
    intros s Hs. apply (proj2 (in_unique _ _)). apply (proj1 (in_unique _ _)) in Hs.
    apply in_map_iff in Hs as (r & <- & Hr). apply in_map, Hincl, Hr.
Qed.

Lemma coverage_is_at_most_total_witness :
  exists lines,
    report_lines format_plain df_ten sample_ten 5 = Ok lines /\
    incl (rows sample_ten) (rows df_ten) /\
    In ("Strata covered: " ++ str_of_int (strata_in sample_ten) ++ "/"
        ++ str_of_int (strata_in df_ten))%string lines /\
    strata_in sample_ten <= strata_in df_ten.
Proof.
  assert (Hincl : incl (rows sample_ten) (rows df_ten)).
  { intros r Hr. cbn in Hr |- *. intuition. }
  eexists. split; [vm_compute; reflexivity|]. split; [exact Hincl|].
  refine (coverage_is_at_most_total format_plain df_ten sample_ten 5 _ _ Hincl).
  vm_compute. reflexivity.
Defined.

(** ** The files [main] writes *)

Lemma mapM_snd_combine {A B C : Type} (f : B -> result C) (ks : list A) : forall l,
  List.length ks = List.length l ->
  mapM (fun kb => f (snd kb)) (combine ks l) = mapM f l.
Proof.
  induction ks as [|k ks IH]; intros [|b l] H; cbn in H; try discriminate; [reflexivity|].
  cbn [combine mapM snd]. rewrite IH by lia. reflexivity.
Qed.

Lemma mapM_app_fail {A B : Type} (f : A -> result B) l1 x l2 e :
  f x = Raise e -> (exists ys, mapM f l1 = Ok ys) -> mapM f (l1 ++ x :: l2) = Raise e.
Proof.
  intros Hx. induction l1 as [|a l1 IH]; intros [ys H]; cbn [app mapM].
  - rewrite Hx. reflexivity.
  - cbn [mapM] in H. destruct (f a); cbn [bind] in *; [|discriminate].
    destruct (mapM f l1) as [ys'|] eqn:E; cbn [bind] in H; [|discriminate].
    rewrite IH by eauto. reflexivity.
Qed.

(** X20.  With [--dry-run] the program writes no file, whatever else
    happens. *)
Theorem dry_run_writes_no_file (rs_choice : Z -> nat -> nat -> list nat)
  (format_f1 : Float64.float -> string)
  (json_dumps : list (string * string) -> result string) (out_dir : string)
  (loaded : DataFrame) (args : Args) (w : World)
  (Hdry : arg_dry_run args = true) :
  files (snd (main rs_choice format_f1 json_dumps out_dir loaded args w)) = files w.
Proof.
  destruct (main_cases rs_choice format_f1 json_dumps out_dir loaded args w)
    as [(_ & F & _)|(Hd & _)]; [exact F|congruence].
Qed.

Lemma dry_run_writes_no_file_witness :
  arg_dry_run (mkArgs 5 7 "problems.jsonl" true) = true /\
  fst (main choice_first format_plain dumps_plain "out" df_ten
         (mkArgs 5 7 "problems.jsonl" true) world0) = Ok tt /\
  files (snd (main choice_first format_plain dumps_plain "out" df_ten
                (mkArgs 5 7 "problems.jsonl" true) world0)) = files world0.
Proof.
  split; [reflexivity|]. split; [vm_compute; reflexivity|].
  exact (dry_run_writes_no_file choice_first format_plain dumps_plain "out" df_ten
           (mkArgs 5 7 "problems.jsonl" true) world0 eq_refl).
Defined.

(** X21.  A run that ends in an error has left the files as they were,
    unless the error arose after saving had begun: then the run was not a
    dry run, and normalisation, sampling and the report had all
    succeeded. *)
Theorem failure_before_saving_writes_no_file
  (rs_choice : Z -> nat -> nat -> list nat)
  (format_f1 : Float64.float -> string)
  (json_dumps : list (string * string) -> result string) (out_dir : string)
  (loaded : DataFrame) (args : Args) (w : World) (e : PyError)
  (Hfail : fst (main rs_choice format_f1 json_dumps out_dir loaded args w) = Raise e) :
  files (snd (main rs_choice format_f1 json_dumps out_dir loaded args w)) = files w \/
  (arg_dry_run args = false /\
   exists df sample report,
     fst (normalize_difficulty loaded w) = Ok df /\
     fst (stratified_sample rs_choice (compute_strata df) (arg_n args) (arg_seed args) w)
       = Ok sample /\
     build_stats_report format_f1 (compute_strata df) sample (arg_n args) = Ok report).
Proof.
  destruct (main_cases rs_choice format_f1 json_dumps out_dir loaded args w)
    as [(_ & F & _)|(Hd & df & sample & report & w2 & E1 & E2 & E3 & _)].
  - left. exact F.
  - right. split; [exact Hd|]. exists df, sample, report. auto.
Qed.

Lemma failure_before_saving_writes_no_file_witness :
  let run := main choice_first format_plain (dumps_fragile "a2") "out" df_ten
               (mkArgs 5 7 "problems.jsonl" false) world0 in
  fst run = Raise TypeError /\
  files (snd run) = [("out/problems.jsonl", "a1,A,,easy" ++ String newline "")]%string /\
  (files (snd run) = files world0 \/
   (arg_dry_run (mkArgs 5 7 "problems.jsonl" false) = false /\
    exists df sample report,
      fst (normalize_difficulty df_ten world0) = Ok df /\
      fst (stratified_sample choice_first (compute_strata df) 5 7 world0) = Ok sample /\
      build_stats_report format_plain (compute_strata df) sample 5 = Ok report)).
Proof.
  assert (H : fst (main choice_first format_plain (dumps_fragile "a2") "out" df_ten
                     (mkArgs 5 7 "problems.jsonl" false) world0) = Raise TypeError)
    by (vm_compute; reflexivity).
  cbv zeta. split; [exact H|]. split; [vm_compute; reflexivity|].
  exact (failure_before_saving_writes_no_file choice_first format_plain
           (dumps_fragile "a2") "out" df_ten (mkArgs 5 7 "problems.jsonl" false)
           world0 TypeError H).
Defined.

(** X22.  [main] leaves every file other than the problems file and the
    report file as it was: a path that names neither of the two files reads
    the same after the run as before. *)
Theorem main_touches_only_its_outputs (rs_choice : Z -> nat -> nat -> list nat)
  (format_f1 : Float64.float -> string)
  (json_dumps : list (string * string) -> result string) (out_dir : string)
  (loaded : DataFrame) (args : Args) (w : World) (p : string)
  (Hout : os_realpath (os w) p <> os_realpath (os w) (out_path out_dir args))
  (Hstats : os_realpath (os w) p <> os_realpath (os w) (stats_path out_dir)) :
  read_file (snd (main rs_choice format_f1 json_dumps out_dir loaded args w)) p =
  read_file w p.
Proof.
  unfold read_file.
  destruct (main_cases rs_choice format_f1 json_dumps out_dir loaded args w)
    as [(_ & F & O)|(_ & df & sample & report & w2 & _ & _ & _ & F & O & _ & E)].
  - rewrite F, O. reflexivity.
  - rewrite E.
    destruct (save json_dumps out_dir args sample report w2) as [r w'] eqn:Es.
    destruct (save_inv _ _ _ _ _ _ _ _ Es) as (O' & _ & Hother & _). cbn [snd].
    rewrite O', O. rewrite O in Hother. rewrite (Hother _ Hout Hstats), F. reflexivity.
Qed.

Lemma main_touches_only_its_outputs_witness :
  let w := mkWorld (OsEntropy 0) [] [("/etc/x", "precious")]%string os_plain in
  let args := mkArgs 5 7 "problems.jsonl" false in
  out_path "out" args = "out/problems.jsonl"%string /\
  out_path "out" (mkArgs 5 7 "/etc/x" false) = "/etc/x"%string /\
  os_realpath (os w) "/etc/x" <> os_realpath (os w) (out_path "out" args) /\
  os_realpath (os w) "/etc/x" <> os_realpath (os w) (stats_path "out") /\
  read_file (snd (main choice_first format_plain dumps_plain "out" df_ten args w)) "/etc/x"
    = read_file w "/etc/x".
Proof.
  assert (H1 : os_realpath os_plain "/etc/x" <>
               os_realpath os_plain (out_path "out" (mkArgs 5 7 "problems.jsonl" false)))
    by (vm_compute; discriminate).
  assert (H2 : os_realpath os_plain "/etc/x" <> os_realpath os_plain (stats_path "out"))
    by (vm_compute; discriminate).
  cbv zeta. split; [reflexivity|]. split; [reflexivity|].
  split; [exact H1|]. split; [exact H2|].
  exact (main_touches_only_its_outputs choice_first format_plain dumps_plain "out" df_ten
           (mkArgs 5 7 "problems.jsonl" false)
           (mkWorld (OsEntropy 0) [] [("/etc/x", "precious")]%string os_plain)
           "/etc/x" H1 H2).
Defined.

(** X23.  After a successful run without [--dry-run] the report file holds
    the report that was printed.  The problems file holds one serialised
    record and a line break for every row of the sample, in the order of
    the sample, when it is not the same file as the report file; when the
    two paths name the same file, that file holds the report and the
    problems are lost. *)
Theorem saved_files_hold_sample_and_report (rs_choice : Z -> nat -> nat -> list nat)
  (format_f1 : Float64.float -> string)
  (json_dumps : list (string * string) -> result string) (out_dir : string)
  (loaded : DataFrame) (args : Args) (w : World)
  (Hok : fst (main rs_choice format_f1 json_dumps out_dir loaded args w) = Ok tt)
  (Hdry : arg_dry_run args = false) :
  let w' := snd (main rs_choice format_f1 json_dumps out_dir loaded args w) in
  exists df sample report lines,
    fst (normalize_difficulty loaded w) = Ok df /\
    fst (stratified_sample rs_choice (compute_strata df) (arg_n args) (arg_seed args) w)
      = Ok sample /\
    build_stats_report format_f1 (compute_strata df) sample (arg_n args) = Ok report /\
    mapM (fun row => json_dumps (record_of (keep_of sample) row)) (rows sample)
      = Ok lines /\
    In (String newline report) (stdout w') /\
    read_file w' (stats_path out_dir) = Some report /\
    (os_realpath (os w) (out_path out_dir args) <> os_realpath (os w) (stats_path out_dir) ->
     read_file w' (out_path out_dir args) = Some (file_of_lines lines)) /\
    (os_realpath (os w) (out_path out_dir args) = os_realpath (os w) (stats_path out_dir) ->
     read_file w' (out_path out_dir args) = Some report).
Proof.
  cbv zeta. unfold read_file.
  destruct (main_cases rs_choice format_f1 json_dumps out_dir loaded args w)
    as [([H|H] & _)|(_ & df & sample & report & w2 & E1 & E2 & E3 & F & O & Hin & E)];
    [contradiction|congruence|].
  rewrite E in *.
  destruct (save json_dumps out_dir args sample report w2) as [r w'] eqn:Es.
  cbn [fst snd] in *. subst r.
  destruct (save_inv _ _ _ _ _ _ _ _ Es) as (O' & (more & Hstd) & _ & Hsaved).
  destruct (Hsaved eq_refl) as (lines & Em & Hs & Ho & _).
  rewrite O in Hs, Ho. rewrite O', O.
  exists df, sample, report, lines. split; [exact E1|]. split; [exact E2|].
  split; [exact E3|]. split.
  - rewrite <- Em. symmetry.
    apply (mapM_snd_combine (fun row => json_dumps (record_of (keep_of sample) row))
             (index sample) (rows sample)).
    destruct (stratified_sample rs_choice (compute_strata df) (arg_n args) (arg_seed args) w)
      as [r0 w0] eqn:Er. cbn [fst] in E2. subst r0.
    rewrite (stratified_sample_index _ _ _ _ _ _ _ Er). unfold range_index.
    rewrite length_map, length_seq. reflexivity.
  - split; [rewrite Hstd; apply in_or_app; left; exact Hin|].
    split; [exact Hs|]. split; [exact Ho|]. intros Heq. rewrite Heq. exact Hs.
Qed.

Lemma saved_files_hold_sample_and_report_witness :
  let args := mkArgs 5 7 "problems.jsonl" false in
  let w' := snd (main choice_first format_plain dumps_plain "out" df_ten args world0) in
  fst (main choice_first format_plain dumps_plain "out" df_ten args world0) = Ok tt /\
  arg_dry_run args = false /\
  out_path "out" (mkArgs 5 7 "./sample_stats.txt" false) = stats_path "out" /\
  read_file w' "out/problems.jsonl" =
    Some (file_of_lines ["a1,A,,easy"; "a2,A,,easy"; "a3,A,,easy"; "b1,B,,hard";
                         "b2,B,,hard"])%string /\
  exists df sample report lines,
    fst (normalize_difficulty df_ten world0) = Ok df /\
    fst (stratified_sample choice_first (compute_strata df) (arg_n args) (arg_seed args)
           world0) = Ok sample /\
    build_stats_report format_plain (compute_strata df) sample (arg_n args) = Ok report /\
    mapM (fun row => dumps_plain (record_of (keep_of sample) row)) (rows sample)
      = Ok lines /\
    In (String newline report) (stdout w') /\
    read_file w' (stats_path "out") = Some report /\
    (os_realpath (os world0) (out_path "out" args) <>
     os_realpath (os world0) (stats_path "out") ->
     read_file w' (out_path "out" args) = Some (file_of_lines lines)) /\
    (os_realpath (os world0) (out_path "out" args) =
     os_realpath (os world0) (stats_path "out") ->
     read_file w' (out_path "out" args) = Some report).
Proof.
  assert (H : fst (main choice_first format_plain dumps_plain "out" df_ten
                     (mkArgs 5 7 "problems.jsonl" false) world0) = Ok tt)
    by (vm_compute; reflexivity).
  cbv zeta. split; [exact H|]. split; [reflexivity|]. split; [reflexivity|].
  split; [vm_compute; reflexivity|].
  exact (saved_files_hold_sample_and_report choice_first format_plain dumps_plain "out"
           df_ten (mkArgs 5 7 "problems.jsonl" false) world0 H eq_refl).
Defined.

(** X24.  A record of the problems file holds only columns of the
    whitelist that the sample has, each with the value of the row, in the
    order of the whitelist and no column twice; the working columns
    [stratum] and [patch_lines] are never written. *)
Theorem record_fields_whitelisted (sample : DataFrame) (row : Row)
  (col v : string)
  (H : In (col, v) (record_of (keep_of sample) row)) :
  In col FIELDS_TO_KEEP /\ has_column sample col = true /\
  row_get row col = Some v /\
  col <> "stratum"%string /\ col <> "patch_lines"%string /\
  NoDup (map fst (record_of (keep_of sample) row)).
Proof.
  unfold record_of in H. apply in_flat_map in H as (c & Hc & Hv).
  destruct (row_get row c) as [v'|] eqn:Eg; [|contradiction].
  destruct Hv as [Hv|[]]. injection Hv as -> ->.
  unfold keep_of in Hc. apply filter_In in Hc as [Hk Hh].
  split; [exact Hk|]. split; [exact Hh|]. split; [exact Eg|].
  split; [|split].
  - intros ->. cbn in Hk. intuition discriminate.
  - intros ->. cbn in Hk. intuition discriminate.
  - unfold record_of, keep_of.
    assert (Hnd : NoDup FIELDS_TO_KEEP).
    { unfold FIELDS_TO_KEEP.
      repeat (constructor; [cbn; intuition discriminate|]). constructor. }
    apply (NoDup_filter (fun f => has_column sample f)) in Hnd.
    induction (filter (fun f => has_column sample f) FIELDS_TO_KEEP) as [|k ks IH];
      cbn; [constructor|].
    inversion Hnd as [|? ? Hk' Hks]; subst.
    destruct (row_get row k); cbn; [|exact (IH Hks)].
    constructor; [|exact (IH Hks)].
    intros Hin. apply in_map_iff in Hin as ([k' v''] & Ek & Hin). cbn in Ek. subst k'.
    apply in_flat_map in Hin as (c & Hc' & Hv').
    destruct (row_get row c); [|contradiction].
    destruct Hv' as [Hv'|[]]. injection Hv' as -> _. contradiction.
Qed.

Lemma record_fields_whitelisted_witness :
  let row := mkRow "p1" "A" "x" "easy" 0 "A | easy" [] in
  In ("repo", "A")%string (record_of (keep_of sample_ten) row) /\
  In "repo"%string FIELDS_TO_KEEP /\ has_column sample_ten "repo" = true /\
  row_get row "repo" = Some "A"%string /\
  "repo"%string <> "stratum"%string /\ "repo"%string <> "patch_lines"%string /\
  NoDup (map fst (record_of (keep_of sample_ten) row)).
Proof.
  cbv zeta.
  assert (H : In ("repo", "A")%string
                (record_of (keep_of sample_ten)
                   (mkRow "p1" "A" "x" "easy" 0 "A | easy" []))).
  { vm_compute. right. left. reflexivity. }
  split; [exact H|].
  exact (record_fields_whitelisted sample_ten _ "repo" "A" H).
Defined.

(** ** Inputs the program refuses *)

Lemma sampled_rows_bad_seed rs_choice df seed :
  seed < 0 \/ 2 ^ 32 <= seed ->
  forall allocs,
    sampled_rows rs_choice df seed allocs = Ok [] \/
    sampled_rows rs_choice df seed allocs = Raise ValueError.
Proof.
  intros Hseed. induction allocs as [|[s a] rest IH]; cbn [sampled_rows]; [left; reflexivity|].
  destruct (a =? 0); [exact IH|].
  rewrite (sample_n_bad_seed rs_choice _ _ seed Hseed). right. reflexivity.
Qed.

(** X25.  A seed that pandas does not accept, negative or above 2^32 - 1,
    makes the sampler fail with [ValueError] (for a data set of at most
    2^25 rows and a request from 1 to 2^25): the first draw refuses the
    seed, and without a draw the concatenation has nothing to join. *)
Theorem seed_out_of_range_is_refused (rs_choice : Z -> nat -> nat -> list nat)
  (df : DataFrame) (n seed : Z) (w : World)
  (Hseed : seed < 0 \/ 2 ^ 32 <= seed)
  (HT : len df <= 2 ^ 25) (Hn : 0 < n <= 2 ^ 25) :
  stratified_sample rs_choice df n seed w =
    (Raise ValueError, mkWorld (SeededBy seed) (stdout w) (files w) (os w)).
Proof.
  rewrite stratified_sample_unfold. f_equal.
  rewrite (allocation_ok _ (len df) n (table_bound df) HT Hn). cbn [bind].
  destruct (sampled_rows_bad_seed rs_choice df seed Hseed
              (map (fun kv : string * Z =>
                      (fst kv, share_floor (snd kv) (len df) n
                               + occ (top (value_counts (map stratum (rows df)))
                                          (len df) n) (fst kv)))
                   (value_counts (map stratum (rows df))))) as [E|E];
    rewrite E; reflexivity.
Qed.

Lemma seed_out_of_range_is_refused_witness :
  (-1 < 0 \/ 2 ^ 32 <= -1) /\ len df_ten <= 2 ^ 25 /\ 0 < 5 <= 2 ^ 25 /\
  stratified_sample choice_first df_ten 5 (-1) world0 =
    (Raise ValueError,
     mkWorld (SeededBy (-1)) (stdout world0) (files world0) (os world0)).
Proof.
  assert (H1 : -1 < 0 \/ 2 ^ 32 <= -1) by (left; reflexivity).
  assert (H2 : len df_ten <= 2 ^ 25) by (vm_compute; discriminate).
  assert (H3 : 0 < 5 <= 2 ^ 25) by (split; [reflexivity|vm_compute; discriminate]).
  split; [exact H1|]. split; [exact H2|]. split; [exact H3|].
  exact (seed_out_of_range_is_refused choice_first df_ten 5 (-1) world0 H1 H2 H3).
Defined.

(** X26.  A data set with neither a [difficulty] nor a [patch] column
    stops the program: after the notice about the missing difficulty
    (which the console takes), [main] fails with [KeyError]; nothing else
    is printed and no file is written. *)
Theorem missing_patch_column_stops_run (rs_choice : Z -> nat -> nat -> list nat)
  (format_f1 : Float64.float -> string)
  (json_dumps : list (string * string) -> result string) (out_dir : string)
  (loaded : DataFrame) (args : Args) (w : World)
  (Hno : has_column loaded "difficulty" = false)
  (Hpatch : has_column loaded "patch" = false)
  (Hprint : os_print (os w) derive_notice = Ok tt) :
  main rs_choice format_f1 json_dumps out_dir loaded args w =
    (Raise KeyError,
     mkWorld (py_random w) (stdout w ++ [derive_notice]) (files w) (os w)).
Proof.
  unfold main. unfold bindIO at 1. unfold normalize_difficulty.
  rewrite Hno, Hpatch. cbn [negb]. unfold bindIO at 1. fold derive_notice.
  rewrite (print_ok _ _ Hprint). reflexivity.
Qed.

Lemma missing_patch_column_stops_run_witness :
  has_column df_bare "difficulty" = false /\ has_column df_bare "patch" = false /\
  os_print (os world0) derive_notice = Ok tt /\
  main choice_first format_plain dumps_plain "out" df_bare
       (mkArgs 5 7 "problems.jsonl" false) world0 =
    (Raise KeyError,
     mkWorld (py_random world0) (stdout world0 ++ [derive_notice]) (files world0)
             (os world0)).
Proof.
  split; [reflexivity|]. split; [reflexivity|]. split; [reflexivity|].
  exact (missing_patch_column_stops_run choice_first format_plain dumps_plain "out"
           df_bare (mkArgs 5 7 "problems.jsonl" false) world0 eq_refl eq_refl eq_refl).
Defined.

